(** * NoBizz summarisation pipeline (nbs-tech edge function)

    A shallow embedding of the request-deduplication and cache-orchestration
    core: URL normalisation, content hashing, the Upstash Redis client, and
    the three route handlers (generate-summary, fetch-summary, webhook).

    Conventions.
    - A JavaScript string is a [string]: each [ascii] is one UTF-16 code unit
      in the range 0..255 (the Latin-1 part of the BMP).
    - Numbers are integers ([Z]); the only numbers the program handles are
      TTLs in seconds and [Date.now()] timestamps.
    - [await] is sequencing in the monad [M]; a rejected promise or a thrown
      exception is the [Throw] outcome. *)

From Stdlib Require Import ZArith Ascii String List Lia Bool.
From stdpp Require Import base option strings gmap pretty.

#[local] Set Warnings "-register-all".

Local Open Scope string_scope.
Local Open Scope list_scope.
Local Open Scope Z_scope.

(* ===================================================================== *)
(** ** JavaScript string primitives                                       *)
(* ===================================================================== *)

Module JsString.

Definition code (c : ascii) : Z := Z.of_N (N_of_ascii c).
Definition chr (z : Z) : ascii := ascii_of_N (Z.to_N z).

(** White space and line terminators removed by [String.prototype.trim],
    restricted to code units below 256: TAB, LF, VT, FF, CR, SP, NBSP. *)
Definition is_space (c : ascii) : bool :=
  let n := code c in
  ((9 <=? n) && (n <=? 13)) || (n =? 32) || (n =? 160).

Fixpoint trimStart (s : string) : string :=
  match s with
  | String c s' => if is_space c then trimStart s' else s
  | EmptyString => EmptyString
  end.

(** [trimEnd_aux s] is [None] when [s] is white space only. *)
Fixpoint trimEnd_aux (s : string) : option string :=
  match s with
  | EmptyString => None
  | String c s' =>
      match trimEnd_aux s' with
      | Some t => Some (String c t)
      | None => if is_space c then None else Some (String c EmptyString)
      end
  end.

Definition trimEnd (s : string) : string :=
  match trimEnd_aux s with Some t => t | None => EmptyString end.

Definition trim (s : string) : string := trimEnd (trimStart s).

(** [s.substring(0, n)] for [n >= 0]. *)
Fixpoint take (n : nat) (s : string) : string :=
  match n, s with
  | S n', String c s' => String c (take n' s')
  | _, _ => EmptyString
  end.

Definition substring0 (n : nat) (s : string) : string := take n s.

(** Truthiness of a string: only the empty string is falsy. *)
Definition truthy (s : string) : bool :=
  match s with EmptyString => false | _ => true end.

Fixpoint startsWith (p s : string) : bool :=
  match p, s with
  | EmptyString, _ => true
  | String a p', String b s' => if Ascii.eqb a b then startsWith p' s' else false
  | String _ _, EmptyString => false
  end.

Fixpoint drop (n : nat) (s : string) : string :=
  match n, s with
  | S n', String _ s' => drop n' s'
  | _, _ => s
  end.

Definition endsWith (p s : string) : bool :=
  (String.length p <=? String.length s)%nat
  && String.eqb (drop (String.length s - String.length p) s) p.

(** [s.slice(0, -1)]. *)
Definition dropLast (s : string) : string :=
  take (String.length s - 1) s.

(** [s.replace(p, r)] for a literal, non-global pattern [p]: the first
    occurrence only. *)
Fixpoint replaceFirst (p r s : string) : string :=
  if startsWith p s then r +:+ drop (String.length p) s
  else match s with
       | EmptyString => EmptyString
       | String c s' => String c (replaceFirst p r s')
       end.

(** [s.replace(/^p/, r)]: the pattern is anchored at the start. *)
Definition replacePrefix (p r s : string) : string :=
  if startsWith p s then r +:+ drop (String.length p) s else s.

Definition lower (c : ascii) : ascii :=
  let n := code c in
  if (65 <=? n) && (n <=? 90) then chr (n + 32) else c.

(** [toLowerCase] on the ASCII letters (host names are ASCII). *)
Fixpoint toLowerCase (s : string) : string :=
  match s with
  | EmptyString => EmptyString
  | String c s' => String (lower c) (toLowerCase s')
  end.

(** [parts.join(sep)]. *)
Fixpoint join (sep : string) (parts : list string) : string :=
  match parts with
  | [] => EmptyString
  | [p] => p
  | p :: rest => p +:+ sep +:+ join sep rest
  end.

(** Split at the first occurrence of the character [d]. *)
Fixpoint splitFirst (d : ascii) (s : string) : option (string * string) :=
  match s with
  | EmptyString => None
  | String c s' =>
      if Ascii.eqb c d then Some (EmptyString, s')
      else match splitFirst d s' with
           | Some (a, b) => Some (String c a, b)
           | None => None
           end
  end.

(** [s.split(d)] for a one-character separator. *)
Fixpoint splitAll (d : ascii) (s : string) : list string :=
  match s with
  | EmptyString => [EmptyString]
  | String c s' =>
      if Ascii.eqb c d then EmptyString :: splitAll d s'
      else match splitAll d s' with
           | h :: t => String c h :: t
           | [] => [String c EmptyString]
           end
  end.

End JsString.

(* ===================================================================== *)
(** ** SHA-256 ([crypto.subtle.digest('SHA-256', data)])                 *)
(* ===================================================================== *)

Module Sha256.

Definition w32 (x : Z) : Z := x mod 2 ^ 32.

Definition rotr (n x : Z) : Z :=
  Z.lor (Z.shiftr x n) (w32 (Z.shiftl x (32 - n))).

Definition Ch (x y z : Z) : Z := Z.lxor z (Z.land x (Z.lxor y z)).
Definition Maj (x y z : Z) : Z :=
  Z.lxor (Z.lxor (Z.land x y) (Z.land x z)) (Z.land y z).
Definition bsig0 (x : Z) : Z := Z.lxor (Z.lxor (rotr 2 x) (rotr 13 x)) (rotr 22 x).
Definition bsig1 (x : Z) : Z := Z.lxor (Z.lxor (rotr 6 x) (rotr 11 x)) (rotr 25 x).
Definition ssig0 (x : Z) : Z := Z.lxor (Z.lxor (rotr 7 x) (rotr 18 x)) (Z.shiftr x 3).
Definition ssig1 (x : Z) : Z := Z.lxor (Z.lxor (rotr 17 x) (rotr 19 x)) (Z.shiftr x 10).

(** The round constants are the first 32 bits of the fractional parts of
    the cube roots of the first 64 primes; the initial hash value is made
    the same way from the square roots of the first 8 primes. *)
Definition is_prime (n : nat) : bool :=
  forallb (fun d => negb (Nat.eqb (Nat.modulo n d) 0)) (seq 2 (n - 2)).

Definition primes : list Z :=
  map Z.of_nat (filter is_prime (seq 2 310)).

(** The integer cube root, one bit after the other. *)
Definition icbrt (n : Z) : Z :=
  fold_left (fun r i => let c := r + 2 ^ i in if c * c * c <=? n then c else r)
            (map Z.of_nat (rev (seq 0 36))) 0.

Definition K : list Z :=
  Eval vm_compute in map (fun p => w32 (icbrt (p * 2 ^ 96))) primes.

Definition H0 : list Z :=
  Eval vm_compute in map (fun p => w32 (Z.sqrt (p * 2 ^ 64))) (firstn 8 primes).

(** Padding: a 1 bit, zeros up to 56 mod 64, then the bit length on 8 bytes. *)
Definition be_bytes (n : nat) (x : Z) : list Z :=
  map (fun i => (Z.shiftr x (8 * Z.of_nat i)) mod 256) (rev (seq 0 n)).

Definition pad (msg : list Z) : list Z :=
  let len := Z.of_nat (length msg) in
  let zeros := Z.to_nat ((55 - len) mod 64) in
  msg ++ [128] ++ repeat 0 zeros ++ be_bytes 8 (8 * len).

Fixpoint words (fuel : nat) (bs : list Z) : list Z :=
  match fuel, bs with
  | S f, b0 :: b1 :: b2 :: b3 :: rest =>
      (((b0 * 256 + b1) * 256 + b2) * 256 + b3) :: words f rest
  | _, _ => []
  end.

(** Message schedule: [win] holds W[t..t+15]; the result lists W[t..]. *)
Fixpoint expand (n : nat) (win : list Z) : list Z :=
  match n, win with
  | S n', w0 :: rest =>
      let nw := w32 (ssig1 (nth 14 win 0) + nth 9 win 0 + ssig0 (nth 1 win 0) + w0) in
      w0 :: expand n' (rest ++ [nw])
  | _, _ => []
  end.

Record regs := Regs { ra : Z; rb : Z; rc : Z; rd : Z; re : Z; rf : Z; rg : Z; rh : Z }.

Definition round (r : regs) (kw : Z * Z) : regs :=
  let '(k, w) := kw in
  let t1 := w32 (rh r + bsig1 (re r) + Ch (re r) (rf r) (rg r) + k + w) in
  let t2 := w32 (bsig0 (ra r) + Maj (ra r) (rb r) (rc r)) in
  Regs (w32 (t1 + t2)) (ra r) (rb r) (rc r) (w32 (rd r + t1)) (re r) (rf r) (rg r).

Definition regs_of (h : list Z) : regs :=
  Regs (nth 0 h 0) (nth 1 h 0) (nth 2 h 0) (nth 3 h 0)
       (nth 4 h 0) (nth 5 h 0) (nth 6 h 0) (nth 7 h 0).

Definition list_of (r : regs) : list Z :=
  [ra r; rb r; rc r; rd r; re r; rf r; rg r; rh r].

Definition compress (h : list Z) (block : list Z) : list Z :=
  let w := expand 64 block in
  let r := fold_left round (combine K w) (regs_of h) in
  map (fun p => w32 (fst p + snd p)) (combine h (list_of r)).

Fixpoint blocks (fuel : nat) (ws : list Z) (h : list Z) : list Z :=
  match fuel, ws with
  | S f, _ :: _ => blocks f (skipn 16 ws) (compress h (firstn 16 ws))
  | _, _ => h
  end.

Definition digest (msg : list Z) : list Z :=
  let bs := pad msg in
  let ws := words (length bs) bs in
  let h := blocks (length ws) ws H0 in
  flat_map (be_bytes 4) h.

End Sha256.

(** [new TextEncoder().encode(s)]: UTF-8; a code unit of 128..255 takes two
    bytes. *)
Definition utf8_encode_char (c : ascii) : list Z :=
  let n := JsString.code c in
  if n <? 128 then [n] else [192 + n / 64; 128 + n mod 64].

Fixpoint TextEncoder_encode (s : string) : list Z :=
  match s with
  | EmptyString => []
  | String c s' => utf8_encode_char c ++ TextEncoder_encode s'
  end.

Definition hex_digit (n : Z) : ascii :=
  if n <? 10 then JsString.chr (48 + n) else JsString.chr (87 + n).

(** [b.toString(16).padStart(2, '0')] *)
Definition hex_byte (b : Z) : string :=
  String (hex_digit (b / 16)) (String (hex_digit (b mod 16)) EmptyString).

Definition hex_of_bytes (bs : list Z) : string :=
  JsString.join EmptyString (map hex_byte bs).



(* ===================================================================== *)
(** ** JavaScript values and JSON                                         *)
(* ===================================================================== *)

Inductive value : Type :=
| VUndefined
| VNull
| VBool (b : bool)
| VNum (n : Z)
| VStr (s : string)
| VArr (xs : list value)
| VObj (fields : list (string * value)).

Module Json.

Definition dquote : ascii := "034"%char.
Definition backslash : ascii := "092"%char.

Definition hex4 (n : Z) : string :=
  String (hex_digit (n / 4096 mod 16)) (String (hex_digit (n / 256 mod 16))
    (String (hex_digit (n / 16 mod 16)) (String (hex_digit (n mod 16)) EmptyString))).

(** The escapes of [JSON.stringify] (QuoteJSONString). *)
Definition escape_char (c : ascii) : string :=
  let n := JsString.code c in
  if n =? 34 then String backslash (String dquote EmptyString)
  else if n =? 92 then String backslash (String backslash EmptyString)
  else if n =? 8 then String backslash "b"
  else if n =? 9 then String backslash "t"
  else if n =? 10 then String backslash "n"
  else if n =? 12 then String backslash "f"
  else if n =? 13 then String backslash "r"
  else if n <? 32 then String backslash ("u" +:+ hex4 n)
  else String c EmptyString.

Fixpoint escape (s : string) : string :=
  match s with
  | EmptyString => EmptyString
  | String c s' => escape_char c +:+ escape s'
  end.

Definition quote (s : string) : string :=
  String dquote (escape s +:+ String dquote EmptyString).

(** [JSON.stringify(v)]; a property whose value is [undefined] is left out
    of an object and printed as [null] inside an array. *)
Fixpoint stringify (v : value) : string :=
  match v with
  | VUndefined => "null"
  | VNull => "null"
  | VBool true => "true"
  | VBool false => "false"
  | VNum n => pretty n
  | VStr s => quote s
  | VArr xs => "[" +:+ JsString.join "," (map stringify xs) +:+ "]"
  | VObj fields =>
      "{" +:+ JsString.join ","
               ((fix members (fs : list (string * value)) : list string :=
                   match fs with
                   | [] => []
                   | (_, VUndefined) :: rest => members rest
                   | (k, x) :: rest => (quote k +:+ ":" +:+ stringify x) :: members rest
                   end) fields)
          +:+ "}"
  end.

Definition is_ws (c : ascii) : bool :=
  let n := JsString.code c in
  (n =? 32) || (n =? 9) || (n =? 10) || (n =? 13).

Fixpoint skip_ws (s : string) : string :=
  match s with
  | String c s' => if is_ws c then skip_ws s' else s
  | EmptyString => EmptyString
  end.

Definition hex_val (c : ascii) : option Z :=
  let n := JsString.code c in
  if (48 <=? n) && (n <=? 57) then Some (n - 48)
  else if (97 <=? n) && (n <=? 102) then Some (n - 87)
  else if (65 <=? n) && (n <=? 70) then Some (n - 55)
  else None.

(** The one-letter escapes: quote, backslash, slash, b, f, n, r, t. *)
Definition unescape (c : ascii) : option ascii :=
  let n := JsString.code c in
  if (n =? 34) || (n =? 92) || (n =? 47) then Some c
  else if n =? 98 then Some (JsString.chr 8)
  else if n =? 102 then Some (JsString.chr 12)
  else if n =? 110 then Some (JsString.chr 10)
  else if n =? 114 then Some (JsString.chr 13)
  else if n =? 116 then Some (JsString.chr 9)
  else None.

(** The characters of a string literal after its opening quote.  A
    four-digit unicode escape above 00FF names a code unit outside the
    string model and is rejected. *)
Fixpoint parse_chars (s : string) : option (string * string) :=
  match s with
  | EmptyString => None
  | String c rest =>
      let n := JsString.code c in
      if n =? 34 then Some (EmptyString, rest)
      else if n =? 92 then
        match rest with
        | String "u" (String h1 (String h2 (String h3 (String h4 rest')))) =>
            match hex_val h1, hex_val h2, hex_val h3, hex_val h4 with
            | Some a, Some b, Some c', Some d =>
                let u := ((a * 16 + b) * 16 + c') * 16 + d in
                if u <? 256 then
                  match parse_chars rest' with
                  | Some (t, r) => Some (String (JsString.chr u) t, r)
                  | None => None
                  end
                else None
            | _, _, _, _ => None
            end
        | String e rest' =>
            match unescape e with
            | Some x =>
                match parse_chars rest' with
                | Some (t, r) => Some (String x t, r)
                | None => None
                end
            | None => None
            end
        | EmptyString => None
        end
      else if n <? 32 then None
      else match parse_chars rest with
           | Some (t, r) => Some (String c t, r)
           | None => None
           end
  end.

Definition is_digit (c : ascii) : bool :=
  let n := JsString.code c in (48 <=? n) && (n <=? 57).

Fixpoint parse_digits (acc : Z) (s : string) : Z * string :=
  match s with
  | String c s' =>
      if is_digit c then parse_digits (acc * 10 + (JsString.code c - 48)) s'
      else (acc, s)
  | EmptyString => (acc, s)
  end.

(** An integer literal; a fraction or an exponent lies outside the integer
    model of numbers and is rejected. *)
Definition parse_int (s : string) : option (Z * string) :=
  let '(neg, s1) :=
    match s with
    | String "-" s' => (true, s')
    | _ => (false, s)
    end in
  match s1 with
  | String c s2 =>
      if is_digit c then
        let '(n, rest) :=
          if JsString.code c =? 48 then (0, s2) else parse_digits 0 s1 in
        match rest with
        | String d _ =>
            if is_digit d || (JsString.code d =? 46)
               || (JsString.code d =? 101) || (JsString.code d =? 69)
            then None
            else Some (if neg then - n else n, rest)
        | EmptyString => Some (if neg then - n else n, rest)
        end
      else None
  | EmptyString => None
  end.

Fixpoint parse_value (fuel : nat) (s : string) {struct fuel}
  : option (value * string) :=
  match fuel with
  | O => None
  | S f =>
      match skip_ws s with
      | EmptyString => None
      | String c rest as s' =>
          if Ascii.eqb c "{" then
            match skip_ws rest with
            | String "}" rest' => Some (VObj [], rest')
            | rest' =>
                match parse_members f rest' with
                | Some (fs, r) => Some (VObj fs, r)
                | None => None
                end
            end
          else if Ascii.eqb c "[" then
            match skip_ws rest with
            | String "]" rest' => Some (VArr [], rest')
            | rest' =>
                match parse_elements f rest' with
                | Some (xs, r) => Some (VArr xs, r)
                | None => None
                end
            end
          else if Ascii.eqb c dquote then
            match parse_chars rest with
            | Some (t, r) => Some (VStr t, r)
            | None => None
            end
          else if JsString.startsWith "true" s' then Some (VBool true, JsString.drop 4 s')
          else if JsString.startsWith "false" s' then Some (VBool false, JsString.drop 5 s')
          else if JsString.startsWith "null" s' then Some (VNull, JsString.drop 4 s')
          else
            match parse_int s' with
            | Some (n, r) => Some (VNum n, r)
            | None => None
            end
      end
  end
with parse_elements (fuel : nat) (s : string) {struct fuel}
  : option (list value * string) :=
  match fuel with
  | O => None
  | S f =>
      match parse_value f s with
      | Some (v, rest) =>
          match skip_ws rest with
          | String "," rest' =>
              match parse_elements f rest' with
              | Some (vs, r) => Some (v :: vs, r)
              | None => None
              end
          | String "]" rest' => Some ([v], rest')
          | _ => None
          end
      | None => None
      end
  end
with parse_members (fuel : nat) (s : string) {struct fuel}
  : option (list (string * value) * string) :=
  match fuel with
  | O => None
  | S f =>
      match skip_ws s with
      | String c rest =>
          if Ascii.eqb c dquote then
            match parse_chars rest with
            | Some (k, rest1) =>
                match skip_ws rest1 with
                | String ":" rest2 =>
                    match parse_value f rest2 with
                    | Some (v, rest3) =>
                        match skip_ws rest3 with
                        | String "," rest4 =>
                            match parse_members f rest4 with
                            | Some (fs, r) => Some ((k, v) :: fs, r)
                            | None => None
                            end
                        | String "}" rest4 => Some ([(k, v)], rest4)
                        | _ => None
                        end
                    | None => None
                    end
                | _ => None
                end
            | None => None
            end
          else None
      | EmptyString => None
      end
  end.

(** [JSON.parse(s)]; [None] stands for the SyntaxError it throws. *)
Definition parse (s : string) : option value :=
  match parse_value (2 * String.length s + 2) s with
  | Some (v, rest) =>
      match skip_ws rest with
      | EmptyString => Some v
      | _ => None
      end
  | None => None
  end.

End Json.


(** Property access, truthiness and string conversion on [any]-typed data. *)
Module Js.

(** [JSON.parse] keeps the last of several members with one name. *)
Fixpoint lookup_field (k : string) (fs : list (string * value)) : value :=
  match fs with
  | [] => VUndefined
  | (k', v) :: rest =>
      match lookup_field k rest with
      | VUndefined => if String.eqb k k' then v else VUndefined
      | found => found
      end
  end.

(** [v.k] for an own data property [k]; [None] is the TypeError raised on
    [null] and [undefined]. *)
Definition prop (v : value) (k : string) : option value :=
  match v with
  | VUndefined | VNull => None
  | VObj fs => Some (lookup_field k fs)
  | _ => Some VUndefined
  end.

Definition truthy (v : value) : bool :=
  match v with
  | VUndefined | VNull => false
  | VBool b => b
  | VNum n => negb (n =? 0)
  | VStr s => JsString.truthy s
  | VArr _ | VObj _ => true
  end.

(** [String(v)], as in a template literal. *)
Fixpoint toStr (v : value) : string :=
  match v with
  | VUndefined => "undefined"
  | VNull => "null"
  | VBool true => "true"
  | VBool false => "false"
  | VNum n => pretty n
  | VStr s => s
  | VArr xs =>
      JsString.join ","
        (map (fun x => match x with
                       | VUndefined | VNull => EmptyString
                       | _ => toStr x
                       end) xs)
  | VObj _ => "[object Object]"
  end.

(** [a || b] *)
Definition or (a b : value) : value := if truthy a then a else b.

(** [s || d] for an optional string [s]. *)
Definition str_or (s : option string) (d : string) : string :=
  match s with
  | Some x => if JsString.truthy x then x else d
  | None => d
  end.

Definition opt_truthy (s : option string) : bool :=
  match s with Some x => JsString.truthy x | None => false end.

End Js.

(* ===================================================================== *)
(** ** Content hashing (utils: generateContentHash)                      *)
(* ===================================================================== *)

Definition hash_content (normalizedUrl headline snippet : string) : string :=
  Json.stringify
    (VObj [ ("url", VStr normalizedUrl);
            ("headline", VStr (JsString.trim headline));
            ("snippet", VStr (JsString.substring0 300 (JsString.trim snippet))) ]).

Definition generateContentHash (normalizedUrl headline snippet : string) : string :=
  let content := hash_content normalizedUrl headline snippet in
  let data := TextEncoder_encode content in
  let hashArray := Sha256.digest data in
  hex_of_bytes hashArray.

(* ===================================================================== *)
(** ** The URL class, on the http(s) fragment                            *)
(* ===================================================================== *)

(** [new URL(s)] for absolute URLs [scheme://host[:port][/path][?query][#frag]]
    with scheme http or https, no user info, a host name without brackets,
    and path and query made of characters that the URL parser and the
    form-urlencoded serializer copy unchanged.  [parse] answers [None] (the
    TypeError of the constructor) on anything else. *)
Module URL.

Record t := Make {
  scheme : string;            (* without the colon *)
  host : string;
  port : option string;
  path : string;              (* starts with a slash *)
  query : option string;      (* without the question mark *)
  fragment : option string    (* without the number sign *)
}.

Definition is_stop (c : ascii) : bool :=
  Ascii.eqb c "/" || Ascii.eqb c "?" || Ascii.eqb c "#".

(** The longest prefix without a character satisfying [p], and the rest. *)
Fixpoint span_until (p : ascii -> bool) (s : string) : string * string :=
  match s with
  | EmptyString => (EmptyString, EmptyString)
  | String c s' =>
      if p c then (EmptyString, s)
      else let '(a, b) := span_until p s' in (String c a, b)
  end.

Fixpoint all_chars (p : ascii -> bool) (s : string) : bool :=
  match s with
  | EmptyString => true
  | String c s' => p c && all_chars p s'
  end.

Definition host_char (c : ascii) : bool :=
  let n := JsString.code c in
  ((48 <=? n) && (n <=? 57)) || ((65 <=? n) && (n <=? 90))
  || ((97 <=? n) && (n <=? 122)) || (n =? 45) || (n =? 46) || (n =? 95).

Definition default_port (scheme : string) : string :=
  if String.eqb scheme "http" then "80" else "443".

Definition parse_authority (scheme auth : string) : option (string * option string) :=
  let '(h, rest) := span_until (fun c => Ascii.eqb c ":") auth in
  if negb (JsString.truthy h) || negb (all_chars host_char h) then None
  else
    match rest with
    | EmptyString => Some (JsString.toLowerCase h, None)
    | String _ p =>
        if negb (all_chars Json.is_digit p) then None
        else if negb (JsString.truthy p) || String.eqb p (default_port scheme)
        then Some (JsString.toLowerCase h, None)
        else Some (JsString.toLowerCase h, Some p)
    end.

Definition parse (s : string) : option t :=
  let '(sch, rest) := span_until (fun c => Ascii.eqb c ":") s in
  let sch := JsString.toLowerCase sch in
  if negb (String.eqb sch "http" || String.eqb sch "https") then None
  else if negb (JsString.startsWith "://" rest) then None
  else
    let '(auth, rest1) := span_until is_stop (JsString.drop 3 rest) in
    match parse_authority sch auth with
    | None => None
    | Some (h, p) =>
        let '(pth, rest2) :=
          span_until (fun c => Ascii.eqb c "?" || Ascii.eqb c "#") rest1 in
        let '(q, rest3) :=
          match rest2 with
          | String "?" r =>
              let '(q, r') := span_until (fun c => Ascii.eqb c "#") r in (Some q, r')
          | _ => (None, rest2)
          end in
        let f := match rest3 with
                 | String "#" r => Some r
                 | _ => None
                 end in
        Some (Make sch h p (if JsString.truthy pth then pth else "/") q f)
    end.

(** [url.toString()] / [url.href] *)
Definition toString (u : t) : string :=
  scheme u +:+ "://" +:+ host u
  +:+ match port u with Some p => ":" +:+ p | None => EmptyString end
  +:+ path u
  +:+ match query u with Some q => "?" +:+ q | None => EmptyString end
  +:+ match fragment u with Some f => "#" +:+ f | None => EmptyString end.

Definition hostname (u : t) : string := host u.
Definition pathname (u : t) : string := path u.

(** [url.hostname = h]: an empty or malformed host leaves the URL as it is. *)
Definition set_hostname (u : t) (h : string) : t :=
  if JsString.truthy h && all_chars host_char h
  then Make (scheme u) (JsString.toLowerCase h) (port u) (path u) (query u) (fragment u)
  else u.

(** [url.pathname = p] *)
Definition set_pathname (u : t) (p : string) : t :=
  let p' := if JsString.startsWith "/" p then p else "/" +:+ p in
  Make (scheme u) (host u) (port u) p' (query u) (fragment u).

(** [url.hash = h] *)
Definition set_hash (u : t) (h : string) : t :=
  Make (scheme u) (host u) (port u) (path u) (query u)
       (if JsString.truthy h then Some (JsString.replacePrefix "#" EmptyString h) else None).

(** The name and value pairs of a query string. *)
Definition parse_pair (seg : string) : string * string :=
  match JsString.splitFirst "=" seg with
  | Some (n, v) => (n, v)
  | None => (seg, EmptyString)
  end.

Definition parse_query (q : string) : list (string * string) :=
  map parse_pair (filter (fun seg => JsString.truthy seg) (JsString.splitAll "&" q)).

Definition serialize_query (ps : list (string * string)) : string :=
  JsString.join "&" (map (fun '(n, v) => n +:+ "=" +:+ v) ps).

(** [url.searchParams.delete(name)]: drop every pair called [name], then
    write the list back into the URL; an empty list clears the query. *)
Definition searchParams_delete (u : t) (name : string) : t :=
  let ps := parse_query (match query u with Some q => q | None => EmptyString end) in
  let ps' := filter (fun '(n, _) => negb (String.eqb n name)) ps in
  let q' := serialize_query ps' in
  Make (scheme u) (host u) (port u) (path u)
       (if JsString.truthy q' then Some q' else None) (fragment u).

End URL.

(* ===================================================================== *)
(** ** URL normalisation (utils: normalizeUrl)                           *)
(* ===================================================================== *)

Definition trackingParams : list string :=
  [ "utm_source"; "utm_medium"; "utm_campaign"; "utm_term"; "utm_content";
    "fbclid"; "gclid"; "ref"; "source"; "medium"; "campaign";
    "_ga"; "_gl"; "mc_cid"; "mc_eid"; "igshid"; "twclid" ].

(** A regular expression of [mobilePatterns]: a literal, anchored at the
    start of the subject or not; none carries the global flag. *)
Inductive pattern := AtStart (lit : string) | Anywhere (lit : string).

Definition mobilePatterns : list (pattern * string) :=
  [ (AtStart "m.", EmptyString);
    (Anywhere ".m.", ".");
    (Anywhere "/mobile/", "/");
    (Anywhere "/m/", "/") ].

Definition replace (p : pattern) (replacement subject : string) : string :=
  match p with
  | AtStart lit => JsString.replacePrefix lit replacement subject
  | Anywhere lit => JsString.replaceFirst lit replacement subject
  end.

Definition normalizeUrl (url : string) : string :=
  match URL.parse url with
  | None => url
  | Some urlObj =>
      (* Lowercase hostname *)
      let urlObj := URL.set_hostname urlObj (JsString.toLowerCase (URL.hostname urlObj)) in
      (* Remove tracking parameters *)
      let urlObj := fold_left URL.searchParams_delete trackingParams urlObj in
      (* Strip fragments *)
      let urlObj := URL.set_hash urlObj EmptyString in
      (* Normalize trailing slashes (remove for consistency, except root) *)
      let pathname := URL.pathname urlObj in
      let pathname :=
        if (1 <? String.length pathname)%nat && JsString.endsWith "/" pathname
        then JsString.dropLast pathname else pathname in
      let urlObj := URL.set_pathname urlObj pathname in
      (* Convert mobile to desktop URLs: every pattern is applied to the
         host name *)
      let hostname :=
        fold_left (fun hostname '(p, replacement) => replace p replacement hostname)
                  mobilePatterns (URL.hostname urlObj) in
      let urlObj := URL.set_hostname urlObj hostname in
      URL.toString urlObj
  end.


(* ===================================================================== *)
(** ** Effects: the Redis store behind its REST endpoint, exceptions      *)
(* ===================================================================== *)

Inductive Result (A : Type) : Type :=
| Ok (a : A)
| Throw (message : string).
Arguments Ok {A} a.
Arguments Throw {A} message.

(** A stored key: its string value and the [EX] lifetime it was written
    with, in seconds ([None]: no expiry).  No time passes inside one
    handler run, so no entry expires in the model. *)
Record Entry := { value_of : string; ttl_of : option Z }.

(** The command array posted to the REST endpoint. *)
Inductive Command : Type :=
| GET (key : string)
| SET (key val : string) (ex : option Z)       (* SET key val [EX ex] *)
| SET_NX (key val : string) (ex : Z)           (* SET key val NX EX ex *)
| DEL (key : string).

(** The [result] member of the endpoint's answer. *)
Inductive Reply : Type :=
| Nil
| OK
| Bulk (s : string)
| Int (n : Z).

Definition redis (c : Command) (db : gmap string Entry) : Reply * gmap string Entry :=
  match c with
  | GET k =>
      (match db !! k with Some e => Bulk (value_of e) | None => Nil end, db)
  | SET k v ex => (OK, <[k := {| value_of := v; ttl_of := ex |}]> db)
  | SET_NX k v ex =>
      match db !! k with
      | Some _ => (Nil, db)
      | None => (OK, <[k := {| value_of := v; ttl_of := Some ex |}]> db)
      end
  | DEL k =>
      (Int (match db !! k with Some _ => 1 | None => 0 end), delete k db)
  end.

(** What a handler run leaves behind: every command sent to the store with
    the reply received ([None]: the request failed), and every submission
    to the inference provider with its outcome. *)
Inductive Event : Type :=
| Sent (c : Command) (r : option Reply)
| Predict (text headline : string) (r : Result string).

(** What happens to one request to the store.  [Through]: the store runs
    the command and the answer arrives.  [Lost]: [executeCommand] throws
    and the store has not run the command ([fetch] rejects before the
    request arrives, or the store refuses it and the answer is not [ok]).
    [Unanswered]: [executeCommand] throws although the store has run the
    command ([fetch] rejects while the answer is on its way, the answer is
    not [ok], or [response.json()] throws). *)
Inductive Fate := Through | Lost | Unanswered.

(** The store runs the command. *)
Definition applied (f : Fate) : bool :=
  match f with Lost => false | _ => true end.

(** The client receives the reply. *)
Definition answered (f : Fate) : bool :=
  match f with Through => true | _ => false end.

(** [net] decides the fate of the coming requests to the store, in order;
    once the list is used up every request goes through. *)
Record World := {
  db : gmap string Entry;
  net : list Fate;
  clock : Z;                    (* Date.now() *)
  log : list Event
}.

Definition M (A : Type) : Type := World -> Result A * World.

Definition ret {A} (a : A) : M A := fun w => (Ok a, w).
Definition throw {A} (message : string) : M A := fun w => (Throw message, w).
Definition bind {A B} (m : M A) (k : A -> M B) : M B :=
  fun w =>
    match m w with
    | (Ok a, w') => k a w'
    | (Throw e, w') => (Throw e, w')
    end.
Definition try_catch {A} (m : M A) (handler : string -> M A) : M A :=
  fun w =>
    match m w with
    | (Ok a, w') => (Ok a, w')
    | (Throw e, w') => handler e w'
    end.
Definition lift {A} (r : Result A) : M A := fun w => (r, w).

Notation "'let*' x ':=' m 'in' k" := (bind m (fun x => k))
  (at level 10, x name, m at level 100, k at level 200).

Definition emit (e : Event) (w : World) : World :=
  {| db := db w; net := net w; clock := clock w; log := log w ++ [e] |}.

(** [executeCommand(config, command)] *)
Definition executeCommand (command : Command) : M Reply :=
  fun w =>
    let fate := match net w with f :: _ => f | [] => Through end in
    let w1 := {| db := db w; net := tl (net w); clock := clock w; log := log w |} in
    let '(result, db') := redis command (db w1) in
    let w2 := {| db := db'; net := net w1; clock := clock w1; log := log w1 |} in
    match fate with
    | Through => (Ok result, emit (Sent command (Some result)) w2)
    | Unanswered => (Throw "Redis request failed", emit (Sent command None) w2)
    | Lost => (Throw "Redis request failed", emit (Sent command None) w1)
    end.

(** The client returned by [createRedisClient()].  Every method catches the
    error of [executeCommand], logs it, and returns a value. *)
Module redis_client.

Definition get (key : string) : M (option string) :=
  try_catch
    (let* result := executeCommand (GET key) in
     (* result.result || null *)
     ret (match result with
          | Bulk s => if JsString.truthy s then Some s else None
          | _ => None
          end))
    (fun _ => ret None).

Definition set (key val : string) (ttlSeconds : option Z) : M bool :=
  try_catch
    (let command :=
       match ttlSeconds with
       | Some t => if t =? 0 then SET key val None else SET key val (Some t)
       | None => SET key val None
       end in
     let* result := executeCommand command in
     (* result.result === 'OK' *)
     ret (match result with OK => true | _ => false end))
    (fun _ => ret false).

Definition setnx (key val : string) (ttlSeconds : Z) : M bool :=
  try_catch
    (let command := SET_NX key val ttlSeconds in
     let* result := executeCommand command in
     ret (match result with OK => true | _ => false end))
    (fun _ => ret false).

Definition del (key : string) : M bool :=
  try_catch
    (let* result := executeCommand (DEL key) in
     (* result.result > 0 *)
     ret (match result with Int n => 0 <? n | _ => false end))
    (fun _ => ret false).

End redis_client.

(* ===================================================================== *)
(** ** Requests and responses                                             *)
(* ===================================================================== *)

(** [new Response(JSON.stringify(v), { status })] *)
Record Response := { status : Z; body : string }.

Definition json_response (st : Z) (v : value) : Response :=
  {| status := st; body := Json.stringify v |}.

(** A request with a JSON body: [req.json()] yields the decoded body or
    rejects. *)
Record Request (B : Type) := { json : Result B }.
Arguments json {B} r.

Module Req.
(** GenerateSummaryRequest; an absent member is [None]. *)
Record t := Make {
  url : option string;
  headline : option string;
  html : option string;
  snippet : option string
}.
End Req.

Module Fetch.
(** The two query parameters read with [searchParams.get]. *)
Record t := Make { urlParam : option string; hashParam : option string }.
End Fetch.

Inductive PredictionStatus := starting | processing | succeeded | failed | canceled.

Inductive Output := OutputString (s : string) | OutputArray (parts : list string).

Module Payload.
(** ReplicateWebhookPayload.  [output] is [None] when absent or null: the
    handler only tests it.  [error] is the member as the JSON body has it,
    [VUndefined] when absent: the handler copies it into its answer. *)
Record t := Make {
  id : string;
  status : PredictionStatus;
  output : option Output;
  error : value
}.
End Payload.

Definition output_truthy (o : option Output) : bool :=
  match o with
  | Some (OutputString s) => JsString.truthy s
  | Some (OutputArray _) => true
  | None => false
  end.

Definition status_eqb (a b : PredictionStatus) : bool :=
  match a, b with
  | starting, starting | processing, processing | succeeded, succeeded
  | failed, failed | canceled, canceled => true
  | _, _ => false
  end.

Definition error_response (message : string) : Response :=
  json_response 500 (VObj [("error", VStr message)]).

(** [JSON.parse(s)] inside a handler. *)
Definition JSON_parse (s : string) : M value :=
  match Json.parse s with
  | Some v => ret v
  | None => throw "Unexpected token in JSON"
  end.

(** [v.k] inside a handler. *)
Definition member (v : value) (k : string) : M value :=
  match Js.prop v k with
  | Some x => ret x
  | None => throw "Cannot read properties of null"
  end.

(** The [complete] answer built from a parsed cache entry. *)
Definition complete_response (summary : value) (hash : string) : M Response :=
  let* s := member summary "summary" in
  let* h := member summary "headline" in
  let* g := member summary "generatedAt" in
  ret (json_response 200
         (VObj [ ("status", VStr "complete"); ("cached", VBool true);
                 ("summary", s); ("headline", h); ("generatedAt", g);
                 ("hash", VStr hash) ])).

(* ===================================================================== *)
(** ** Route handlers                                                     *)
(* ===================================================================== *)

Section Handlers.

(** The external collaborators: the HTML content extractor behind
    [extractContent(html, url)] (its [text], or the error it throws) and
    the inference provider behind [replicate.createPrediction(text,
    headline)] (the [id] of the accepted prediction, or the error). *)
Variable extractContent : string -> string -> Result string.
Variable createPrediction : string -> string -> Result string.

(** utils: extractContentSafe *)
Definition extractContentSafe
    (html : option string) (url : string) (fallbackSnippet : option string)
  : Result string :=
  match html with
  | Some h =>
      if negb (JsString.truthy h) || (String.length (JsString.trim h) =? 0)%nat then
        if Js.opt_truthy fallbackSnippet then Ok (Js.str_or fallbackSnippet EmptyString)
        else Ok EmptyString
      else
        match extractContent h url with
        | Ok text =>
            if negb (JsString.truthy text) || (String.length text <? 50)%nat then
              match fallbackSnippet with
              | Some f =>
                  if JsString.truthy f && (String.length text <? String.length f)%nat
                  then Ok f else Ok text
              | None => Ok text
              end
            else Ok text
        | Throw _ =>
            if Js.opt_truthy fallbackSnippet then Ok (Js.str_or fallbackSnippet EmptyString)
            else Ok EmptyString
        end
  | None =>
      if Js.opt_truthy fallbackSnippet then Ok (Js.str_or fallbackSnippet EmptyString)
      else Ok EmptyString
  end.

Definition replicate_createPrediction (text headline : string) : M string :=
  fun w =>
    let r := createPrediction text headline in
    (r, emit (Predict text headline r) w).

(** Step 2 of generate-summary: the text the summary is made from. *)
Definition resolveText (body : Req.t) (normalizedUrl : string) : string :=
  let extractedText := Js.str_or (Req.snippet body) EmptyString in
  if Js.opt_truthy (Req.html body) then
    match extractContentSafe (Req.html body) normalizedUrl (Req.snippet body) with
    | Ok extracted => extracted
    | Throw _ => Js.str_or (Req.snippet body) EmptyString
    end
  else extractedText.

(** Steps 5 and 6 of generate-summary: the deduplication lock and the call
    to Replicate. *)
Definition lockAndPredict
    (body : Req.t) (normalizedUrl hash extractedText : string) : M Response :=
  (* Step 5: Check deduplication lock *)
  let lockKey := "lock:" +:+ hash in
  let* lockAcquired := redis_client.setnx lockKey "1" 60 in
  if negb lockAcquired then
    (* Another request is already processing *)
    ret (json_response 200 (VObj [("status", VStr "pending"); ("hash", VStr hash)]))
  else
    (* Step 6: Call Replicate with extracted text *)
    try_catch
      (let text :=
         if JsString.truthy extractedText then extractedText
         else Js.str_or (Req.snippet body) EmptyString in
       if negb (JsString.truthy text) || (String.length (JsString.trim text) =? 0)%nat then
         (* Release lock on error *)
         let* _ := redis_client.del lockKey in
         ret (json_response 400
                (VObj [("error", VStr "No content available for summarization")]))
       else
         let* prediction_id :=
           replicate_createPrediction text (Js.str_or (Req.headline body) EmptyString) in
         let predictionKey := "prediction:" +:+ prediction_id in
         let predictionData :=
           Json.stringify
             (VObj [ ("hash", VStr hash);
                     ("headline", VStr (Js.str_or (Req.headline body) EmptyString));
                     ("normalizedUrl", VStr normalizedUrl) ]) in
         let* _ := redis_client.set predictionKey predictionData (Some 3600) in
         ret (json_response 202
                (VObj [ ("status", VStr "processing"); ("hash", VStr hash);
                        ("predictionId", VStr prediction_id) ])))
      (fun error =>
         (* Release lock on error *)
         let* _ := redis_client.del lockKey in
         throw error).

(** routers/generate-summary.ts: handleGenerateSummary *)
Definition handleGenerateSummary (req : Request Req.t) : M Response :=
  try_catch
    (let* body := lift (json req) in
     if negb (Js.opt_truthy (Req.url body)) then
       ret (json_response 400 (VObj [("error", VStr "URL is required")]))
     else
       (* Normalize URL *)
       let normalizedUrl := normalizeUrl (Js.str_or (Req.url body) EmptyString) in
       (* Step 1: Check URL -> hash mapping *)
       let urlKey := "url:" +:+ normalizedUrl in
       let* existingHash := redis_client.get urlKey in
       let* hit :=
         match existingHash with
         | Some existingHash =>
             let articleKey := "article:" +:+ existingHash in
             let* cachedArticle := redis_client.get articleKey in
             match cachedArticle with
             | Some cachedArticle =>
                 let* summary := JSON_parse cachedArticle in
                 let* r := complete_response summary existingHash in
                 ret (Some r)
             | None => ret None
             end
         | None => ret None
         end in
       match hit with
       | Some r => ret r
       | None =>
           (* Step 2: Extract article content from HTML (if provided) *)
           let extractedText := resolveText body normalizedUrl in
           (* Step 3: Generate content hash using extracted text *)
           let hash :=
             generateContentHash normalizedUrl (Js.str_or (Req.headline body) EmptyString)
               (JsString.substring0 300 extractedText) in
           (* Step 4: Check article cache by hash *)
           let articleKey := "article:" +:+ hash in
           let* cachedArticle := redis_client.get articleKey in
           match cachedArticle with
           | Some cachedArticle =>
               let* summary := JSON_parse cachedArticle in
               (* Update URL mapping for future fast lookups *)
               let* _ := redis_client.set urlKey hash (Some 604800) in
               complete_response summary hash
           | None => lockAndPredict body normalizedUrl hash extractedText
           end
       end)
    (fun error => ret (error_response error)).

(** routers/fetch-summary.ts: handleFetchSummary *)
Definition handleFetchSummary (req : Fetch.t) : M Response :=
  try_catch
    (let urlParam := Fetch.urlParam req in
     let hashParam := Fetch.hashParam req in
     if negb (Js.opt_truthy urlParam) && negb (Js.opt_truthy hashParam) then
       ret (json_response 400
              (VObj [("error", VStr "Either url or hash parameter is required")]))
     else
       let* hash :=
         if Js.opt_truthy hashParam then ret hashParam
         else if Js.opt_truthy urlParam then
           (* Normalize URL and lookup hash *)
           let normalizedUrl := normalizeUrl (Js.str_or urlParam EmptyString) in
           let urlKey := "url:" +:+ normalizedUrl in
           redis_client.get urlKey
         else ret None in
       match hash with
       | None => ret (json_response 200 (VObj [("status", VStr "unknown")]))
       | Some hash =>
           if negb (JsString.truthy hash) then
             ret (json_response 200 (VObj [("status", VStr "unknown")]))
           else
             (* Check if article exists *)
             let articleKey := "article:" +:+ hash in
             let* cachedArticle := redis_client.get articleKey in
             match cachedArticle with
             | Some cachedArticle =>
                 let* summary := JSON_parse cachedArticle in
                 complete_response summary hash
             | None =>
                 (* Check if lock exists (processing) *)
                 let lockKey := "lock:" +:+ hash in
                 let* lockExists := redis_client.get lockKey in
                 match lockExists with
                 | Some _ =>
                     ret (json_response 200
                            (VObj [("status", VStr "pending"); ("hash", VStr hash)]))
                 | None =>
                     ret (json_response 200
                            (VObj [("status", VStr "unknown"); ("hash", VStr hash)]))
                 end
             end
       end)
    (fun error => ret (error_response error)).

(** The summary text of a callback: a sequence is joined with newlines. *)
Definition summaryText_of (o : Output) : string :=
  match o with
  | OutputArray parts => JsString.join (String (JsString.chr 10) EmptyString) parts
  | OutputString s => s
  end.

(** routers/webhook.ts: handleWebhook *)
Definition handleWebhook (req : Request Payload.t) : M Response :=
  try_catch
    (let* payload := lift (json req) in
     (* Lookup hash from prediction ID *)
     let predictionKey := "prediction:" +:+ Payload.id payload in
     let* predictionDataStr := redis_client.get predictionKey in
     match predictionDataStr with
     | None =>
         ret (json_response 200
                (VObj [("received", VBool true);
                       ("warning", VStr "Unknown prediction ID")]))
     | Some predictionDataStr =>
         let* predictionData := JSON_parse predictionDataStr in
         let* hash := member predictionData "hash" in
         let* headline0 := member predictionData "headline" in
         let headline := Js.or headline0 (VStr "Article Summary") in
         let* normalizedUrl := member predictionData "normalizedUrl" in
         if status_eqb (Payload.status payload) succeeded
            && output_truthy (Payload.output payload) then
           (* Extract summary from output *)
           let summaryText :=
             match Payload.output payload with
             | Some o => summaryText_of o
             | None => EmptyString
             end in
           (* Create article summary object *)
           fun w =>
             (let summary :=
                VObj [ ("summary", VStr (JsString.trim summaryText));
                       ("headline", headline);
                       ("model", VStr "google-deepmind/gemma-2b");
                       ("generatedAt", VNum (clock w)) ] in
              (* Store article summary *)
              let articleKey := "article:" +:+ Js.toStr hash in
              let* _ := redis_client.set articleKey (Json.stringify summary) (Some 604800) in
              (* Update URL mapping for fast future lookups *)
              let* _ :=
                if Js.truthy normalizedUrl then
                  let urlKey := "url:" +:+ Js.toStr normalizedUrl in
                  redis_client.set urlKey (Js.toStr hash) (Some 604800)
                else ret false in
              (* Clean up prediction mapping *)
              let* _ := redis_client.del predictionKey in
              (* Release lock *)
              let lockKey := "lock:" +:+ Js.toStr hash in
              let* _ := redis_client.del lockKey in
              ret (json_response 200
                     (VObj [("received", VBool true); ("stored", VBool true)]))) w
         else if status_eqb (Payload.status payload) failed then
           (* Release lock *)
           let lockKey := "lock:" +:+ Js.toStr hash in
           let* _ := redis_client.del lockKey in
           (* Clean up prediction mapping *)
           let* _ := redis_client.del predictionKey in
           ret (json_response 200
                  (VObj [ ("received", VBool true);
                          ("error", Payload.error payload) ]))
         else
           ret (json_response 200 (VObj [("received", VBool true)]))
     end)
    (fun error => ret (error_response error)).

End Handlers.

(* ===================================================================== *)
(** ** Running one store request                                          *)
(* ===================================================================== *)

(** The fate of the next request to the store. *)
Definition fate (w : World) : Fate :=
  match net w with f :: _ => f | [] => Through end.

(** Whether the next request to the store is answered. *)
Definition delivered (w : World) : bool := answered (fate w).

(** The reply the next request [c] receives, if any. *)
Definition outcome (c : Command) (w : World) : option Reply :=
  if delivered w then Some (fst (redis c (db w))) else None.

(** The world once the request [c] has been made. *)
Definition after (c : Command) (w : World) : World :=
  {| db := if applied (fate w) then snd (redis c (db w)) else db w;
     net := tl (net w);
     clock := clock w;
     log := log w ++ [Sent c (outcome c w)] |}.

(** What [redis.get(k)] returns in [w]: the stored value when the request
    goes through and the value is not the empty string. *)
Definition visible (k : string) (w : World) : option string :=
  match outcome (GET k) w with
  | Some (Bulk s) => if JsString.truthy s then Some s else None
  | _ => None
  end.

(** What [setnx], [set] and [del] return for the reply received. *)
Definition is_OK (r : option Reply) : bool :=
  match r with Some OK => true | _ => false end.

Definition is_positive (r : option Reply) : bool :=
  match r with Some (Int n) => 0 <? n | _ => false end.

(** A transport on which every request goes through. *)
Definition reliable (w : World) : Prop := net w = [].

(** The conditional set that takes the deduplication lock. *)
Definition lock_cmd (hash : string) : Command := SET_NX ("lock:" +:+ hash) "1" 60.

(** The content hash generate-summary computes for a request body. *)
Definition fingerprint (extractContent : string -> string -> Result string)
    (body : Req.t) : string :=
  let normalizedUrl := normalizeUrl (Js.str_or (Req.url body) EmptyString) in
  generateContentHash normalizedUrl (Js.str_or (Req.headline body) EmptyString)
    (JsString.substring0 300 (resolveText extractContent body normalizedUrl)).

Definition pending_response (hash : string) : Response :=
  json_response 200 (VObj [("status", VStr "pending"); ("hash", VStr hash)]).

Definition processing_response (hash id : string) : Response :=
  json_response 202
    (VObj [ ("status", VStr "processing"); ("hash", VStr hash);
            ("predictionId", VStr id) ]).

Definition validation_error : Response :=
  json_response 400 (VObj [("error", VStr "No content available for summarization")]).

(** The text handed to the provider in step 6. *)
Definition text_for_provider (body : Req.t) (extractedText : string) : string :=
  if JsString.truthy extractedText then extractedText
  else Js.str_or (Req.snippet body) EmptyString.

(** [!text || text.trim().length === 0] *)
Definition blank (text : string) : bool :=
  negb (JsString.truthy text) || (String.length (JsString.trim text) =? 0)%nat.

(** The write that records the correlation entry of an accepted job. *)
Definition correlation_cmd (body : Req.t) (nu hash id : string) : Command :=
  SET ("prediction:" +:+ id)
      (Json.stringify
         (VObj [ ("hash", VStr hash);
                 ("headline", VStr (Js.str_or (Req.headline body) EmptyString));
                 ("normalizedUrl", VStr nu) ]))
      (Some 3600).

(** The outermost [catch] of a handler: an error becomes a 500 answer. *)
Definition catch500 (r : Result Response * World) : Result Response * World :=
  match r with
  | (Ok a, w') => (Ok a, w')
  | (Throw e, w') => (Ok (error_response e), w')
  end.

(** Reads and unconditional writes: the traffic of the cache lookups. *)
Definition cache_traffic (e : Event) : Prop :=
  match e with
  | Sent (GET _) _ | Sent (SET _ _ _) _ => True
  | _ => False
  end.

(** The three members read from [JSON.parse(predictionDataStr)]: [hash],
    [headline] and [normalizedUrl]; or the error that reading them throws. *)
Definition correlation_of (s : string) : Result (value * value * value) :=
  match Json.parse s with
  | None => Throw "Unexpected token in JSON"
  | Some v =>
      match Js.prop v "hash", Js.prop v "headline", Js.prop v "normalizedUrl" with
      | Some h, Some hl, Some nu => Ok (h, hl, nu)
      | _, _, _ => Throw "Cannot read properties of null"
      end
  end.

Definition prediction_key (payload : Payload.t) : string :=
  "prediction:" +:+ Payload.id payload.

(** The serialized ArticleSummary the webhook writes. *)
Definition article_entry (headline0 : value) (o : Output) (now : Z) : string :=
  Json.stringify
    (VObj [ ("summary", VStr (JsString.trim (summaryText_of o)));
            ("headline", Js.or headline0 (VStr "Article Summary"));
            ("model", VStr "google-deepmind/gemma-2b");
            ("generatedAt", VNum now) ]).

Definition unknown_ack : Response :=
  json_response 200
    (VObj [("received", VBool true); ("warning", VStr "Unknown prediction ID")]).

Definition stored_ack : Response :=
  json_response 200 (VObj [("received", VBool true); ("stored", VBool true)]).

Definition failed_ack (e : value) : Response :=
  json_response 200 (VObj [("received", VBool true); ("error", e)]).

Definition received_ack : Response :=
  json_response 200 (VObj [("received", VBool true)]).

(** The commands of a run, in the order they were sent. *)
Definition commands (evs : list Event) : list Command :=
  flat_map (fun e => match e with Sent c _ => [c] | Predict _ _ _ => [] end) evs.

(** The non-empty value stored under [k]. *)
Definition stored (k : string) (d : gmap string Entry) : option string :=
  match d !! k with
  | Some e => if JsString.truthy (value_of e) then Some (value_of e) else None
  | None => None
  end.

(** What the [i]-th coming [redis.get] returns when it asks for [k], no
    write happening before it. *)
Definition seen (i : nat) (k : string) (w : World) : option string :=
  if answered (nth i (net w) Through) then stored k (db w) else None.

(** The world after the store writes of a [succeeded] callback. *)
Definition after_stored (pk : string) (hash headline0 nu : value) (o : Output)
    (w1 : World) : World :=
  let h := Js.toStr hash in
  let w2 := after (SET ("article:" +:+ h) (article_entry headline0 o (clock w1))
                       (Some 604800)) w1 in
  let w3 := if Js.truthy nu
            then after (SET ("url:" +:+ Js.toStr nu) h (Some 604800)) w2
            else w2 in
  after (DEL ("lock:" +:+ h)) (after (DEL pk) w3).

(** Absent, or the empty string. *)
Definition no_output (o : option Output) : Prop :=
  o = None \/ o = Some (OutputString EmptyString).

Definition never_locks (evs : list Event) : Prop :=
  forall k v ex r, ~ In (Sent (SET_NX k v ex) r) evs.

Definition never_predicts (evs : list Event) : Prop :=
  forall text headline r, ~ In (Predict text headline r) evs.

(** *** Sample data *)

Definition demo_extract : string -> string -> Result string := fun html _ => Ok html.
Definition demo_provider : string -> string -> Result string := fun _ _ => Ok "job1".

Definition fresh_world : World :=
  {| db := ∅; net := []; clock := 1731621120000; log := [] |}.

Definition demo_body : Req.t :=
  Req.Make (Some "https://m.example.com/a?utm_source=x") (Some "H") None (Some "S").

Definition demo_hash : string :=
  "752940fe4320a080d63f102aa3f50781016ff6a2fefbc213da1b6e3e7942314e".


(** A request with a URL and nothing to summarize. *)
Definition textless_body : Req.t :=
  Req.Make (Some "https://example.com/a") (Some "H") None None.

Definition textless_hash : string :=
  fingerprint demo_extract textless_body.

(** The store while another request holds the lock of [textless_body]. *)
Definition locked_world : World :=
  {| db := {[ "lock:" +:+ textless_hash := {| value_of := "1"; ttl_of := Some 60 |} ]};
     net := []; clock := 1731621120000; log := [] |}.

(** A transport whose next request fails. *)
Definition failing_world : World :=
  {| db := {[ "k" := {| value_of := "v"; ttl_of := None |} ]};
     net := [Lost]; clock := 1731621120000; log := [] |}.

(** The boundary case as the specification words it: a request whose text
    resolves to nothing is refused with a 400 answer, and the run contains
    neither a lock acquisition nor a provider call. *)
Definition refused_before_lock
    (extractContent createPrediction : string -> string -> Result string)
    (body : Req.t) (w : World) : Prop :=
  let run := handleGenerateSummary extractContent createPrediction
               {| json := Ok body |} w in
  (exists message, fst run = Ok (json_response 400 (VObj [("error", VStr message)])))
  /\ (forall evs, log (snd run) = log w ++ evs -> never_locks evs /\ never_predicts evs).

(** A store operation surfaces its failure when the promise it returns is
    rejected. *)
Definition surfaces_error {A} (m : M A) (w : World) : Prop :=
  exists message, fst (m w) = Throw message.

(** A [succeeded] callback with an empty sequence as output. *)
Definition empty_sequence_payload : Payload.t :=
  Payload.Make "job1" succeeded (Some (OutputArray [])) VNull.

Definition empty_string_payload : Payload.t :=
  Payload.Make "job1" succeeded (Some (OutputString EmptyString)) VNull.

Definition failed_payload : Payload.t :=
  Payload.Make "job1" failed None (VStr "out of memory").

Definition succeeded_payload : Payload.t :=
  Payload.Make "job1" succeeded (Some (OutputArray ["Result"; "text"])) VNull.

(** The correlation entry recorded for [demo_body]. *)
Definition demo_correlation : string :=
  Json.stringify
    (VObj [ ("hash", VStr demo_hash); ("headline", VStr "H");
            ("normalizedUrl", VStr "https://example.com/a") ]).

(** The store while the generation of [demo_body] is in flight: the lock
    and the correlation entry that generate-summary wrote. *)
Definition in_flight_world : World :=
  {| db := <[ "lock:" +:+ demo_hash := {| value_of := "1"; ttl_of := Some 60 |} ]>
             (<[ "prediction:job1" :=
                  {| value_of := demo_correlation; ttl_of := Some 3600 |} ]> ∅);
     net := []; clock := 1731621120000; log := [] |}.

(** The store once the callback of [succeeded_payload] was handled. *)
Definition completed_world : World :=
  snd (handleWebhook {| json := Ok succeeded_payload |} in_flight_world).

(** The store once the callback of [empty_sequence_payload] was handled. *)
Definition emptied_world : World :=
  snd (handleWebhook {| json := Ok empty_sequence_payload |} in_flight_world).

(** Two requests for one article published under two addresses. *)
Definition mirror_a : Req.t :=
  Req.Make (Some "https://a.example.com/story") (Some "Title") None (Some "Same text").
Definition mirror_b : Req.t :=
  Req.Make (Some "https://b.example.com/story") (Some "Title") None (Some "Same text").


(* ===================================================================== *)
(** ** The function entry point (index.ts)                               *)
(* ===================================================================== *)

Definition routes : list string := ["generate-summary"; "fetch-summary"; "webhook"].

(** What may follow the route name in the pattern of [extractRoute]: a
    question mark, or the end of the path. *)
Definition route_ends (rest : string) : bool :=
  match rest with
  | EmptyString => true
  | String c _ => Ascii.eqb c "?"
  end.

(** A match of [/\/(generate-summary|fetch-summary|webhook)(?:\?|$)/] that
    starts at the first character of [s]; the alternatives are tried in
    order. *)
Definition route_at (s : string) : option string :=
  match s with
  | String "/" rest =>
      find (fun r => JsString.startsWith r rest
                     && route_ends (JsString.drop (String.length r) rest)) routes
  | _ => None
  end.

(** [path.match(...)]: the leftmost match; its first group, or null. *)
Fixpoint extractRoute (path : string) : option string :=
  match route_at path with
  | Some r => Some r
  | None =>
      match path with
      | String _ rest => extractRoute rest
      | EmptyString => None
      end
  end.

(** [s.includes(needle)] *)
Fixpoint includes (needle s : string) : bool :=
  JsString.startsWith needle s
  || match s with
     | String _ rest => includes needle rest
     | EmptyString => false
     end.

(** An error is carried by its message; the function answers or rethrows. *)
Definition handleConfigurationError (message : string) : Result Response :=
  if includes "must be set" message then
    Ok (json_response 500
          (VObj [("error", VStr ("Configuration error: " +:+ message))]))
  else Throw message.

(** [s.replace(/\/$/, '')] *)
Definition stripTrailingSlash (s : string) : string :=
  if JsString.endsWith "/" s then JsString.dropLast s else s.

Definition hex_digit_upper (n : Z) : ascii :=
  if n <? 10 then JsString.chr (48 + n) else JsString.chr (55 + n).

Definition percent_byte (b : Z) : string :=
  String "%" (String (hex_digit_upper (b / 16))
                (String (hex_digit_upper (b mod 16)) EmptyString)).

(** The concatenation of the strings of a list. *)
Fixpoint concat_strings (parts : list string) : string :=
  match parts with
  | [] => EmptyString
  | p :: rest => p +:+ concat_strings rest
  end.

Definition is_alnum (c : ascii) : bool :=
  let n := JsString.code c in
  ((48 <=? n) && (n <=? 57)) || ((65 <=? n) && (n <=? 90))
  || ((97 <=? n) && (n <=? 122)).

(** The characters [encodeURIComponent] leaves alone: letters, digits and
    the marks - _ . ! ~ * ' ( ). *)
Definition uri_unreserved (c : ascii) : bool :=
  is_alnum c
  || existsb (Ascii.eqb c) ["-"; "_"; "."; "!"; "~"; "*"; "'"; "("; ")"]%char.

Definition encodeURIComponent_char (c : ascii) : string :=
  if uri_unreserved c then String c EmptyString
  else concat_strings (map percent_byte (utf8_encode_char c)).

Fixpoint encodeURIComponent (s : string) : string :=
  match s with
  | EmptyString => EmptyString
  | String c s' => encodeURIComponent_char c +:+ encodeURIComponent s'
  end.

(** The query string of a parsed http(s) URL, and [URLSearchParams] on it. *)
Module Form.

(** The URL parser writes a query with these characters percent-encoded:
    controls, space, the double quote, number sign, angle brackets and
    apostrophe, and everything above the tilde. *)
Definition query_escaped (c : ascii) : bool :=
  let n := JsString.code c in
  (n <=? 32) || (126 <? n) || (n =? 34) || (n =? 35) || (n =? 60) || (n =? 62)
  || (n =? 39).

Definition query_encode_char (c : ascii) : string :=
  if query_escaped c then concat_strings (map percent_byte (utf8_encode_char c))
  else String c EmptyString.

Fixpoint query_encode (s : string) : string :=
  match s with
  | EmptyString => EmptyString
  | String c s' => query_encode_char c +:+ query_encode s'
  end.

(** The bytes of a name or value: a plus sign is a space, a percent sign
    with two hexadecimal digits is the byte they spell. *)
Fixpoint percent_decode (s : string) : list Z :=
  match s with
  | EmptyString => []
  | String c rest =>
      if Ascii.eqb c "%" then
        match rest with
        | String h1 (String h2 rest') =>
            match Json.hex_val h1, Json.hex_val h2 with
            | Some a, Some b => (a * 16 + b) :: percent_decode rest'
            | _, _ => 37 :: percent_decode rest
            end
        | _ => 37 :: percent_decode rest
        end
      else if Ascii.eqb c "+" then 32 :: percent_decode rest
      else utf8_encode_char c ++ percent_decode rest
  end.

(** UTF-8 decoding into the string model: [None] when the bytes are
    malformed or spell a character above code 255. *)
Fixpoint utf8_decode (bs : list Z) : option string :=
  match bs with
  | [] => Some EmptyString
  | b :: rest =>
      if b <? 128 then
        match utf8_decode rest with
        | Some s => Some (String (JsString.chr b) s)
        | None => None
        end
      else if (b =? 194) || (b =? 195) then
        match rest with
        | c :: rest' =>
            if (128 <=? c) && (c <? 192) then
              match utf8_decode rest' with
              | Some s => Some (String (JsString.chr ((b - 192) * 64 + (c - 128))) s)
              | None => None
              end
            else None
        | [] => None
        end
      else None
  end.

Definition decode (s : string) : option string := utf8_decode (percent_decode s).

(** The list of a [URLSearchParams]: the query is cut at the ampersands,
    empty pieces are skipped, each piece is cut at its first equals sign. *)
Definition parse (query : string) : list (option string * option string) :=
  map (fun seg => let '(n, v) := URL.parse_pair seg in (decode n, decode v))
      (filter (fun seg => JsString.truthy seg) (JsString.splitAll "&" query)).

(** [searchParams.get(name)]: the value of the first pair called [name], or
    null ([None]); the value is [Some None] when it lies outside the string
    model. *)
Definition get (name query : string) : option (option string) :=
  match find (fun p => match fst p with
                       | Some n => String.eqb n name
                       | None => false
                       end) (parse query) with
  | Some p => Some (snd p)
  | None => None
  end.

End Form.

(** [Deno.env.get] *)
Definition Env : Type := string -> option string.

Record RedisConfig := { baseUrl : string; token : string }.

(** The configuration part of [createRedisClient()]. *)
Definition createRedisClient (env : Env) : Result RedisConfig :=
  let redisUrl := env "REDIS_REST_URL" in
  let redisToken := env "REDIS_REST_TOKEN" in
  if negb (Js.opt_truthy redisUrl) || negb (Js.opt_truthy redisToken) then
    Throw "REDIS_REST_URL and REDIS_REST_TOKEN must be set"
  else
    Ok {| baseUrl := stripTrailingSlash (Js.str_or redisUrl EmptyString);
          token := Js.str_or redisToken EmptyString |}.

Record ReplicateConfig := {
  apiToken : string;
  webhookUrl : string;
  modelVersion : string
}.

(** The configuration part of [createReplicateClient()]. *)
Definition createReplicateClient (env : Env) : Result ReplicateConfig :=
  let apiToken := env "REPLICATE_API_TOKEN" in
  let supabaseUrl := env "PROJECT_URL" in
  let modelVersion := env "REPLICATE_MODEL_VERSION" in
  let webhookSecret := env "WEBHOOK_SECRET" in
  if negb (Js.opt_truthy apiToken) then Throw "REPLICATE_API_TOKEN must be set"
  else if negb (Js.opt_truthy supabaseUrl) then Throw "PROJECT_URL must be set"
  else if negb (Js.opt_truthy modelVersion) then
    Throw "REPLICATE_MODEL_VERSION must be set (e.g., get from https://replicate.com/google-deepmind/gemma-2b)"
  else
    (* Build webhook URL with secret for authentication *)
    let webhookUrl :=
      stripTrailingSlash (Js.str_or supabaseUrl EmptyString)
      +:+ "/functions/v1/nbs-tech/webhook" in
    let webhookUrl :=
      if Js.opt_truthy webhookSecret then
        webhookUrl +:+ "?secret="
        +:+ encodeURIComponent (Js.str_or webhookSecret EmptyString)
      else webhookUrl in
    Ok {| apiToken := Js.str_or apiToken EmptyString;
          webhookUrl := webhookUrl;
          modelVersion := Js.str_or modelVersion EmptyString |}.

Module Auth.
Record t := Make { valid : bool; error : option string }.
End Auth.

(** [verifyJWT(req)], on the value of the Authorization header. *)
Definition verifyJWT (authHeader : option string) : Auth.t :=
  match authHeader with
  | Some h =>
      if negb (JsString.truthy h) || negb (JsString.startsWith "Bearer " h) then
        Auth.Make false (Some "Missing or invalid Authorization header")
      else
        (* Basic validation: check that token is present and not empty *)
        let token := JsString.trim (JsString.drop 7 h) in
        if negb (JsString.truthy token) || (String.length token =? 0)%nat then
          Auth.Make false (Some "Empty token")
        else Auth.Make true None
  | None => Auth.Make false (Some "Missing or invalid Authorization header")
  end.

(** [verifyWebhookSecret(req)], on [searchParams.get('secret')]. *)
Definition verifyWebhookSecret (env : Env) (secret : option string) : Auth.t :=
  let expectedSecret := env "WEBHOOK_SECRET" in
  if negb (Js.opt_truthy expectedSecret) then
    (* If WEBHOOK_SECRET is not set, allow the request *)
    Auth.Make true None
  else
    match secret with
    | Some s =>
        if negb (JsString.truthy s)
           || negb (String.eqb s (Js.str_or expectedSecret EmptyString))
        then Auth.Make false (Some "Invalid or missing webhook secret")
        else Auth.Make true None
    | None => Auth.Make false (Some "Invalid or missing webhook secret")
    end.

Module Http.
(** One incoming request: its method, [new URL(req.url).pathname], the
    Authorization header, the [secret] query parameter, and the request as
    each route handler decodes it. *)
Record t := Make {
  method : string;
  pathname : string;
  authorization : option string;
  secret : option string;
  generateRequest : Request Req.t;
  fetchRequest : Fetch.t;
  webhookRequest : Request Payload.t
}.
End Http.

Definition unauthorized (r : Auth.t) : Response :=
  json_response 401
    (VObj [("error",
            VStr ("Unauthorized: "
                  +:+ match Auth.error r with
                      | Some e => e
                      | None => "undefined"
                      end))]).

Definition not_found : Response :=
  json_response 404
    (VObj [ ("error", VStr "Not found");
            ("availableEndpoints",
             VArr [ VStr "POST /generate-summary"; VStr "GET /fetch-summary";
                    VStr "POST /webhook" ]) ]).

Definition route_is (route : option string) (name : string) : bool :=
  match route with
  | Some r => String.eqb r name
  | None => false
  end.

Section Server.

Variable env : Env.
Variable extractContent : string -> string -> Result string.
Variable createPrediction : string -> string -> Result string.
(** [new Date(now).toISOString()] *)
Variable toISOString : Z -> string.

(** The handler given to [Deno.serve]. *)
Definition serve (req : Http.t) : M Response :=
  try_catch
    ((* Parse URL to determine route *)
     let path := Http.pathname req in
     let route := extractRoute path in
     (* GENERATE SUMMARY *)
     if String.eqb (Http.method req) "POST" && route_is route "generate-summary" then
       (* Verify JWT for protected endpoint *)
       let authResult := verifyJWT (Http.authorization req) in
       if negb (Auth.valid authResult) then ret (unauthorized authResult)
       else
         try_catch
           (let* _ := lift (createRedisClient env) in
            let* _ := lift (createReplicateClient env) in
            handleGenerateSummary extractContent createPrediction
              (Http.generateRequest req))
           (fun error => lift (handleConfigurationError error))
     (* GET SUMMARY *)
     else if String.eqb (Http.method req) "GET" && route_is route "fetch-summary" then
       let authResult := verifyJWT (Http.authorization req) in
       if negb (Auth.valid authResult) then ret (unauthorized authResult)
       else
         try_catch
           (let* _ := lift (createRedisClient env) in
            handleFetchSummary (Http.fetchRequest req))
           (fun error => lift (handleConfigurationError error))
     (* WEBHOOK *)
     else if String.eqb (Http.method req) "POST" && route_is route "webhook" then
       (* Verify webhook secret for security *)
       let secretResult := verifyWebhookSecret env (Http.secret req) in
       if negb (Auth.valid secretResult) then ret (unauthorized secretResult)
       else
         try_catch
           (let* _ := lift (createRedisClient env) in
            handleWebhook (Http.webhookRequest req))
           (fun error => lift (handleConfigurationError error))
     else ret not_found)
    (fun error =>
       fun w =>
         (Ok (json_response 500
                (VObj [ ("error", VStr error);
                        ("timestamp", VStr (toISOString (clock w))) ])), w)).

End Server.

(* ===================================================================== *)
(** ** The extension's API client (utils/api.ts)                         *)
(* ===================================================================== *)

(** The query string [fetchSummary(hashOrUrl)] appends to the
    fetch-summary endpoint. *)
Definition fetchSummary_queryParam (hashOrUrl : string) : string :=
  (* Determine if it's a hash or URL *)
  let isHash := negb (JsString.startsWith "http" hashOrUrl) in
  let param := if isHash then "hash" else "url" in
  param +:+ "=" +:+ encodeURIComponent hashOrUrl.

(** The two parameters handleFetchSummary reads from a request whose URL
    carries the query [q]. *)
Definition fetch_params (q : string) : option (option string) * option (option string) :=
  (Form.get "url" (Form.query_encode q), Form.get "hash" (Form.query_encode q)).

(* ===================================================================== *)
(** ** Content extraction (utils/content-extractor.ts)                   *)
(* ===================================================================== *)

Section Extractor.

(** The registry lookup [getSiteParser(url)]; a parser answers the text of
    the content it found, null, or throws.  [extractArticleContent] is the
    generic extractor. *)
Variable getSiteParser : string -> option (string -> Result (option string)).
Variable extractArticleContent : string -> Result string.

Definition extractContent (html url : string) : Result string :=
  if negb (JsString.truthy html) || (String.length (JsString.trim html) =? 0)%nat then
    Ok EmptyString
  else
    (* Try site-specific parser first *)
    match getSiteParser url with
    | Some customParser =>
        match customParser html with
        | Ok (Some text) =>
            if JsString.truthy text && (50 <? String.length text)%nat
            then Ok text
            else extractArticleContent html
        | Ok None => extractArticleContent html
        | Throw _ => extractArticleContent html
        end
    | None =>
        (* Fallback to generic extractor *)
        extractArticleContent html
    end.

End Extractor.

(* ===================================================================== *)
(** ** Predicates used in the statements below                           *)
(* ===================================================================== *)

Definition is_hex_lower (c : ascii) : bool :=
  let n := JsString.code c in
  ((48 <=? n) && (n <=? 57)) || ((97 <=? n) && (n <=? 102)).

Definition no_question (s : string) : Prop :=
  URL.all_chars (fun c => negb (Ascii.eqb c "?")) s = true.

Definition is_tracking (name : string) : bool :=
  existsb (String.eqb name) trackingParams.

Definition query_pairs (u : URL.t) : list (string * string) :=
  URL.parse_query (match URL.query u with Some q => q | None => EmptyString end).

(** [pathname] without one trailing slash, the root path kept. *)
Definition trimmed_path (p : string) : string :=
  if (1 <? String.length p)%nat && JsString.endsWith "/" p
  then JsString.dropLast p else p.


(** A character that cuts a query into pairs or a pair into its halves. *)
Definition plain_char (c : ascii) : bool :=
  negb (Ascii.eqb c "&") && negb (Ascii.eqb c "=").

(** Text in which every percent sign starts an escape of two hexadecimal
    digits. *)
Fixpoint well_escaped (s : string) : bool :=
  match s with
  | EmptyString => true
  | String c rest =>
      if Ascii.eqb c "%" then
        match rest with
        | String h1 (String h2 rest') =>
            match Json.hex_val h1, Json.hex_val h2 with
            | Some _, Some _ => well_escaped rest'
            | _, _ => false
            end
        | _ => false
        end
      else well_escaped rest
  end.

(** The UTF-8 bytes of a character are one byte below 128 or a lead byte
    194 or 195 with one continuation byte, and spell the character. *)
Definition utf8_char_ok (c : ascii) : bool :=
  match utf8_encode_char c with
  | [n] => (n <? 128) && Ascii.eqb (JsString.chr n) c
  | [b; d] =>
      negb (b <? 128) && ((b =? 194) || (b =? 195))
      && (128 <=? d) && (d <? 192)
      && Ascii.eqb (JsString.chr ((b - 192) * 64 + (d - 128))) c
  | _ => false
  end.

(** A host name after the two host patterns of [mobilePatterns]; a name
    they would empty is left alone, as the [hostname] setter refuses the
    empty string. *)
Definition desktop_host (h : string) : string :=
  let h' := JsString.replaceFirst ".m." "."
              (JsString.replacePrefix "m." EmptyString h) in
  if JsString.truthy h' then h' else h.

(** The query left once every tracking parameter is deleted: the other
    pairs in their order, each written [name=value]; no query when none is
    left. *)
Definition kept_query (u : URL.t) : option string :=
  let q := URL.serialize_query
             (List.filter (fun p => negb (is_tracking (fst p))) (query_pairs u)) in
  if JsString.truthy q then Some q else None.

Definition no_char (d : ascii) (s : string) : bool :=
  URL.all_chars (fun c => negb (Ascii.eqb c d)) s.

(** A lowercase character of a host name. *)
Definition host_lower_char (c : ascii) : bool :=
  URL.host_char c && Ascii.eqb (JsString.lower c) c.

(** A name without ampersand and equals sign, a value without ampersand. *)
Definition pair_ok (p : string * string) : bool :=
  URL.all_chars plain_char (fst p) && no_char "&" (snd p).

(** The text of the query of a URL, empty when it has none. *)
Definition query_text (u : URL.t) : string :=
  match URL.query u with Some q => q | None => EmptyString end.

(** What the serializer leaves in the URL for a list of pairs. *)
Definition written (ps : list (string * string)) : option string :=
  if JsString.truthy (URL.serialize_query ps)
  then Some (URL.serialize_query ps) else None.

(** The stages of [URL.parse] on an address it accepts: the scheme and
    what follows it, the authority and what follows it, the path and what
    follows it, and the query and fragment found there. *)
Definition parse_tail (rest2 : string) : option string * option string :=
  let '(q, rest3) :=
    match rest2 with
    | String "?" r =>
        let '(q, r') := URL.span_until (fun c => Ascii.eqb c "#") r in (Some q, r')
    | _ => (None, rest2)
    end in
  (q, match rest3 with String "#" r => Some r | _ => None end).

Inductive parsed (url : string) (u : URL.t) : Prop :=
| Parsed (sch rest auth rest1 pth rest2 : string)
    (p_scheme : URL.span_until (fun c => Ascii.eqb c ":") url = (sch, rest))
    (p_known : String.eqb (JsString.toLowerCase sch) "http"
               || String.eqb (JsString.toLowerCase sch) "https" = true)
    (p_slashes : JsString.startsWith "://" rest = true)
    (p_authority : URL.span_until URL.is_stop (JsString.drop 3 rest) = (auth, rest1))
    (p_host : URL.parse_authority (JsString.toLowerCase sch) auth
              = Some (URL.host u, URL.port u))
    (p_path : URL.span_until (fun c => Ascii.eqb c "?" || Ascii.eqb c "#") rest1
              = (pth, rest2))
    (p_path_eq : URL.path u = if JsString.truthy pth then pth else "/")
    (p_scheme_eq : URL.scheme u = JsString.toLowerCase sch)
    (p_tail : (URL.query u, URL.fragment u) = parse_tail rest2).

(** Plain addresses: the last label of the host starts with a letter (no
    IPv4 reading) and no label is in Punycode; the port has at most four
    digits and no leading zero; the path is made of letters, digits and the
    marks - . _ ~ / and has no dot segment; the query is made of letters,
    digits and the marks * - . _ + & =.  The URL class copies host, port
    and path of such an address as it parses them; the form serializer
    leaves the marks of the query alone, except an equals sign inside a
    value (see [plain_values]). *)
Definition is_lower_letter (c : ascii) : bool :=
  let n := JsString.code c in (97 <=? n) && (n <=? 122).

Definition plain_host (h : string) : bool :=
  match List.last (JsString.splitAll "." h) EmptyString with
  | String c _ => is_lower_letter c
  | EmptyString => false
  end
  && negb (includes "xn--" h).

Definition plain_port (p : option string) : bool :=
  match p with
  | None => true
  | Some EmptyString => false
  | Some (String c r) =>
      negb (Ascii.eqb c "0") && (String.length r <=? 3)%nat
  end.

Definition path_safe (c : ascii) : bool :=
  is_alnum c || existsb (Ascii.eqb c) ["-"; "."; "_"; "~"; "/"]%char.

Definition plain_path (p : string) : bool :=
  URL.all_chars path_safe p
  && negb (includes "/./" (p +:+ "/"))
  && negb (includes "/../" (p +:+ "/")).

Definition value_safe (c : ascii) : bool :=
  is_alnum c || existsb (Ascii.eqb c) ["*"; "-"; "."; "_"; "+"; "="]%char.

Definition query_safe (c : ascii) : bool := value_safe c || Ascii.eqb c "&".

Definition plain_url (u : URL.t) : bool :=
  plain_host (URL.host u) && plain_port (URL.port u) && plain_path (URL.path u)
  && match URL.query u with
     | Some q => URL.all_chars query_safe q
     | None => true
     end.

(** No value of the query holds an equals sign: a pair is split at its
    first equals sign, and [URLSearchParams] would write a later one back
    as [%3D]. *)
Definition plain_values (u : URL.t) : bool :=
  forallb (fun p => no_char "=" (snd p)) (query_pairs u).

(* ===================================================================== *)
(** ** The runs of generate-summary and fetch-summary, stage by stage    *)
(* ===================================================================== *)

(** The [complete] answer built from the text of a cache entry, or the
    error thrown on the way. *)
Definition complete_of (cached hash : string) : Result Response :=
  match Json.parse cached with
  | None => Throw "Unexpected token in JSON"
  | Some summary =>
      match Js.prop summary "summary", Js.prop summary "headline",
            Js.prop summary "generatedAt" with
      | Some s, Some h, Some g =>
          Ok (json_response 200
                (VObj [ ("status", VStr "complete"); ("cached", VBool true);
                        ("summary", s); ("headline", h); ("generatedAt", g);
                        ("hash", VStr hash) ]))
      | _, _, _ => Throw "Cannot read properties of null"
      end
  end.

(** The outermost [catch], on a result. *)
Definition answer (r : Result Response) : Result Response :=
  match r with
  | Ok a => Ok a
  | Throw e => Ok (error_response e)
  end.

Definition url_key (body : Req.t) : string :=
  "url:" +:+ normalizeUrl (Js.str_or (Req.url body) EmptyString).

(** Steps 2 to 6 of generate-summary, from the world [w'] the first step
    left. *)
Definition generate_by_hash
    (extractContent createPrediction : string -> string -> Result string)
    (body : Req.t) (w' : World) : Result Response * World :=
  let nu := normalizeUrl (Js.str_or (Req.url body) EmptyString) in
  let hash := fingerprint extractContent body in
  let w3 := after (GET ("article:" +:+ hash)) w' in
  match visible ("article:" +:+ hash) w' with
  | Some cached =>
      match Json.parse cached with
      | None => (Ok (error_response "Unexpected token in JSON"), w3)
      | Some _ =>
          (answer (complete_of cached hash),
           after (SET (url_key body) hash (Some 604800)) w3)
      end
  | None =>
      catch500 (lockAndPredict createPrediction body nu hash
                  (resolveText extractContent body nu) w3)
  end.

Definition generate_run
    (extractContent createPrediction : string -> string -> Result string)
    (body : Req.t) (w : World) : Result Response * World :=
  let w1 := after (GET (url_key body)) w in
  match visible (url_key body) w with
  | Some existingHash =>
      let w2 := after (GET ("article:" +:+ existingHash)) w1 in
      match visible ("article:" +:+ existingHash) w1 with
      | Some cached => (answer (complete_of cached existingHash), w2)
      | None => generate_by_hash extractContent createPrediction body w2
      end
  | None => generate_by_hash extractContent createPrediction body w1
  end.

Definition unknown_response (hash : string) : Response :=
  json_response 200 (VObj [("status", VStr "unknown"); ("hash", VStr hash)]).

(** The lookups of fetch-summary once the fingerprint is known. *)
Definition fetch_by_hash (hash : string) (w' : World) : Result Response * World :=
  let w1 := after (GET ("article:" +:+ hash)) w' in
  match visible ("article:" +:+ hash) w' with
  | Some cached => (answer (complete_of cached hash), w1)
  | None =>
      (Ok (match visible ("lock:" +:+ hash) w1 with
           | Some _ => pending_response hash
           | None => unknown_response hash
           end),
       after (GET ("lock:" +:+ hash)) w1)
  end.

(** The cache lookups of generate-summary find nothing in the store [d]:
    no entry under the fingerprint of the request, and no entry under the
    fingerprint its address is mapped to, if any. *)
Definition misses (extractContent : string -> string -> Result string)
    (body : Req.t) (d : gmap string Entry) : Prop :=
  stored ("article:" +:+ fingerprint extractContent body) d = None
  /\ match stored (url_key body) d with
     | Some existingHash => stored ("article:" +:+ existingHash) d = None
     | None => True
     end.

(** The world the cache lookups of generate-summary leave behind when each
    of them returns nothing: the read of [url:<normalized URL>], the read of
    the entry it names, if it names one, and the read of [article:<hash>];
    [None] when one of them returns an entry. *)
Definition lookups_miss (extractContent : string -> string -> Result string)
    (body : Req.t) (w : World) : option World :=
  let articleKey := "article:" +:+ fingerprint extractContent body in
  let by_hash := fun w' : World =>
    match visible articleKey w' with
    | Some _ => None
    | None => Some (after (GET articleKey) w')
    end in
  let w1 := after (GET (url_key body)) w in
  match visible (url_key body) w with
  | Some existingHash =>
      match visible ("article:" +:+ existingHash) w1 with
      | Some _ => None
      | None => by_hash (after (GET ("article:" +:+ existingHash)) w1)
      end
  | None => by_hash w1
  end.

(** The lock and the correlation entry of an accepted job. *)
Definition lock_entry : Entry := {| value_of := "1"; ttl_of := Some 60 |}.

Definition correlation_entry (body : Req.t) (hash : string) : Entry :=
  {| value_of :=
       Json.stringify
         (VObj [ ("hash", VStr hash);
                 ("headline", VStr (Js.str_or (Req.headline body) EmptyString));
                 ("normalizedUrl",
                  VStr (normalizeUrl (Js.str_or (Req.url body) EmptyString))) ]);
     ttl_of := Some 3600 |}.

(** A string literal as [JSON.stringify] writes it, followed by [rest]. *)
Definition quoted (s rest : string) : string :=
  String Json.dquote (Json.escape s +:+ String Json.dquote rest).

(** What ends a number literal. *)
Definition ends_number (rest : string) : bool :=
  match rest with
  | String d _ =>
      negb (Json.is_digit d || (JsString.code d =? 46)
            || (JsString.code d =? 101) || (JsString.code d =? 69))
  | EmptyString => true
  end.

(* ===================================================================== *)
(** ** More sample data                                                  *)
(* ===================================================================== *)

(** A configured deployment, and one without any variable set. *)
Definition demo_env : Env := fun name =>
  if String.eqb name "REDIS_REST_URL" then Some "https://cache.example.com/"
  else if String.eqb name "REDIS_REST_TOKEN" then Some "t0ken"
  else if String.eqb name "REPLICATE_API_TOKEN" then Some "r8"
  else if String.eqb name "PROJECT_URL" then Some "https://proj.example.co/"
  else if String.eqb name "REPLICATE_MODEL_VERSION" then Some "v1"
  else if String.eqb name "WEBHOOK_SECRET" then Some "s3cret & more"
  else None.

Definition bare_env : Env := fun _ => None.

Definition demo_redis_config : RedisConfig :=
  {| baseUrl := "https://cache.example.com"; token := "t0ken" |}.

Definition demo_replicate_config : ReplicateConfig :=
  {| apiToken := "r8";
     webhookUrl :=
       "https://proj.example.co/functions/v1/nbs-tech/webhook?secret=s3cret%20%26%20more";
     modelVersion := "v1" |}.

Definition demo_iso : Z -> string := fun _ => "2024-11-14T21:52:00.000Z".

Definition no_body {B} : Request B := {| json := Throw "Unexpected end of JSON input" |}.

(** A poll and a generate request as the extension sends them. *)
Definition poll_request : Http.t :=
  Http.Make "GET" "/functions/v1/nbs-tech/fetch-summary" (Some "Bearer anon-key")
            None no_body (Fetch.Make None (Some demo_hash)) no_body.

Definition generate_request : Http.t :=
  Http.Make "POST" "/functions/v1/nbs-tech/generate-summary" (Some "Bearer anon-key")
            None {| json := Ok demo_body |} (Fetch.Make None None) no_body.

(** An extractor that finds little, and a provider that refuses. *)
Definition thin_extract : string -> string -> Result string := fun _ _ => Ok "tiny".
Definition failing_provider : string -> string -> Result string :=
  fun _ _ => Throw "quota exceeded".

(** An address with capitals, a port, a trailing slash, tracking
    parameters and a fragment, and its parse. *)
Definition busy_url : string :=
  "https://M.Example.com:8443/News/?utm_source=x&id=7&fbclid=abc#top".

Definition busy_url_record : URL.t :=
  URL.Make "https" "m.example.com" (Some "8443") "/News/"
           (Some "utm_source=x&id=7&fbclid=abc") (Some "top").

Definition plain_story : URL.t :=
  URL.Make "https" "example.com" None "/a" None None.

Definition queried_story : URL.t :=
  URL.Make "https" "example.com" None "/a" (Some "b=1") None.

(** The store with a summary cached under the fingerprint of [demo_body]
    and no address mapped to it. *)
Definition demo_article : string :=
  article_entry (VStr "H") (OutputString "Sum") 1731621120000.

Definition cached_world : World :=
  {| db := {[ "article:" +:+ demo_hash :=
                {| value_of := demo_article; ttl_of := Some 604800 |} ]};
     net := []; clock := 1731621120000; log := [] |}.

Definition demo_complete : Response :=
  json_response 200
    (VObj [ ("status", VStr "complete"); ("cached", VBool true);
            ("summary", VStr "Sum"); ("headline", VStr "H");
            ("generatedAt", VNum 1731621120000); ("hash", VStr demo_hash) ]).

Definition progress_payload : Payload.t :=
  Payload.Make "job1" processing None VNull.

(** The worlds the two lookups of [textless_body] leave, on the empty
    store and while another request holds the lock. *)
Definition textless_reads (w : World) : World :=
  after (GET ("article:" +:+ textless_hash)) (after (GET (url_key textless_body)) w).

(** [in_flight_world] on a transport that delivers the read of the
    callback and loses the request that follows it. *)
Definition lossy_world : World :=
  {| db := db in_flight_world; net := [Through; Lost];
     clock := 1731621120000; log := [] |}.

(** The world once the callback of [failed_payload] was handled there. *)
Definition stuck_world : World :=
  snd (handleWebhook {| json := Ok failed_payload |} lossy_world).

(* ===================================================================== *)
(** ** The site parser registry (utils/site-parsers.ts)                  *)
(* ===================================================================== *)

Inductive Site := SkyNews | BBC.

(** The regular expressions of the registry: literals, optional groups,
    alternatives and sequences; every pattern is anchored at the start of
    the subject and carries the flag [i]. *)
Inductive regex :=
| Lit (s : string)
| Opt (r : regex)
| Alt (a b : regex)
| Cat (a b : regex).

(** Letters are compared without their case. *)
Definition lit_matches (p s : string) : bool :=
  JsString.startsWith (JsString.toLowerCase p) (JsString.toLowerCase s).

(** What is left of [s] after each way of matching [r] at its start. *)
Fixpoint residuals (r : regex) (s : string) : list string :=
  match r with
  | Lit p => if lit_matches p s then [JsString.drop (String.length p) s] else []
  | Opt r' => residuals r' s ++ [s]
  | Alt a b => residuals a s ++ residuals b s
  | Cat a b => flat_map (residuals b) (residuals a s)
  end.

(** [pattern.test(s)] for an anchored pattern. *)
Definition test (r : regex) (s : string) : bool :=
  match residuals r s with
  | [] => false
  | _ :: _ => true
  end.

(** [/^https?:\/\/(www\.)?(news\.)?sky\.com/i] *)
Definition sky_pattern : regex :=
  Cat (Lit "http") (Cat (Opt (Lit "s")) (Cat (Lit "://")
    (Cat (Opt (Lit "www.")) (Cat (Opt (Lit "news.")) (Lit "sky.com"))))).

(** [/^https?:\/\/(www\.)?bbc\.(com|co\.uk)/i] *)
Definition bbc_pattern : regex :=
  Cat (Lit "http") (Cat (Opt (Lit "s")) (Cat (Lit "://")
    (Cat (Opt (Lit "www.")) (Cat (Lit "bbc.") (Alt (Lit "com") (Lit "co.uk")))))).

Definition siteParsers : list (regex * Site) :=
  [ (sky_pattern, SkyNews); (bbc_pattern, BBC) ].

(** [getSiteParser(url)]: the first entry of the registry whose pattern
    matches, named by its site. *)
Definition getSiteParser (url : string) : option Site :=
  match find (fun entry => test (fst entry) url) siteParsers with
  | Some entry => Some (snd entry)
  | None => None
  end.

(** [extractContent] with the registry in place: the parsers of the two
    sites and the generic extractor stay abstract. *)
Definition extractContent_registry
    (parseSkyNews parseBBC : string -> Result (option string))
    (extractArticleContent : string -> Result string)
    (html url : string) : Result string :=
  extractContent
    (fun url => match getSiteParser url with
                | Some SkyNews => Some parseSkyNews
                | Some BBC => Some parseBBC
                | None => None
                end)
    extractArticleContent html url.

(** The finitely many strings a pattern spells. *)
Fixpoint language (r : regex) : list string :=
  match r with
  | Lit p => [p]
  | Opt r' => language r' ++ [EmptyString]
  | Alt a b => language a ++ language b
  | Cat a b => flat_map (fun p => map (String.append p) (language b)) (language a)
  end.

Definition sky_prefixes : list string :=
  [ "https://www.news.sky.com"; "https://www.sky.com"; "https://news.sky.com";
    "https://sky.com"; "http://www.news.sky.com"; "http://www.sky.com";
    "http://news.sky.com"; "http://sky.com" ].

Definition bbc_prefixes : list string :=
  [ "https://www.bbc.com"; "https://www.bbc.co.uk"; "https://bbc.com";
    "https://bbc.co.uk"; "http://www.bbc.com"; "http://www.bbc.co.uk";
    "http://bbc.com"; "http://bbc.co.uk" ].

(** [s] starts with one of [prefixes], letters compared without case. *)
Definition starts_with_any (prefixes : list string) (s : string) : bool :=
  existsb (fun p => JsString.startsWith p (JsString.toLowerCase s)) prefixes.

(* ===================================================================== *)
(** ** Lemmas on single requests                                          *)
(* ===================================================================== *)

Lemma executeCommand_eq c w :
  executeCommand c w =
  (match outcome c w with
   | Some r => Ok r
   | None => Throw "Redis request failed"
   end, after c w).
Proof.
  unfold executeCommand, after, outcome, delivered, fate, emit.
  destruct (net w) as [|[] rest]; cbn [tl db net clock log answered applied];
    destruct (redis c (db w)) as [r d]; reflexivity.
Qed.

Lemma get_eq k w :
  redis_client.get k w = (Ok (visible k w), after (GET k) w).
Proof.
  unfold redis_client.get, try_catch, bind, ret, visible.
  rewrite executeCommand_eq.
  destruct (outcome (GET k) w) as [[]|]; reflexivity.
Qed.

Lemma set_eq k v t w :
  t <> 0 ->
  redis_client.set k v (Some t) w =
  (Ok (is_OK (outcome (SET k v (Some t)) w)), after (SET k v (Some t)) w).
Proof.
  intros Ht. unfold redis_client.set, try_catch, bind, ret, is_OK.
  destruct (Z.eqb_spec t 0) as [->|_]; [congruence|].
  rewrite executeCommand_eq.
  destruct (outcome (SET k v (Some t)) w) as [[]|]; reflexivity.
Qed.

Lemma setnx_eq k v t w :
  redis_client.setnx k v t w =
  (Ok (is_OK (outcome (SET_NX k v t) w)), after (SET_NX k v t) w).
Proof.
  unfold redis_client.setnx, try_catch, bind, ret, is_OK.
  rewrite executeCommand_eq.
  destruct (outcome (SET_NX k v t) w) as [[]|]; reflexivity.
Qed.

Lemma del_eq k w :
  redis_client.del k w =
  (Ok (is_positive (outcome (DEL k) w)), after (DEL k) w).
Proof.
  unfold redis_client.del, try_catch, bind, ret, is_positive.
  rewrite executeCommand_eq.
  destruct (outcome (DEL k) w) as [[]|]; reflexivity.
Qed.

Lemma log_after c w : log (after c w) = log w ++ [Sent c (outcome c w)].
Proof. reflexivity. Qed.

Lemma log_emit e w : log (emit e w) = log w ++ [e].
Proof. reflexivity. Qed.

Lemma db_emit e w : db (emit e w) = db w.
Proof. reflexivity. Qed.

Lemma db_after_GET k w : db (after (GET k) w) = db w.
Proof. unfold after. cbn. destruct (applied (fate w)); reflexivity. Qed.

Lemma reliable_after c w : reliable w -> reliable (after c w).
Proof. unfold reliable, after. cbn. intros ->. reflexivity. Qed.

Lemma reliable_emit e w : reliable w -> reliable (emit e w).
Proof. unfold reliable, emit. cbn. auto. Qed.

Lemma reliable_fate w : reliable w -> fate w = Through.
Proof. unfold reliable, fate. intros ->. reflexivity. Qed.

Lemma reliable_delivered w : reliable w -> delivered w = true.
Proof. unfold delivered. intros H. rewrite reliable_fate; auto. Qed.

Lemma reliable_outcome c w : reliable w -> outcome c w = Some (fst (redis c (db w))).
Proof. intros H. unfold outcome. rewrite reliable_delivered; auto. Qed.

Lemma reliable_db_after c w : reliable w -> db (after c w) = snd (redis c (db w)).
Proof. intros H. unfold after. cbn. rewrite reliable_fate; auto. Qed.

(* ===================================================================== *)
(** ** Symbolic execution of the handlers                                  *)
(* ===================================================================== *)

Ltac norm_log :=
  cbn [fst snd]; repeat (rewrite log_after || rewrite log_emit);
  rewrite <- ?app_assoc; cbn [app].

Ltac atomic_split :=
  match goal with
  | |- context [match ?x with _ => _ end] =>
      lazymatch x with
      | context [match _ with _ => _ end] => fail
      | _ => idtac
      end;
      lazymatch type of x with
      | option Reply => destruct x as [[]|] eqn:?
      | (_ * _)%type => fail
      | _ => destruct x eqn:?
      end
  end.

Ltac exec :=
  repeat (cbv beta iota zeta;
          first [ rewrite get_eq | rewrite setnx_eq | rewrite del_eq
                | rewrite set_eq by discriminate | atomic_split ]).

Lemma status_neq a b v1 v2 : a <> b -> json_response a v1 <> json_response b v2.
Proof. intros Hne H. apply (f_equal status) in H. cbn [status json_response] in H. contradiction. Qed.

Lemma lockAndPredict_eq cp body nu hash extractedText w :
  lockAndPredict cp body nu hash extractedText w =
  let w1 := after (lock_cmd hash) w in
  let text := text_for_provider body extractedText in
  let headline := Js.str_or (Req.headline body) EmptyString in
  match outcome (lock_cmd hash) w with
  | Some OK =>
      if blank text then (Ok validation_error, after (DEL ("lock:" +:+ hash)) w1)
      else
        match cp text headline with
        | Ok id =>
            (Ok (processing_response hash id),
             after (correlation_cmd body nu hash id)
                   (emit (Predict text headline (Ok id)) w1))
        | Throw e =>
            (Throw e,
             after (DEL ("lock:" +:+ hash))
                   (emit (Predict text headline (Throw e)) w1))
        end
  | _ => (Ok (pending_response hash), w1)
  end.
Proof.
  unfold lockAndPredict, replicate_createPrediction, lock_cmd, blank,
    text_for_provider, correlation_cmd, pending_response, processing_response,
    validation_error.
  unfold bind, try_catch, ret, throw.
  cbv zeta. rewrite setnx_eq. unfold is_OK.
  destruct (outcome _ w) as [[]|]; cbv beta iota; cbn [negb]; try reflexivity.
  destruct (negb _ || _); cbv beta iota.
  - rewrite del_eq. reflexivity.
  - destruct (cp _ _); cbv beta iota.
    + rewrite set_eq by discriminate. reflexivity.
    + rewrite del_eq. reflexivity.
Qed.


Lemma bind_lift_Ok {A B} (a : A) (k : A -> M B) : bind (lift (Ok a)) k = k a.
Proof. reflexivity. Qed.

Ltac neq_response :=
  first [ apply status_neq; discriminate
        | let H := fresh in
          intros H; apply (f_equal body) in H; vm_compute in H; discriminate ].

Lemma generate_stages ec cp body w :
  let run := handleGenerateSummary ec cp {| json := Ok body |} w in
  let nu := normalizeUrl (Js.str_or (Req.url body) EmptyString) in
  (exists evs, log (snd run) = log w ++ evs /\ Forall cache_traffic evs
               /\ exists resp, fst run = Ok resp /\ resp <> validation_error)
  \/ (exists w1 evs, log w1 = log w ++ evs /\ Forall cache_traffic evs
        /\ Js.opt_truthy (Req.url body) = true
        /\ run = catch500 (lockAndPredict cp body nu (fingerprint ec body)
                             (resolveText ec body nu) w1)).
Proof.
  cbv zeta. unfold fingerprint, handleGenerateSummary. cbn [json].
  rewrite bind_lift_Ok. cbv beta zeta.
  set (nu := normalizeUrl _).
  set (text := resolveText _ _ _).
  set (hash := generateContentHash _ _ _).
  generalize (lockAndPredict cp body nu hash text). intros rest.
  unfold complete_response, member, JSON_parse, error_response, validation_error.
  unfold bind, try_catch, ret, throw, lift.
  exec.
  all: try (left; norm_log;
            first [ eexists; split; [reflexivity|]
                  | exists []; split; [symmetry; apply app_nil_r|] ];
            split; [repeat constructor | eexists; split; [reflexivity | neq_response]]).
  all: right; match goal with |- context [?f ?w1] => lazymatch type of f with M Response => exists w1 end end.
  all: eexists; split; [norm_log; reflexivity|].
  all: split; [repeat constructor|].
  all: split; [destruct (Js.opt_truthy (Req.url body)); [reflexivity|discriminate]|].
  all: reflexivity.
Qed.

Lemma cache_traffic_no_predict evs t h r :
  Forall cache_traffic evs -> ~ In (Predict t h r) evs.
Proof.
  intros HF HIn. exact (proj1 (List.Forall_forall _ _) HF _ HIn).
Qed.

Lemma cache_traffic_no_setnx evs k v ex r :
  Forall cache_traffic evs -> ~ In (Sent (SET_NX k v ex) r) evs.
Proof.
  intros HF HIn. exact (proj1 (List.Forall_forall _ _) HF _ HIn).
Qed.

(** C1.  In handleGenerateSummary the inference provider is called only
    after the conditional set [SET lock:<hash> 1 NX EX 60] was answered OK;
    whenever that conditional set is not answered OK (the key exists, or the
    request fails) the handler answers [pending] with the hash and the
    provider is not called. *)
Theorem generate_provider_only_for_lock_holder ec cp body w :
  let run := handleGenerateSummary ec cp {| json := Ok body |} w in
  let hash := fingerprint ec body in
  exists evs, log (snd run) = log w ++ evs /\
    (forall text headline r, In (Predict text headline r) evs ->
        exists pre post, evs = pre ++ Sent (lock_cmd hash) (Some OK) :: post
                         /\ In (Predict text headline r) post) /\
    (forall k v ex r, In (Sent (SET_NX k v ex) r) evs -> r <> Some OK ->
        SET_NX k v ex = lock_cmd hash /\ fst run = Ok (pending_response hash)
        /\ forall text headline r', ~ In (Predict text headline r') evs).
Proof.
  cbv zeta.
  destruct (generate_stages ec cp body w) as
    [(evs & Hlog & Hcache & _) | (w1 & evs & Hlog & Hcache & _ & Hrun)].
  - exists evs. split; [exact Hlog|]. split.
    + intros t h r HIn. destruct (cache_traffic_no_predict _ _ _ _ Hcache HIn).
    + intros k v ex r HIn. destruct (cache_traffic_no_setnx _ _ _ _ _ Hcache HIn).
  - rewrite Hrun, lockAndPredict_eq. cbv zeta.
    set (hash := fingerprint ec body).
    set (text := text_for_provider _ _).
    set (headline := Js.str_or _ _).
    assert (Hsplit : forall more P,
      (forall t h r, In (Predict t h r) more ->
         exists pre post, evs ++ more = pre ++ Sent (lock_cmd hash) (Some OK) :: post
                          /\ In (Predict t h r) post) ->
      (forall k v ex r, In (Sent (SET_NX k v ex) r) more -> r <> Some OK -> P k v ex) ->
      (forall t h r, In (Predict t h r) (evs ++ more) ->
         exists pre post, evs ++ more = pre ++ Sent (lock_cmd hash) (Some OK) :: post
                          /\ In (Predict t h r) post)
      /\ (forall k v ex r, In (Sent (SET_NX k v ex) r) (evs ++ more) -> r <> Some OK ->
            P k v ex)).
    { intros more P H1 H2. split.
      - intros t h r HIn. apply in_app_or in HIn. destruct HIn as [HIn|HIn].
        + destruct (cache_traffic_no_predict _ _ _ _ Hcache HIn).
        + apply H1; exact HIn.
      - intros k v ex r HIn Hr. apply in_app_or in HIn. destruct HIn as [HIn|HIn].
        + destruct (cache_traffic_no_setnx _ _ _ _ _ Hcache HIn).
        + eapply H2; eauto. }
    assert (Hnone : forall more,
      (forall t h r, ~ In (Predict t h r) more) ->
      forall t h r, ~ In (Predict t h r) (evs ++ more)).
    { intros more H t h r HIn. apply in_app_or in HIn. destruct HIn as [HIn|HIn].
      - exact (cache_traffic_no_predict _ _ _ _ Hcache HIn).
      - exact (H _ _ _ HIn). }
    assert (Hpending : forall o, o <> Some OK ->
      exists evs0,
        log w1 ++ [Sent (lock_cmd hash) o] = log w ++ evs0 /\
        (forall t h r, In (Predict t h r) evs0 ->
           exists pre post, evs0 = pre ++ Sent (lock_cmd hash) (Some OK) :: post
                            /\ In (Predict t h r) post) /\
        (forall k v ex r, In (Sent (SET_NX k v ex) r) evs0 -> r <> Some OK ->
           SET_NX k v ex = lock_cmd hash /\
           Ok (pending_response hash) = Ok (pending_response hash) /\
           forall t h r', ~ In (Predict t h r') evs0)).
    { intros o Ho. rewrite Hlog, <- app_assoc. eexists. split; [reflexivity|].
      apply Hsplit.
      - intros t h r [HIn|[]]. discriminate.
      - intros k v ex r [HIn|[]] Hr. inversion HIn; subst.
        split; [reflexivity|]. split; [reflexivity|].
        apply Hnone. intros t h r' [HIn'|[]]. discriminate. }
    destruct (outcome (lock_cmd hash) w1) as [[]|] eqn:Hout;
      try (unfold catch500; norm_log; rewrite Hout; apply Hpending; discriminate).
    destruct (blank text); [|destruct (cp text headline) as [id|e]];
      unfold catch500; norm_log; rewrite Hout, Hlog, <- app_assoc;
      (eexists; split; [reflexivity|]); apply Hsplit; cbn [In].
    + intros t h r HIn. intuition discriminate.
    + intros k v ex r [HIn|[HIn|[]]] Hr; inversion HIn; subst; congruence.
    + intros t h r [HIn|[HIn|[HIn|[]]]]; try discriminate.
      exists evs; eexists; (split; [reflexivity|]); cbn [In]; tauto.
    + intros k v ex r [HIn|[HIn|[HIn|[]]]] Hr; inversion HIn; subst; congruence.
    + intros t h r [HIn|[HIn|[HIn|[]]]]; try discriminate.
      exists evs; eexists; (split; [reflexivity|]); cbn [In]; tauto.
    + intros k v ex r [HIn|[HIn|[HIn|[]]]] Hr; inversion HIn; subst; congruence.
Qed.

(* ===================================================================== *)
(** ** The webhook                                                         *)
(* ===================================================================== *)

Lemma handleWebhook_eq payload w :
  handleWebhook {| json := Ok payload |} w =
  let pk := prediction_key payload in
  let w1 := after (GET pk) w in
  match visible pk w with
  | None => (Ok unknown_ack, w1)
  | Some str =>
      match correlation_of str with
      | Throw e => (Ok (error_response e), w1)
      | Ok (hash, headline0, nu) =>
          if status_eqb (Payload.status payload) succeeded
             && output_truthy (Payload.output payload)
          then
            match Payload.output payload with
            | Some o => (Ok stored_ack, after_stored pk hash headline0 nu o w1)
            | None => (Ok stored_ack, w1)
            end
          else if status_eqb (Payload.status payload) failed
          then (Ok (failed_ack (Payload.error payload)),
                after (DEL pk) (after (DEL ("lock:" +:+ Js.toStr hash)) w1))
          else (Ok received_ack, w1)
      end
  end.
Proof.
  unfold handleWebhook, prediction_key, correlation_of, after_stored, article_entry.
  cbn [json]. rewrite bind_lift_Ok. cbv beta zeta.
  unfold JSON_parse, member, unknown_ack, stored_ack, failed_ack, received_ack.
  unfold bind, try_catch, ret, throw.
  rewrite get_eq. cbv beta iota.
  destruct (visible _ w) as [str|]; [|reflexivity].
  destruct (Json.parse str) as [v|]; [|reflexivity]. cbv beta iota.
  destruct (Js.prop v "hash") as [hash|]; [|reflexivity]. cbv beta iota.
  destruct (Js.prop v "headline") as [hl|]; [|reflexivity]. cbv beta iota.
  destruct (Js.prop v "normalizedUrl") as [nu|]; [|reflexivity]. cbv beta iota.
  destruct (status_eqb (Payload.status payload) succeeded && _) eqn:Hs.
  - destruct (Payload.output payload) as [o|].
    + rewrite set_eq by discriminate. cbv beta iota.
      destruct (Js.truthy nu).
      * rewrite set_eq by discriminate. cbv beta iota.
        rewrite del_eq. cbv beta iota. rewrite del_eq. reflexivity.
      * cbv beta iota. rewrite del_eq. cbv beta iota. rewrite del_eq. reflexivity.
    + rewrite andb_comm in Hs. discriminate.
  - destruct (status_eqb (Payload.status payload) failed).
    + rewrite del_eq. cbv beta iota. rewrite del_eq. reflexivity.
    + reflexivity.
Qed.

Lemma visible_eq k w :
  visible k w = if delivered w then stored k (db w) else None.
Proof.
  unfold visible, outcome, stored. destruct (delivered w); [|reflexivity].
  cbn [redis fst]. destruct (db w !! k) as [e|]; reflexivity.
Qed.

Lemma visible_reliable k w : reliable w -> visible k w = stored k (db w).
Proof. intros H. rewrite visible_eq, reliable_delivered; auto. Qed.

Lemma stored_absent k (d : gmap string Entry) : d !! k = None -> stored k d = None.
Proof. unfold stored. intros ->. reflexivity. Qed.

Lemma commands_app a b : commands (a ++ b) = commands a ++ commands b.
Proof. unfold commands. apply flat_map_app. Qed.

Lemma clock_after c w : clock (after c w) = clock w.
Proof. reflexivity. Qed.

Lemma lookup_delete_twice (d : gmap string Entry) k1 k2 :
  delete k1 (delete k2 d) !! k2 = None.
Proof.
  destruct (decide (k1 = k2)) as [->|Hne].
  - apply lookup_delete_eq.
  - rewrite lookup_delete_ne by exact Hne. apply lookup_delete_eq.
Qed.

Lemma db_after_stored pk hash headline0 nu o w1 :
  reliable w1 ->
  db (after_stored pk hash headline0 nu o w1) =
  delete ("lock:" +:+ Js.toStr hash)
    (delete pk
       (let d1 := <[ "article:" +:+ Js.toStr hash :=
                      {| value_of := article_entry headline0 o (clock w1);
                         ttl_of := Some 604800 |} ]> (db w1) in
        if Js.truthy nu
        then <[ "url:" +:+ Js.toStr nu :=
                 {| value_of := Js.toStr hash; ttl_of := Some 604800 |} ]> d1
        else d1)).
Proof.
  intros Hrel. unfold after_stored. cbv zeta.
  destruct (Js.truthy nu);
    repeat (rewrite reliable_db_after by (repeat apply reliable_after; exact Hrel);
            cbn [redis snd]);
    reflexivity.
Qed.


(** C7, as stated, fails: the handler does not look at what [del] returns,
    and [del] swallows a failed request.  When the request that deletes the
    lock is lost, the [failed] callback of a known prediction is
    acknowledged with 200 all the same, the lock is still in the store
    after the handler has returned, and a generate request for the same
    article is told to wait. *)
Lemma webhook_failed_lock_survives :
  visible (prediction_key failed_payload) lossy_world = Some demo_correlation
  /\ Payload.status failed_payload = failed
  /\ fst (handleWebhook {| json := Ok failed_payload |} lossy_world)
     = Ok (failed_ack (VStr "out of memory"))
  /\ commands (log stuck_world)
     = [GET "prediction:job1"; DEL ("lock:" +:+ demo_hash); DEL "prediction:job1"]
  /\ db stuck_world !! ("lock:" +:+ demo_hash) = Some lock_entry
  /\ reliable stuck_world
  /\ fst (redis_client.setnx ("lock:" +:+ demo_hash) "1" 60 stuck_world) = Ok false
  /\ fingerprint demo_extract demo_body = demo_hash
  /\ fst (handleGenerateSummary demo_extract demo_provider
            {| json := Ok demo_body |} stuck_world)
     = Ok (pending_response demo_hash).
Proof.
  repeat split; vm_compute; reflexivity.
Qed.

(** C7, amended.  On a [failed] callback for a known prediction the handler
    sends [DEL lock:<hash>] and [DEL prediction:<id>] and answers 200 with
    the error member of the callback, whatever becomes of the two requests;
    on a transport that delivers every request, the lock key and the
    correlation key are absent once the handler has returned, and the next
    conditional set on the lock is answered OK. *)
Theorem webhook_failed_releases_lock payload w str hash headline0 nu :
  visible (prediction_key payload) w = Some str ->
  correlation_of str = Ok (hash, headline0, nu) ->
  Payload.status payload = failed ->
  let run := handleWebhook {| json := Ok payload |} w in
  let pk := prediction_key payload in
  let lockKey := "lock:" +:+ Js.toStr hash in
  fst run = Ok (failed_ack (Payload.error payload))
  /\ status (failed_ack (Payload.error payload)) = 200
  /\ (exists evs, log (snd run) = log w ++ evs /\
        commands evs = [GET pk; DEL lockKey; DEL pk])
  /\ (reliable w ->
        db (snd run) !! lockKey = None
        /\ db (snd run) !! pk = None
        /\ fst (redis_client.setnx lockKey "1" 60 (snd run)) = Ok true).
Proof.
  intros Hvis Hcor Hst. cbv zeta.
  rewrite handleWebhook_eq. cbv zeta.
  rewrite Hvis, Hcor, Hst. cbn [status_eqb andb fst snd].
  split; [reflexivity|]. split; [reflexivity|]. split.
  - norm_log. eexists. split; reflexivity.
  - intros Hrel.
    assert (Hdb : db (after (DEL (prediction_key payload))
                        (after (DEL ("lock:" +:+ Js.toStr hash))
                           (after (GET (prediction_key payload)) w)))
                  = delete (prediction_key payload)
                      (delete ("lock:" +:+ Js.toStr hash) (db w))).
    { repeat (rewrite reliable_db_after by (repeat apply reliable_after; exact Hrel);
              cbn [redis snd]).
      reflexivity. }
    assert (Hlock : db (after (DEL (prediction_key payload))
                        (after (DEL ("lock:" +:+ Js.toStr hash))
                           (after (GET (prediction_key payload)) w)))
                    !! ("lock:" +:+ Js.toStr hash) = None).
    { rewrite Hdb. apply lookup_delete_twice. }
    split; [exact Hlock|]. split.
    + rewrite Hdb. apply lookup_delete_eq.
    + rewrite setnx_eq. cbn [fst]. f_equal.
      rewrite reliable_outcome by (repeat apply reliable_after; exact Hrel).
      cbn [redis]. rewrite Hlock. reflexivity.
Qed.

(** C6.  A callback whose correlation entry is not found is acknowledged
    with a warning, after a single read and without any change of the store;
    and a second delivery of a callback that consumed its correlation entry
    takes that branch: no error, and every cache entry stays as the first
    delivery left it. *)
Theorem webhook_unknown_job_is_noop payload w :
  let req := {| json := Ok payload |} in
  let pk := prediction_key payload in
  (visible pk w = None ->
     fst (handleWebhook req w) = Ok unknown_ack
     /\ db (snd (handleWebhook req w)) = db w
     /\ exists r, log (snd (handleWebhook req w)) = log w ++ [Sent (GET pk) r])
  /\ (reliable w ->
      forall str c,
        visible pk w = Some str ->
        correlation_of str = Ok c ->
        Payload.status payload = failed
        \/ (Payload.status payload = succeeded
            /\ output_truthy (Payload.output payload) = true) ->
        let w1 := snd (handleWebhook req w) in
        fst (handleWebhook req w1) = Ok unknown_ack
        /\ db (snd (handleWebhook req w1)) = db w1
        /\ forall k, db (snd (handleWebhook req w1)) !! ("article:" +:+ k)
                     = db w1 !! ("article:" +:+ k)).
Proof.
  cbv zeta.
  assert (Habsent : forall w0, visible (prediction_key payload) w0 = None ->
     fst (handleWebhook {| json := Ok payload |} w0) = Ok unknown_ack
     /\ db (snd (handleWebhook {| json := Ok payload |} w0)) = db w0
     /\ exists r, log (snd (handleWebhook {| json := Ok payload |} w0))
                  = log w0 ++ [Sent (GET (prediction_key payload)) r]).
  { intros w0 Hvis. rewrite handleWebhook_eq. cbv zeta. rewrite Hvis.
    cbn [fst snd]. split; [reflexivity|]. split; [apply db_after_GET|].
    eexists. reflexivity. }
  split; [apply Habsent|].
  intros Hrel str [[hash headline0] nu] Hvis Hcor Hcase.
  set (w1 := snd (handleWebhook {| json := Ok payload |} w)).
  assert (Hgone : visible (prediction_key payload) w1 = None).
  { subst w1. rewrite handleWebhook_eq. cbv zeta. rewrite Hvis, Hcor.
    destruct Hcase as [Hst | [Hst Hout]]; rewrite Hst; cbn [status_eqb andb].
    - cbn [snd]. rewrite visible_reliable by (repeat apply reliable_after; exact Hrel).
      apply stored_absent.
      repeat (rewrite reliable_db_after by (repeat apply reliable_after; exact Hrel);
              cbn [redis snd]).
      apply lookup_delete_eq.
    - rewrite Hout. destruct (Payload.output payload) as [o|]; [|discriminate].
      cbn [snd].
      assert (Hrel1 : reliable (after (GET (prediction_key payload)) w))
        by (apply reliable_after; exact Hrel).
      rewrite visible_reliable.
      + apply stored_absent. rewrite db_after_stored by exact Hrel1.
        apply lookup_delete_twice.
      + unfold after_stored. cbv zeta. destruct (Js.truthy nu);
          repeat (first [exact Hrel1 | apply reliable_after]). }
  destruct (Habsent w1 Hgone) as (H1 & H2 & _).
  split; [exact H1|]. split; [exact H2|]. intros k. rewrite H2. reflexivity.
Qed.

(** C10, amended.  A [succeeded] callback whose output is absent or the
    empty string sends one read and nothing else: the store is unchanged
    (no cache entry written, correlation entry and lock kept) and the answer
    is not the stored acknowledgement. *)
Theorem webhook_succeeded_without_output_is_noop payload w :
  Payload.status payload = succeeded ->
  no_output (Payload.output payload) ->
  let run := handleWebhook {| json := Ok payload |} w in
  db (snd run) = db w
  /\ (exists r, log (snd run) = log w ++ [Sent (GET (prediction_key payload)) r])
  /\ fst run <> Ok stored_ack.
Proof.
  intros Hst Hno. cbv zeta. rewrite handleWebhook_eq. cbv zeta.
  assert (Hfalsy : output_truthy (Payload.output payload) = false).
  { destruct Hno as [-> | ->]; reflexivity. }
  rewrite Hst, Hfalsy. cbn [status_eqb andb].
  destruct (visible _ w) as [str|]; [destruct (correlation_of str) as [[[h hl] nu]|e]|];
    cbn [fst snd]; (split; [apply db_after_GET|]); (split; [eexists; reflexivity|]).
  all: intros H;
    first [ apply (f_equal (fun r => match r with Ok a => status a | Throw _ => 0 end)) in H;
            cbn in H; discriminate
          | apply (f_equal (fun r => match r with Ok a => body a | Throw _ => EmptyString end)) in H;
            vm_compute in H; discriminate ].
Qed.

(* ===================================================================== *)
(** ** The run of generate-summary, stage by stage                        *)
(* ===================================================================== *)

Lemma complete_response_eq v hash w :
  complete_response v hash w
  = (match Js.prop v "summary", Js.prop v "headline", Js.prop v "generatedAt" with
     | Some s, Some h, Some g =>
         Ok (json_response 200
               (VObj [ ("status", VStr "complete"); ("cached", VBool true);
                       ("summary", s); ("headline", h); ("generatedAt", g);
                       ("hash", VStr hash) ]))
     | _, _, _ => Throw "Cannot read properties of null"
     end, w).
Proof.
  unfold complete_response, member, bind, ret, throw.
  destruct (Js.prop v "summary"); [|reflexivity].
  destruct (Js.prop v "headline"); [|reflexivity].
  destruct (Js.prop v "generatedAt"); reflexivity.
Qed.

Lemma handleGenerateSummary_eq ec cp body w :
  Js.opt_truthy (Req.url body) = true ->
  handleGenerateSummary ec cp {| json := Ok body |} w = generate_run ec cp body w.
Proof.
  intros Hurl. unfold handleGenerateSummary, generate_run, generate_by_hash,
    url_key, fingerprint, complete_of, answer, catch500.
  cbn [json]. rewrite bind_lift_Ok, Hurl. cbn [negb]. cbv beta zeta.
  set (nu := normalizeUrl _).
  set (text := resolveText _ _ _).
  set (hash := generateContentHash _ _ _).
  generalize (lockAndPredict cp body nu hash text). intros rest.
  unfold JSON_parse, error_response.
  unfold bind, try_catch, ret, throw.
  rewrite get_eq. cbv beta iota.
  destruct (visible ("url:" +:+ nu) w) as [eh|].
  - rewrite get_eq. cbv beta iota.
    destruct (visible ("article:" +:+ eh) _) as [cached|].
    + destruct (Json.parse cached) as [v|]; [|reflexivity]. cbv beta iota.
      rewrite complete_response_eq.
      destruct (Js.prop v "summary"); [|reflexivity].
      destruct (Js.prop v "headline"); [|reflexivity].
      destruct (Js.prop v "generatedAt"); reflexivity.
    + cbv beta iota. rewrite get_eq. cbv beta iota.
      destruct (visible ("article:" +:+ hash) _) as [cached|].
      * destruct (Json.parse cached) as [v|]; [|reflexivity]. cbv beta iota.
        rewrite set_eq by discriminate. cbv beta iota.
        rewrite complete_response_eq.
        destruct (Js.prop v "summary"); [|reflexivity].
        destruct (Js.prop v "headline"); [|reflexivity].
        destruct (Js.prop v "generatedAt"); reflexivity.
      * destruct (rest _) as [[a|e] w']; reflexivity.
  - cbv beta iota. rewrite get_eq. cbv beta iota.
    destruct (visible ("article:" +:+ hash) _) as [cached|].
    + destruct (Json.parse cached) as [v|]; [|reflexivity]. cbv beta iota.
      rewrite set_eq by discriminate. cbv beta iota.
      rewrite complete_response_eq.
      destruct (Js.prop v "summary"); [|reflexivity].
      destruct (Js.prop v "headline"); [|reflexivity].
      destruct (Js.prop v "generatedAt"); reflexivity.
    + destruct (rest _) as [[a|e] w']; reflexivity.
Qed.

Lemma generate_after_misses ec cp body w w3 :
  Js.opt_truthy (Req.url body) = true ->
  lookups_miss ec body w = Some w3 ->
  handleGenerateSummary ec cp {| json := Ok body |} w
  = let nu := normalizeUrl (Js.str_or (Req.url body) EmptyString) in
    catch500 (lockAndPredict cp body nu (fingerprint ec body)
                (resolveText ec body nu) w3).
Proof.
  intros Hurl Hmiss. rewrite handleGenerateSummary_eq by exact Hurl.
  unfold generate_run, generate_by_hash. unfold lookups_miss in Hmiss.
  cbv zeta in Hmiss |- *.
  destruct (visible (url_key body) w) as [eh|].
  - destruct (visible ("article:" +:+ eh) _) as [cached|]; [discriminate|].
    destruct (visible ("article:" +:+ fingerprint ec body) _) as [cached|];
      [discriminate|].
    injection Hmiss as <-. reflexivity.
  - destruct (visible ("article:" +:+ fingerprint ec body) _) as [cached|];
      [discriminate|].
    injection Hmiss as <-. reflexivity.
Qed.

Lemma blank_no_predict ec cp body w :
  blank (text_for_provider body
           (resolveText ec body (normalizeUrl (Js.str_or (Req.url body) EmptyString))))
  = true ->
  let run := handleGenerateSummary ec cp {| json := Ok body |} w in
  exists evs, log (snd run) = log w ++ evs /\ never_predicts evs.
Proof.
  intros Hblank. cbv zeta.
  destruct (generate_stages ec cp body w) as
    [(evs & Hlog & Hcache & _) | (w1 & evs & Hlog & Hcache & _ & Hrun)].
  - exists evs. split; [exact Hlog|].
    intros t h r HIn. exact (cache_traffic_no_predict _ _ _ _ Hcache HIn).
  - rewrite Hrun, lockAndPredict_eq. cbv zeta. rewrite Hblank.
    assert (Hnp : forall more, never_predicts more -> never_predicts (evs ++ more)).
    { intros more H t h r HIn. apply in_app_or in HIn. destruct HIn as [HIn|HIn].
      - exact (cache_traffic_no_predict _ _ _ _ Hcache HIn).
      - exact (H _ _ _ HIn). }
    destruct (outcome (lock_cmd (fingerprint ec body)) w1) as [[]|];
      unfold catch500; norm_log; rewrite Hlog, <- app_assoc;
      (eexists; split; [reflexivity|]); apply Hnp;
      intros t h r HIn; cbn [In] in HIn; intuition discriminate.
Qed.

(* ===================================================================== *)
(** ** generate-summary without text                                      *)
(* ===================================================================== *)

Lemma Ok_inj {A} (a b : A) : Ok a = Ok b -> a = b.
Proof. intros H. injection H as H. exact H. Qed.

(** C2, as stated, fails: for a request with a URL and no text at all, on an
    empty store, the run takes the lock before it refuses the request; and
    while another request holds the lock the answer is [pending], not a
    validation error. *)
Lemma generate_textless_takes_lock :
  text_for_provider textless_body
    (resolveText demo_extract textless_body
       (normalizeUrl (Js.str_or (Req.url textless_body) EmptyString))) = EmptyString
  /\ ~ refused_before_lock demo_extract demo_provider textless_body fresh_world
  /\ ~ refused_before_lock demo_extract demo_provider textless_body locked_world.
Proof.
  split; [vm_compute; reflexivity|]. split.
  - intros [_ H].
    assert (Hlog : log (snd (handleGenerateSummary demo_extract demo_provider
                               {| json := Ok textless_body |} fresh_world))
                   = log fresh_world
                     ++ log (snd (handleGenerateSummary demo_extract demo_provider
                                    {| json := Ok textless_body |} fresh_world)))
      by (vm_compute; reflexivity).
    destruct (H _ Hlog) as [Hlock _].
    apply (Hlock ("lock:" +:+ textless_hash) "1" 60 (Some OK)).
    vm_compute. do 2 right. left. reflexivity.
  - intros [_ H].
    assert (Hlog : log (snd (handleGenerateSummary demo_extract demo_provider
                               {| json := Ok textless_body |} locked_world))
                   = log locked_world
                     ++ log (snd (handleGenerateSummary demo_extract demo_provider
                                    {| json := Ok textless_body |} locked_world)))
      by (vm_compute; reflexivity).
    destruct (H _ Hlog) as [Hlock _].
    apply (Hlock ("lock:" +:+ textless_hash) "1" 60 (Some Nil)).
    vm_compute. do 2 right. left. reflexivity.
Qed.

(** C2, amended.  For a request whose text resolves to the empty string
    the provider is never called.  The text is checked behind the lock:
    when the request carries a URL and the cache lookups return nothing,
    the handler sends the conditional set on [lock:<hash>]; if that is
    answered OK, the handler deletes the lock again and answers the
    validation error; if it is not, the handler answers [pending]. *)
Theorem generate_blank_text_never_reaches_provider ec cp body w :
  text_for_provider body
    (resolveText ec body (normalizeUrl (Js.str_or (Req.url body) EmptyString)))
  = EmptyString ->
  let run := handleGenerateSummary ec cp {| json := Ok body |} w in
  let hash := fingerprint ec body in
  let lockKey := "lock:" +:+ hash in
  (exists evs, log (snd run) = log w ++ evs /\ never_predicts evs)
  /\ (Js.opt_truthy (Req.url body) = true ->
      forall w3, lookups_miss ec body w = Some w3 ->
        run = if is_OK (outcome (lock_cmd hash) w3)
              then (Ok validation_error,
                    after (DEL lockKey) (after (lock_cmd hash) w3))
              else (Ok (pending_response hash), after (lock_cmd hash) w3)).
Proof.
  intros Htext. cbv zeta. split.
  - apply blank_no_predict. rewrite Htext. reflexivity.
  - intros Hurl w3 Hmiss.
    rewrite (generate_after_misses ec cp body w w3 Hurl Hmiss). cbv zeta.
    rewrite lockAndPredict_eq. cbv zeta. rewrite Htext.
    change (blank EmptyString) with true. cbv beta iota.
    destruct (outcome (lock_cmd (fingerprint ec body)) w3) as [[]|]; reflexivity.
Qed.

(* ===================================================================== *)
(** ** The store client under transport failure                          *)
(* ===================================================================== *)

(** C5, as stated, fails: on a transport whose next request fails, [set],
    [setnx] and [del] each return normally. *)
Lemma store_write_failure_is_swallowed :
  delivered failing_world = false
  /\ ~ surfaces_error (redis_client.set "k" "v" (Some 60)) failing_world
  /\ ~ surfaces_error (redis_client.setnx "k" "v" 60) failing_world
  /\ ~ surfaces_error (redis_client.del "k") failing_world.
Proof.
  split; [reflexivity|].
  repeat split; intros [message H]; vm_compute in H; discriminate.
Qed.

(** C5, amended.  A transport failure during [set], [setnx] or [del] is
    not surfaced to the caller as an error: whether or not the store has
    run the command, the error of the request is caught inside the client
    and the call returns [false]. *)
Theorem store_write_failure_returns_false key val ttlSeconds ttl w :
  delivered w = false ->
  fst (redis_client.set key val ttlSeconds w) = Ok false
  /\ fst (redis_client.setnx key val ttl w) = Ok false
  /\ fst (redis_client.del key w) = Ok false.
Proof.
  intros Hfail.
  assert (Hexec : forall c, executeCommand c w
                            = (Throw "Redis request failed", after c w)).
  { intros c. rewrite executeCommand_eq. unfold outcome. rewrite Hfail. reflexivity. }
  unfold redis_client.set, redis_client.setnx, redis_client.del,
    try_catch, bind, ret.
  repeat split; cbv zeta; rewrite ?Hexec; reflexivity.
Qed.

(* ===================================================================== *)
(** ** fetch-summary                                                      *)
(* ===================================================================== *)

Lemma seen_0 k w : visible k w = seen 0 k w.
Proof.
  rewrite visible_eq. unfold seen, delivered, fate. destruct (net w); reflexivity.
Qed.

Lemma seen_1 k c w : visible k (after (GET c) w) = seen 1 k w.
Proof.
  rewrite visible_eq, db_after_GET. unfold seen, delivered, fate, after. cbn [net].
  destruct (net w) as [|a [|b l]]; reflexivity.
Qed.

Lemma seen_2 k c1 c2 w :
  visible k (after (GET c2) (after (GET c1) w)) = seen 2 k w.
Proof.
  rewrite visible_eq, !db_after_GET. unfold seen, delivered, fate, after. cbn [net].
  destruct (net w) as [|a [|b [|c l]]]; reflexivity.
Qed.

(** C8.  A fetch query that supplies a hash or a URL is answered in this
    order.  The fingerprint is the supplied hash, else what the read of
    [url:<normalized URL>] returns.  Without a fingerprint the answer is
    [unknown]; else, if the read of [article:<hash>] returns an entry, the
    answer is [complete] with the summary, headline and timestamp of that
    entry; else, if the read of [lock:<hash>] returns a value, the answer is
    [pending]; else it is [unknown].  The store is not changed. *)
Theorem fetch_case_order req w :
  Js.opt_truthy (Fetch.urlParam req) || Js.opt_truthy (Fetch.hashParam req) = true ->
  let run := handleFetchSummary req w in
  let direct := Js.opt_truthy (Fetch.hashParam req) in
  let n := if direct then 0%nat else 1%nat in
  let resolved :=
    if direct then Fetch.hashParam req
    else seen 0 ("url:" +:+ normalizeUrl (Js.str_or (Fetch.urlParam req) EmptyString)) w in
  db (snd run) = db w
  /\ match resolved with
     | None => fst run = Ok (json_response 200 (VObj [("status", VStr "unknown")]))
     | Some hash =>
         match seen n ("article:" +:+ hash) w with
         | Some cached =>
             forall summary s h g,
               Json.parse cached = Some summary ->
               Js.prop summary "summary" = Some s ->
               Js.prop summary "headline" = Some h ->
               Js.prop summary "generatedAt" = Some g ->
               fst run =
               Ok (json_response 200
                     (VObj [ ("status", VStr "complete"); ("cached", VBool true);
                             ("summary", s); ("headline", h); ("generatedAt", g);
                             ("hash", VStr hash) ]))
         | None =>
             match seen (S n) ("lock:" +:+ hash) w with
             | Some _ => fst run = Ok (pending_response hash)
             | None =>
                 fst run =
                 Ok (json_response 200
                       (VObj [("status", VStr "unknown"); ("hash", VStr hash)]))
             end
         end
     end.
Proof.
  intros Hparam. cbv zeta.
  unfold handleFetchSummary, complete_response, member, JSON_parse, pending_response.
  unfold bind, try_catch, ret, throw. cbv zeta.
  destruct (Js.opt_truthy (Fetch.hashParam req)) eqn:Hhash.
  - cbn [negb]. rewrite andb_false_r. cbv beta iota.
    destruct (Fetch.hashParam req) as [hash|]; [|discriminate].
    cbn [Js.opt_truthy] in Hhash. rewrite Hhash. cbn [negb]. cbv beta iota.
    rewrite get_eq. cbv beta iota. rewrite seen_0.
    destruct (seen 0 ("article:" +:+ hash) w) as [cached|].
    + split.
      * destruct (Json.parse cached) as [v|]; cbv beta iota;
          [ destruct (Js.prop v "summary"); cbv beta iota;
            [ destruct (Js.prop v "headline"); cbv beta iota;
              [ destruct (Js.prop v "generatedAt"); cbv beta iota |] |] |];
          apply db_after_GET.
      * intros v s h g Hp Hs Hh Hg. rewrite Hp. cbv beta iota.
        rewrite Hs. cbv beta iota. rewrite Hh. cbv beta iota. rewrite Hg. reflexivity.
    + rewrite get_eq. cbv beta iota. rewrite seen_1.
      destruct (seen 1 ("lock:" +:+ hash) w); cbn [fst snd];
        rewrite !db_after_GET; split; reflexivity.
  - rewrite orb_false_r in Hparam. rewrite Hparam. cbn [negb andb]. cbv beta iota.
    rewrite get_eq. cbv beta iota. rewrite seen_0.
    destruct (seen 0 _ w) as [hash|] eqn:Hseen.
    2:{ cbn [fst snd]. rewrite db_after_GET. split; reflexivity. }
    assert (Htruthy : JsString.truthy hash = true).
    { unfold seen, stored in Hseen. destruct (answered (nth 0 (net w) Through)); [|discriminate].
      destruct (db w !! _) as [e|]; [|discriminate].
      destruct (JsString.truthy (value_of e)) eqn:He; [|discriminate].
      injection Hseen as <-. exact He. }
    rewrite Htruthy. cbn [negb]. cbv beta iota.
    rewrite get_eq. cbv beta iota. rewrite seen_1.
    destruct (seen 1 ("article:" +:+ hash) w) as [cached|].
    + split.
      * destruct (Json.parse cached) as [v|]; cbv beta iota;
          [ destruct (Js.prop v "summary"); cbv beta iota;
            [ destruct (Js.prop v "headline"); cbv beta iota;
              [ destruct (Js.prop v "generatedAt"); cbv beta iota |] |] |];
          cbn [fst snd]; rewrite !db_after_GET; reflexivity.
      * intros v s h g Hp Hs Hh Hg. rewrite Hp. cbv beta iota.
        rewrite Hs. cbv beta iota. rewrite Hh. cbv beta iota. rewrite Hg. reflexivity.
    + rewrite get_eq. cbv beta iota. rewrite seen_2.
      destruct (seen 2 ("lock:" +:+ hash) w); cbn [fst snd];
        rewrite !db_after_GET; split; reflexivity.
Qed.
(* ===================================================================== *)
(** ** Content hash and URL normalisation on concrete inputs             *)
(* ===================================================================== *)

(** The digest on the test vectors of FIPS 180-4: one block, the empty
    message, two blocks. *)
Example sha256_test_vectors :
  hex_of_bytes (Sha256.digest (TextEncoder_encode "abc"))
  = "ba7816bf8f01cfea414140de5dae2223b00361a396177a9cb410ff61f20015ad"
  /\ hex_of_bytes (Sha256.digest (TextEncoder_encode EmptyString))
     = "e3b0c44298fc1c149afbf4c8996fb92427ae41e4649b934ca495991b7852b855"
  /\ hex_of_bytes
       (Sha256.digest
          (TextEncoder_encode
             "abcdbcdecdefdefgefghfghighijhijkijkljklmklmnlmnomnopnopq"))
     = "248d6a61d20638b8e5c026930c3e6039a33ce45964ff2167f6ecedd419db06c1"
  /\ length Sha256.K = 64%nat
  /\ nth 0 Sha256.K 0 = 0x428a2f98
  /\ nth 63 Sha256.K 0 = 0xc67178f2
  /\ nth 0 Sha256.H0 0 = 0x6a09e667.
Proof. repeat split; vm_compute; reflexivity. Qed.

(** The sample in-flight store is the one generate-summary leaves. *)
Lemma in_flight_world_reached :
  let run := handleGenerateSummary demo_extract demo_provider
               {| json := Ok demo_body |} fresh_world in
  fst run = Ok (processing_response demo_hash "job1")
  /\ db (snd run) = db in_flight_world.
Proof. cbv zeta. split; vm_compute; reflexivity. Qed.

(** C4.  The content hash covers the normalized URL: two distinct
    normalized URLs with the same headline and the same text give two
    distinct hashes, in [generateContentHash] and in the hash
    generate-summary computes for the two requests. *)
Theorem content_hash_depends_on_url :
  normalizeUrl "https://a.example.com/story" = "https://a.example.com/story"
  /\ normalizeUrl "https://b.example.com/story" = "https://b.example.com/story"
  /\ generateContentHash "https://a.example.com/story" "Title" "Same text"
     = "6acf83bd03e51fdb128a2db4e8c4d1c27bf500866cd5d78b5a68edfdf3bce8c3"
  /\ generateContentHash "https://b.example.com/story" "Title" "Same text"
     = "a4ac8512ec8429309062618cbce9f3db3f57ac353afc2f559e8db7291ee2ab80"
  /\ fingerprint demo_extract mirror_a <> fingerprint demo_extract mirror_b.
Proof.
  repeat split; try (vm_compute; reflexivity).
  intros H. vm_compute in H. discriminate.
Qed.

(** No character of a host name is a slash. *)
Lemma host_char_not_slash c : URL.host_char c = true -> Ascii.eqb "/" c = false.
Proof.
  destruct c as [[] [] [] [] [] [] [] []]; intros H; try reflexivity;
    vm_compute in H; discriminate.
Qed.

(** A pattern that starts with a slash matches nowhere in a host name. *)
Lemma slash_pattern_misses_host p r h :
  URL.all_chars URL.host_char h = true ->
  JsString.replaceFirst (String "/" p) r h = h.
Proof.
  induction h as [|c h IH]; intros Hh; [reflexivity|].
  cbn [URL.all_chars] in Hh. apply andb_true_iff in Hh. destruct Hh as [Hc Hh].
  cbn [JsString.replaceFirst JsString.startsWith].
  rewrite (host_char_not_slash c Hc). rewrite IH by exact Hh. reflexivity.
Qed.

(** C9.  The two path patterns of [mobilePatterns] are applied to the host
    name, where they match nothing: a [/mobile/] or [/m/] path segment
    survives normalisation, while the [m.] host prefix and the [.m.] host
    infix are collapsed. *)
Theorem normalizeUrl_keeps_mobile_path :
  normalizeUrl "https://example.com/mobile/a" = "https://example.com/mobile/a"
  /\ normalizeUrl "https://example.com/m/a" = "https://example.com/m/a"
  /\ normalizeUrl "https://m.example.com/a" = "https://example.com/a"
  /\ normalizeUrl "https://www.m.example.com/a" = "https://www.example.com/a"
  /\ (forall h, URL.all_chars URL.host_char h = true ->
        replace (Anywhere "/mobile/") "/" h = h
        /\ replace (Anywhere "/m/") "/" h = h).
Proof.
  repeat split; try (vm_compute; reflexivity);
    apply slash_pattern_misses_host; assumption.
Qed.

(* ===================================================================== *)
(** ** Callbacks on concrete stores                                      *)
(* ===================================================================== *)

(** C10, as stated, fails: a [succeeded] callback whose output is the empty
    sequence takes the storing branch.  A cache entry with an empty summary
    is written, and the correlation entry and the lock are deleted. *)
Lemma webhook_empty_sequence_is_stored :
  Payload.status empty_sequence_payload = succeeded
  /\ Payload.output empty_sequence_payload = Some (OutputArray [])
  /\ db in_flight_world !! ("article:" +:+ demo_hash) = None
  /\ (value_of <$> db emptied_world !! ("article:" +:+ demo_hash))
     = Some (article_entry (VStr "H") (OutputArray []) (clock in_flight_world))
  /\ is_Some (db in_flight_world !! ("lock:" +:+ demo_hash))
  /\ db emptied_world !! ("lock:" +:+ demo_hash) = None
  /\ is_Some (db in_flight_world !! "prediction:job1")
  /\ db emptied_world !! "prediction:job1" = None
  /\ db emptied_world <> db in_flight_world.
Proof.
  repeat split; try (vm_compute; reflexivity).
  - vm_compute. eexists. reflexivity.
  - vm_compute. eexists. reflexivity.
  - intros H. apply (f_equal (fun d => d !! "prediction:job1")) in H.
    vm_compute in H. discriminate.
Qed.

(* ===================================================================== *)
(** ** The theorems at work                                               *)
(* ===================================================================== *)

(** A request with a URL and no text: on an empty store it takes the lock,
    gives it back and is refused; while another request holds the lock it
    is told to wait. *)
Lemma generate_blank_text_witness :
  text_for_provider textless_body
    (resolveText demo_extract textless_body
       (normalizeUrl (Js.str_or (Req.url textless_body) EmptyString))) = EmptyString
  /\ handleGenerateSummary demo_extract demo_provider
       {| json := Ok textless_body |} fresh_world
     = (Ok validation_error,
        after (DEL ("lock:" +:+ textless_hash))
          (after (lock_cmd textless_hash) (textless_reads fresh_world)))
  /\ handleGenerateSummary demo_extract demo_provider
       {| json := Ok textless_body |} locked_world
     = (Ok (pending_response textless_hash),
        after (lock_cmd textless_hash) (textless_reads locked_world)).
Proof.
  assert (Htext : text_for_provider textless_body
    (resolveText demo_extract textless_body
       (normalizeUrl (Js.str_or (Req.url textless_body) EmptyString))) = EmptyString)
    by (vm_compute; reflexivity).
  assert (Hurl : Js.opt_truthy (Req.url textless_body) = true) by reflexivity.
  assert (Hfresh : lookups_miss demo_extract textless_body fresh_world
                   = Some (textless_reads fresh_world)) by (vm_compute; reflexivity).
  assert (Hlocked : lookups_miss demo_extract textless_body locked_world
                    = Some (textless_reads locked_world)) by (vm_compute; reflexivity).
  assert (Hfree : is_OK (outcome (lock_cmd textless_hash) (textless_reads fresh_world))
                  = true) by (vm_compute; reflexivity).
  assert (Hheld : is_OK (outcome (lock_cmd textless_hash) (textless_reads locked_world))
                  = false) by (vm_compute; reflexivity).
  split; [exact Htext|]. split.
  - destruct (generate_blank_text_never_reaches_provider
                demo_extract demo_provider textless_body fresh_world Htext)
      as [_ Hrun].
    rewrite (Hrun Hurl _ Hfresh). fold textless_hash. rewrite Hfree. reflexivity.
  - destruct (generate_blank_text_never_reaches_provider
                demo_extract demo_provider textless_body locked_world Htext)
      as [_ Hrun].
    rewrite (Hrun Hurl _ Hlocked). fold textless_hash. rewrite Hheld. reflexivity.
Defined.

(** The three writes on a transport whose next request fails. *)
Lemma store_write_failure_witness :
  delivered failing_world = false
  /\ fst (redis_client.set "k" "v2" (Some 60) failing_world) = Ok false
  /\ fst (redis_client.setnx "k" "v2" 60 failing_world) = Ok false
  /\ fst (redis_client.del "k" failing_world) = Ok false.
Proof.
  assert (Hfail : delivered failing_world = false) by reflexivity.
  destruct (store_write_failure_returns_false "k" "v2" (Some 60) 60 failing_world Hfail)
    as (Hset & Hnx & Hdel).
  repeat split; assumption.
Defined.


(** The same callback delivered a second time. *)
Lemma webhook_duplicate_witness :
  reliable in_flight_world
  /\ fst (handleWebhook {| json := Ok succeeded_payload |} completed_world)
     = Ok unknown_ack
  /\ db (snd (handleWebhook {| json := Ok succeeded_payload |} completed_world))
     = db completed_world.
Proof.
  assert (Hv : visible (prediction_key succeeded_payload) in_flight_world
               = Some demo_correlation) by (vm_compute; reflexivity).
  assert (Hc : correlation_of demo_correlation
               = Ok (VStr demo_hash, VStr "H", VStr "https://example.com/a"))
    by (vm_compute; reflexivity).
  destruct (proj2 (webhook_unknown_job_is_noop succeeded_payload in_flight_world)
              eq_refl demo_correlation _ Hv Hc (or_intror (conj eq_refl eq_refl)))
    as (Hack & Hdb & _).
  split; [reflexivity|]. split; [exact Hack | exact Hdb].
Defined.

(** A failed callback for the prediction in flight. *)
Lemma webhook_failed_witness :
  visible (prediction_key failed_payload) in_flight_world = Some demo_correlation
  /\ fst (handleWebhook {| json := Ok failed_payload |} in_flight_world)
     = Ok (failed_ack (VStr "out of memory"))
  /\ db (snd (handleWebhook {| json := Ok failed_payload |} in_flight_world))
       !! ("lock:" +:+ demo_hash) = None
  /\ fst (redis_client.setnx ("lock:" +:+ demo_hash) "1" 60
            (snd (handleWebhook {| json := Ok failed_payload |} in_flight_world)))
     = Ok true.
Proof.
  assert (Hv : visible (prediction_key failed_payload) in_flight_world
               = Some demo_correlation) by (vm_compute; reflexivity).
  assert (Hc : correlation_of demo_correlation
               = Ok (VStr demo_hash, VStr "H", VStr "https://example.com/a"))
    by (vm_compute; reflexivity).
  destruct (webhook_failed_releases_lock failed_payload in_flight_world
              demo_correlation (VStr demo_hash) (VStr "H")
              (VStr "https://example.com/a") Hv Hc eq_refl)
    as (Hack & _ & _ & Hrel).
  destruct (Hrel eq_refl) as (Hlock & _ & Hnx).
  split; [exact Hv|]. split; [exact Hack|]. split; [exact Hlock | exact Hnx].
Defined.

(** A succeeded callback whose output is the empty string. *)
Lemma webhook_empty_string_witness :
  Payload.status empty_string_payload = succeeded
  /\ no_output (Payload.output empty_string_payload)
  /\ db (snd (handleWebhook {| json := Ok empty_string_payload |} in_flight_world))
     = db in_flight_world.
Proof.
  assert (Hno : no_output (Payload.output empty_string_payload))
    by (right; reflexivity).
  split; [reflexivity|]. split; [exact Hno|].
  exact (proj1 (webhook_succeeded_without_output_is_noop
                  empty_string_payload in_flight_world eq_refl Hno)).
Defined.

(** The poll of the spec's example scenario: after the callback, a fetch by
    hash is answered [complete] with the stored summary. *)
Lemma fetch_case_order_witness :
  Js.opt_truthy (Fetch.urlParam (Fetch.Make None (Some demo_hash)))
  || Js.opt_truthy (Fetch.hashParam (Fetch.Make None (Some demo_hash))) = true
  /\ db (snd (handleFetchSummary (Fetch.Make None (Some demo_hash)) completed_world))
     = db completed_world
  /\ fst (handleFetchSummary (Fetch.Make None (Some demo_hash)) completed_world)
     = Ok (json_response 200
             (VObj [ ("status", VStr "complete"); ("cached", VBool true);
                     ("summary", VStr ("Result" +:+ String (JsString.chr 10) "text"));
                     ("headline", VStr "H"); ("generatedAt", VNum 1731621120000);
                     ("hash", VStr demo_hash) ])).
Proof.
  assert (Hparam : Js.opt_truthy (Fetch.urlParam (Fetch.Make None (Some demo_hash)))
                   || Js.opt_truthy (Fetch.hashParam (Fetch.Make None (Some demo_hash)))
                   = true) by reflexivity.
  destruct (fetch_case_order (Fetch.Make None (Some demo_hash)) completed_world Hparam)
    as [Hdb Hcase].
  split; [exact Hparam|]. split; [exact Hdb|].
  cbv zeta in Hcase.
  change (Js.opt_truthy (Fetch.hashParam (Fetch.Make None (Some demo_hash))))
    with true in Hcase.
  cbv iota in Hcase. cbn [Fetch.hashParam] in Hcase.
  assert (Hseen : seen 0 ("article:" +:+ demo_hash) completed_world
                  = Some (article_entry (VStr "H") (OutputArray ["Result"; "text"])
                            1731621120000))
    by (vm_compute; reflexivity).
  rewrite Hseen in Hcase.
  apply (Hcase (VObj [ ("summary", VStr ("Result" +:+ String (JsString.chr 10) "text"));
                       ("headline", VStr "H");
                       ("model", VStr "google-deepmind/gemma-2b");
                       ("generatedAt", VNum 1731621120000) ]));
    vm_compute; reflexivity.
Defined.

(* ===================================================================== *)
(** ** Routing                                                            *)
(* ===================================================================== *)

Lemma append_cons c (a b : string) : String c a +:+ b = String c (a +:+ b).
Proof. reflexivity. Qed.

Lemma append_nil (b : string) : EmptyString +:+ b = b.
Proof. reflexivity. Qed.

Lemma string_app_nil_r (s : string) : s +:+ EmptyString = s.
Proof.
  induction s as [|c s IH]; [reflexivity|]. rewrite append_cons, IH. reflexivity.
Qed.

Lemma string_app_assoc (a b c : string) : (a +:+ b) +:+ c = a +:+ (b +:+ c).
Proof.
  induction a as [|x a IH]; [reflexivity|]. rewrite !append_cons, IH. reflexivity.
Qed.

Lemma startsWith_app p s : JsString.startsWith p (p +:+ s) = true.
Proof.
  induction p as [|c p IH]; [reflexivity|]. rewrite append_cons.
  cbn [JsString.startsWith]. rewrite Ascii.eqb_refl. exact IH.
Qed.

Lemma startsWith_split p s :
  JsString.startsWith p s = true -> s = p +:+ JsString.drop (String.length p) s.
Proof.
  revert s. induction p as [|c p IH]; intros s H; [reflexivity|].
  destruct s as [|d s]; [discriminate|]. cbn [JsString.startsWith] in H.
  destruct (Ascii.eqb_spec c d) as [->|]; [|discriminate].
  cbn [String.length JsString.drop]. rewrite append_cons. f_equal. apply IH. exact H.
Qed.

Lemma drop_app p s : JsString.drop (String.length p) (p +:+ s) = s.
Proof. induction p as [|c p IH]; [destruct s; reflexivity|]. exact IH. Qed.

(** A match at the start of [s] spells a slash, a route, and then the end
    of [s] or a question mark. *)
Lemma route_at_Some s r :
  route_at s = Some r ->
  In r routes /\ exists rest, s = "/" +:+ r +:+ rest /\ route_ends rest = true.
Proof.
  unfold route_at. destruct s as [|c s]; [discriminate|].
  destruct (Ascii.eqb_spec c "/") as [->|Hne].
  - intros H. apply find_some in H. destruct H as [HIn H].
    apply andb_true_iff in H. destruct H as [Hpre Hend].
    split; [exact HIn|]. exists (JsString.drop (String.length r) s).
    split; [|exact Hend]. rewrite append_cons, append_nil. f_equal.
    apply startsWith_split. exact Hpre.
  - destruct c as [[] [] [] [] [] [] [] []]; try discriminate. congruence.
Qed.

Lemma route_at_exact r : In r routes -> route_at ("/" +:+ r) = Some r.
Proof.
  intros [<-|[<-|[<-|[]]]]; reflexivity.
Qed.

Lemma all_chars_app p a b :
  URL.all_chars p (a +:+ b) = URL.all_chars p a && URL.all_chars p b.
Proof.
  induction a as [|c a IH]; [reflexivity|]. rewrite append_cons.
  cbn [URL.all_chars]. rewrite IH. apply andb_assoc.
Qed.

Lemma route_has_no_slash r pre x :
  In r routes -> r <> pre +:+ "/" +:+ x.
Proof.
  intros HIn Heq.
  assert (H : URL.all_chars (fun c => negb (Ascii.eqb c "/")) r = true).
  { destruct HIn as [<-|[<-|[<-|[]]]]; reflexivity. }
  rewrite Heq, all_chars_app in H. cbn in H. rewrite andb_false_r in H. discriminate.
Qed.

Lemma includes_unfold needle s :
  includes needle s
  = JsString.startsWith needle s
    || match s with
       | String _ rest => includes needle rest
       | EmptyString => false
       end.
Proof. destruct s; reflexivity. Qed.

Lemma includes_prefix needle rest : includes needle (needle +:+ rest) = true.
Proof. rewrite includes_unfold, startsWith_app. reflexivity. Qed.

(** X1.  [extractRoute] only ever answers one of the three routes, and only
    for a path that contains a slash followed by the name of that route. *)
Theorem extractRoute_sound path r :
  extractRoute path = Some r ->
  In r routes /\ includes ("/" +:+ r) path = true.
Proof.
  induction path as [|c path IH]; cbn [extractRoute].
  - cbn. discriminate.
  - destruct (route_at (String c path)) as [r'|] eqn:Hat.
    + intros [= <-]. apply route_at_Some in Hat. destruct Hat as [HIn [rest [Heq _]]].
      split; [exact HIn|]. rewrite Heq, <- string_app_assoc.
      apply includes_prefix.
    + intros H. destruct (IH H) as [HIn Hinc]. split; [exact HIn|].
      rewrite includes_unfold, Hinc. apply orb_true_r.
Qed.

Lemma extractRoute_suffix path r :
  no_question path ->
  extractRoute path = Some r <-> In r routes /\ exists pre, path = pre +:+ "/" +:+ r.
Proof.
  unfold no_question. induction path as [|c path IH]; intros Hq.
  - cbn. split; [discriminate|]. intros [HIn [pre Heq]].
    destruct pre; discriminate.
  - assert (Hq' : URL.all_chars (fun c => negb (Ascii.eqb c "?")) path = true).
    { cbn in Hq. apply andb_true_iff in Hq. apply Hq. }
    cbn [extractRoute].
    destruct (route_at (String c path)) as [r'|] eqn:Hat.
    + apply route_at_Some in Hat. destruct Hat as [HIn' [rest [Heq Hend]]].
      assert (Hrest : rest = EmptyString).
      { destruct rest as [|d rest]; [reflexivity|]. cbn in Hend.
        rewrite Heq in Hq. rewrite !all_chars_app in Hq. cbn in Hq.
        rewrite Hend in Hq. cbn in Hq. rewrite !andb_false_r in Hq. discriminate. }
      subst rest. rewrite string_app_nil_r in Heq. split.
      * intros [= <-]. split; [exact HIn'|]. exists EmptyString. exact Heq.
      * intros [HIn [pre Heq2]]. f_equal. rewrite Heq in Heq2.
        destruct pre as [|d pre].
        -- rewrite append_nil, !append_cons, !append_nil in Heq2.
           injection Heq2 as Heq2. exact Heq2.
        -- rewrite !append_cons, !append_nil in Heq2. injection Heq2 as _ Heq2.
           destruct (route_has_no_slash _ _ _ HIn' Heq2).
    + rewrite (IH Hq'). split.
      * intros [HIn [pre Heq]]. split; [exact HIn|]. exists (String c pre).
        rewrite append_cons. f_equal. exact Heq.
      * intros [HIn [pre Heq]]. split; [exact HIn|]. destruct pre as [|d pre].
        -- rewrite append_nil in Heq. rewrite Heq in Hat.
           rewrite (route_at_exact r HIn) in Hat. discriminate.
        -- exists pre. rewrite append_cons in Heq. injection Heq as _ Heq. exact Heq.
Qed.

(** X2.  On a path without a question mark (a URL's pathname) the route is
    found exactly when the path ends with a slash and the route's name;
    a longer path, or a trailing slash, gives null. *)
Theorem extractRoute_pathname path r :
  no_question path ->
  extractRoute path = Some r <-> In r routes /\ exists pre, path = pre +:+ "/" +:+ r.
Proof. apply extractRoute_suffix. Qed.

Lemma cut_at_question a : forall b x y,
  no_question a -> no_question b ->
  a +:+ String "?" x = b +:+ String "?" y -> a = b.
Proof.
  unfold no_question. induction a as [|c a IH]; intros [|d b] x y Ha Hb H.
  - reflexivity.
  - rewrite append_nil, append_cons in H. injection H as <- _.
    cbn in Hb. discriminate.
  - rewrite append_nil, append_cons in H. injection H as -> _.
    cbn in Ha. discriminate.
  - rewrite !append_cons in H. injection H as <- H.
    cbn [URL.all_chars] in Ha, Hb.
    apply andb_true_iff in Ha. apply andb_true_iff in Hb.
    f_equal. apply (IH b x y); tauto.
Qed.

Lemma route_no_question r : In r routes -> no_question r.
Proof. intros [<-|[<-|[<-|[]]]]; reflexivity. Qed.

(** X3.  A query string after the route's name does not hide the route:
    under any prefix without a question mark, a path that spells a slash,
    a route's name, a question mark and anything gives that route. *)
Theorem extractRoute_with_query pre r q :
  no_question pre ->
  In r routes ->
  extractRoute (pre +:+ "/" +:+ r +:+ "?" +:+ q) = Some r.
Proof.
  intros Hq HIn. induction pre as [|c pre IH].
  - rewrite append_nil. destruct HIn as [<-|[<-|[<-|[]]]]; reflexivity.
  - assert (Hq' : no_question pre).
    { unfold no_question in *. cbn [URL.all_chars] in Hq.
      apply andb_true_iff in Hq. apply Hq. }
    rewrite append_cons. cbn [extractRoute].
    destruct (route_at _) as [r'|] eqn:Hat; [|exact (IH Hq')].
    exfalso. apply route_at_Some in Hat.
    destruct Hat as [HIn' [rest [Heq Hend]]].
    rewrite !append_cons, append_nil in Heq. injection Heq as _ Heq.
    destruct rest as [|d rest].
    + rewrite string_app_nil_r in Heq.
      exact (route_has_no_slash r' pre (r +:+ "?" +:+ q) HIn' (eq_sym Heq)).
    + cbn [route_ends] in Hend. apply Ascii.eqb_eq in Hend. subst d.
      assert (H : pre +:+ "/" +:+ r = r').
      { apply (cut_at_question _ _ q rest).
        - unfold no_question in *. rewrite !all_chars_app, Hq'.
          rewrite (route_no_question r HIn). reflexivity.
        - apply route_no_question, HIn'.
        - rewrite !string_app_assoc, ?append_cons, ?append_nil.
          rewrite ?append_cons, ?append_nil in Heq. exact Heq. }
      exact (route_has_no_slash r' pre r HIn' (eq_sym H)).
Qed.

(* ===================================================================== *)
(** ** Configuration and authentication                                   *)
(* ===================================================================== *)

(** An error thrown by the configuration check of [createRedisClient] or
    [createReplicateClient] is one that [handleConfigurationError] answers;
    it is never rethrown. *)
Lemma configuration_error_answer (env : Env) message :
  createRedisClient env = Throw message
  \/ createReplicateClient env = Throw message ->
  handleConfigurationError message
  = Ok (json_response 500
          (VObj [("error", VStr ("Configuration error: " +:+ message))])).
Proof.
  unfold createRedisClient, createReplicateClient. cbv zeta.
  intros [H|H].
  - destruct (negb _ || negb _); [|discriminate]. injection H as <-. reflexivity.
  - destruct (negb (Js.opt_truthy (env "REPLICATE_API_TOKEN")));
      [injection H as <-; reflexivity|].
    destruct (negb (Js.opt_truthy (env "PROJECT_URL")));
      [injection H as <-; reflexivity|].
    destruct (negb (Js.opt_truthy (env "REPLICATE_MODEL_VERSION")));
      [injection H as <-; reflexivity|discriminate].
Qed.

(** X5.  [verifyJWT] accepts a header exactly when it reads [Bearer ]
    followed by a token that is not blank; the token itself is not
    examined. *)
Theorem verifyJWT_accepts authHeader :
  Auth.valid (verifyJWT authHeader) = true
  <-> exists token, authHeader = Some ("Bearer " +:+ token)
                    /\ JsString.trim token <> EmptyString.
Proof.
  unfold verifyJWT. split.
  - destruct authHeader as [h|]; [|discriminate].
    destruct (JsString.truthy h); [|discriminate]. cbn [negb orb].
    destruct (JsString.startsWith "Bearer " h) eqn:Hpre; [|discriminate].
    cbn [negb]. apply startsWith_split in Hpre. cbn [String.length] in Hpre.
    destruct (JsString.trim (JsString.drop 7 h)) as [|c t] eqn:Htok; [discriminate|].
    intros _. exists (JsString.drop 7 h). split; [f_equal; exact Hpre|].
    rewrite Htok. discriminate.
  - intros [token [-> Htok]].
    change (JsString.truthy ("Bearer " +:+ token)) with true.
    rewrite startsWith_app. cbn [negb orb].
    change 7%nat with (String.length "Bearer "). rewrite drop_app.
    destruct (JsString.trim token) as [|c t]; [congruence|]. reflexivity.
Qed.

(** X6.  With no [WEBHOOK_SECRET] configured every callback is let in;
    with one configured, only the callback whose [secret] parameter equals
    it. *)
Theorem verifyWebhookSecret_accepts (env : Env) secret :
  Auth.valid (verifyWebhookSecret env secret) = true
  <-> Js.opt_truthy (env "WEBHOOK_SECRET") = false
      \/ (exists s, env "WEBHOOK_SECRET" = Some s /\ s <> EmptyString
                    /\ secret = Some s).
Proof.
  unfold verifyWebhookSecret. cbv zeta.
  destruct (env "WEBHOOK_SECRET") as [[|c e]|] eqn:Henv; cbn [Js.opt_truthy JsString.truthy negb].
  - split; [left; reflexivity | reflexivity].
  - cbn [Js.str_or JsString.truthy]. split.
    + destruct secret as [s|]; [|discriminate].
      destruct (JsString.truthy s); [|discriminate]. cbn [negb orb].
      destruct (String.eqb_spec s (String c e)) as [->|]; [|discriminate].
      intros _. right. exists (String c e). repeat split. discriminate.
    + intros [H|[s [[= <-] [_ ->]]]]; [discriminate|].
      cbn [JsString.truthy negb orb]. rewrite String.eqb_refl. reflexivity.
  - split; [left; reflexivity | reflexivity].
Qed.

Lemma lift_run {A} (r : Result A) w : lift r w = (r, w).
Proof. reflexivity. Qed.

(** The configuration step in front of a route handler. *)
Lemma configured_or_unchanged {A} (cfg : Result A) (handler : M Response) w :
  try_catch (let* _ := lift cfg in handler)
            (fun error => lift (handleConfigurationError error)) w
  = match cfg with
    | Ok _ => try_catch handler (fun error => lift (handleConfigurationError error)) w
    | Throw e => (handleConfigurationError e, w)
    end.
Proof. destruct cfg; reflexivity. Qed.

Lemma handler_caught (h : M Response) w :
  (exists resp, fst (h w) = Ok resp) ->
  try_catch h (fun error => lift (handleConfigurationError error)) w = h w.
Proof.
  intros [resp H]. unfold try_catch. destruct (h w) as [[a|e] w']; [reflexivity|].
  discriminate.
Qed.

Lemma handleGenerateSummary_answers ec cp req w :
  exists resp, fst (handleGenerateSummary ec cp req w) = Ok resp.
Proof.
  unfold handleGenerateSummary, try_catch.
  match goal with |- context [match ?m w with _ => _ end] => destruct (m w) as [[a|e] w'] end;
    eexists; reflexivity.
Qed.

Lemma handleFetchSummary_answers req w :
  exists resp, fst (handleFetchSummary req w) = Ok resp.
Proof.
  unfold handleFetchSummary, try_catch.
  match goal with |- context [match ?m w with _ => _ end] => destruct (m w) as [[a|e] w'] end;
    eexists; reflexivity.
Qed.

Lemma handleWebhook_answers req w :
  exists resp, fst (handleWebhook req w) = Ok resp.
Proof.
  unfold handleWebhook, try_catch.
  match goal with |- context [match ?m w with _ => _ end] => destruct (m w) as [[a|e] w'] end;
    eexists; reflexivity.
Qed.

(** X7.  The served function always answers, and it touches neither the
    store nor the provider unless the request is authenticated for its
    route and the store client is configured: the bearer token for
    generate-summary and fetch-summary, the webhook secret for webhook. *)
Theorem serve_guards (env : Env) ec cp iso req w :
  let run := serve env ec cp iso req w in
  (exists resp, fst run = Ok resp)
  /\ (snd run <> w ->
      (exists cfg, createRedisClient env = Ok cfg)
      /\ ((Auth.valid (verifyJWT (Http.authorization req)) = true
           /\ (Http.method req = "POST"
               /\ extractRoute (Http.pathname req) = Some "generate-summary"
               /\ (exists cfg, createReplicateClient env = Ok cfg)
               \/ Http.method req = "GET"
                  /\ extractRoute (Http.pathname req) = Some "fetch-summary"))
          \/ (Auth.valid (verifyWebhookSecret env (Http.secret req)) = true
              /\ Http.method req = "POST"
              /\ extractRoute (Http.pathname req) = Some "webhook"))).
Proof.
  cbv zeta. split.
  - unfold serve, try_catch at 1.
    match goal with |- context [match ?m w with _ => _ end] => destruct (m w) as [[a|e] w'] end;
      eexists; reflexivity.
  - unfold serve. unfold try_catch at 1. cbv zeta.
    assert (Hroute : forall name, route_is (extractRoute (Http.pathname req)) name = true ->
                                  extractRoute (Http.pathname req) = Some name).
    { intros name. unfold route_is. destruct (extractRoute _) as [r|]; [|discriminate].
      intros H. apply String.eqb_eq in H. congruence. }
    destruct (String.eqb_spec (Http.method req) "POST") as [Hpost|Hnpost].
    + rewrite Hpost. change (String.eqb "POST" "GET") with false. cbn [andb].
      destruct (route_is _ "generate-summary") eqn:Hgen.
      * destruct (Auth.valid (verifyJWT _)) eqn:Hjwt; cbn [negb];
          [|intros H; destruct H; reflexivity].
        rewrite configured_or_unchanged.
        destruct (createRedisClient env) as [rc|e] eqn:Hrc.
        2:{ destruct (handleConfigurationError e); intros H; destruct H; reflexivity. }
        rewrite configured_or_unchanged.
        destruct (createReplicateClient env) as [pc|e] eqn:Hpc.
        2:{ destruct (handleConfigurationError e); intros H; destruct H; reflexivity. }
        intros _. split; [eexists; reflexivity|]. left. split; [reflexivity|].
        left. split; [reflexivity|]. split; [apply Hroute; exact Hgen|].
        eexists; reflexivity.
      * destruct (route_is _ "webhook") eqn:Hhook;
          [|intros H; destruct H; reflexivity].
        destruct (Auth.valid (verifyWebhookSecret _ _)) eqn:Hsec; cbn [negb];
          [|intros H; destruct H; reflexivity].
        rewrite configured_or_unchanged.
        destruct (createRedisClient env) as [rc|e] eqn:Hrc.
        2:{ destruct (handleConfigurationError e); intros H; destruct H; reflexivity. }
        intros _. split; [eexists; reflexivity|]. right.
        split; [reflexivity|]. split; [reflexivity|]. apply Hroute; exact Hhook.
    + cbn [andb].
      destruct (String.eqb_spec (Http.method req) "GET") as [Hget|Hnget]; cbn [andb];
        [|intros H; destruct H; reflexivity].
      destruct (route_is _ "fetch-summary") eqn:Hfetch;
        [|intros H; destruct H; reflexivity].
      destruct (Auth.valid (verifyJWT _)) eqn:Hjwt; cbn [negb];
        [|intros H; destruct H; reflexivity].
      rewrite configured_or_unchanged.
      destruct (createRedisClient env) as [rc|e] eqn:Hrc.
      2:{ destruct (handleConfigurationError e); intros H; destruct H; reflexivity. }
      intros _. split; [eexists; reflexivity|]. left. split; [reflexivity|].
      right. split; [exact Hget|]. apply Hroute; exact Hfetch.
Qed.

Lemma route_is_suffix pre name :
  no_question pre -> In name routes ->
  forall other, route_is (extractRoute (pre +:+ "/" +:+ name)) other = String.eqb name other.
Proof.
  intros Hq HIn other.
  assert (H : extractRoute (pre +:+ "/" +:+ name) = Some name).
  { apply extractRoute_suffix.
    - unfold no_question in *. rewrite all_chars_app, Hq.
      destruct HIn as [<-|[<-|[<-|[]]]]; reflexivity.
    - split; [exact HIn|]. exists pre. reflexivity. }
  rewrite H. reflexivity.
Qed.

(** X8.  On a configured deployment, a request whose path ends with a
    route's name, under any prefix, and that carries the credentials of
    that route is answered by the route's handler. *)
Theorem serve_dispatches (env : Env) ec cp iso req w rc pre :
  createRedisClient env = Ok rc ->
  no_question pre ->
  (Http.method req = "POST" ->
   Http.pathname req = pre +:+ "/" +:+ "generate-summary" ->
   Auth.valid (verifyJWT (Http.authorization req)) = true ->
   (exists pc, createReplicateClient env = Ok pc) ->
   serve env ec cp iso req w
   = handleGenerateSummary ec cp (Http.generateRequest req) w)
  /\ (Http.method req = "GET" ->
      Http.pathname req = pre +:+ "/" +:+ "fetch-summary" ->
      Auth.valid (verifyJWT (Http.authorization req)) = true ->
      serve env ec cp iso req w = handleFetchSummary (Http.fetchRequest req) w)
  /\ (Http.method req = "POST" ->
      Http.pathname req = pre +:+ "/" +:+ "webhook" ->
      Auth.valid (verifyWebhookSecret env (Http.secret req)) = true ->
      serve env ec cp iso req w = handleWebhook (Http.webhookRequest req) w).
Proof.
  intros Hrc Hq.
  split; [|split].
  - intros Hm Hp Hjwt [pc Hpc]. unfold serve. cbv zeta.
    rewrite Hm, Hp, Hjwt.
    rewrite (route_is_suffix pre "generate-summary" Hq) by (cbn; tauto).
    cbn [String.eqb Ascii.eqb Bool.eqb andb negb]. unfold try_catch at 1.
    rewrite !configured_or_unchanged, Hrc, Hpc.
    rewrite handler_caught by apply handleGenerateSummary_answers.
    destruct (handleGenerateSummary_answers ec cp (Http.generateRequest req) w) as [resp H].
    destruct (handleGenerateSummary ec cp (Http.generateRequest req) w) as [[a|e] w'];
      [reflexivity|discriminate].
  - intros Hm Hp Hjwt. unfold serve. cbv zeta.
    rewrite Hm, Hp, Hjwt.
    rewrite !(route_is_suffix pre "fetch-summary" Hq) by (cbn; tauto).
    cbn [String.eqb Ascii.eqb Bool.eqb andb negb]. unfold try_catch at 1.
    rewrite !configured_or_unchanged, Hrc.
    rewrite handler_caught by apply handleFetchSummary_answers.
    destruct (handleFetchSummary_answers (Http.fetchRequest req) w) as [resp H].
    destruct (handleFetchSummary (Http.fetchRequest req) w) as [[a|e] w'];
      [reflexivity|discriminate].
  - intros Hm Hp Hsec. unfold serve. cbv zeta.
    rewrite Hm, Hp, Hsec.
    rewrite !(route_is_suffix pre "webhook" Hq) by (cbn; tauto).
    cbn [String.eqb Ascii.eqb Bool.eqb andb negb]. unfold try_catch at 1.
    rewrite !configured_or_unchanged, Hrc.
    rewrite handler_caught by apply handleWebhook_answers.
    destruct (handleWebhook_answers (Http.webhookRequest req) w) as [resp H].
    destruct (handleWebhook (Http.webhookRequest req) w) as [[a|e] w'];
      [reflexivity|discriminate].
Qed.

(** X4.  A deployment that lacks its configuration says so and does
    nothing else: when the store client cannot be built (or, on
    generate-summary, the provider client), a request that carries the
    credentials of its route is answered 500 with [Configuration error: ]
    and the message of the failed check, and neither the store nor the
    provider is contacted. *)
Theorem serve_reports_missing_configuration (env : Env) ec cp iso req w pre message :
  no_question pre ->
  (createRedisClient env = Throw message ->
   (Http.method req = "POST"
    /\ Http.pathname req = pre +:+ "/" +:+ "generate-summary"
    /\ Auth.valid (verifyJWT (Http.authorization req)) = true)
   \/ (Http.method req = "GET"
       /\ Http.pathname req = pre +:+ "/" +:+ "fetch-summary"
       /\ Auth.valid (verifyJWT (Http.authorization req)) = true)
   \/ (Http.method req = "POST"
       /\ Http.pathname req = pre +:+ "/" +:+ "webhook"
       /\ Auth.valid (verifyWebhookSecret env (Http.secret req)) = true) ->
   serve env ec cp iso req w
   = (Ok (json_response 500
            (VObj [("error", VStr ("Configuration error: " +:+ message))])), w))
  /\ ((exists rc, createRedisClient env = Ok rc) ->
      createReplicateClient env = Throw message ->
      Http.method req = "POST" ->
      Http.pathname req = pre +:+ "/" +:+ "generate-summary" ->
      Auth.valid (verifyJWT (Http.authorization req)) = true ->
      serve env ec cp iso req w
      = (Ok (json_response 500
               (VObj [("error", VStr ("Configuration error: " +:+ message))])), w)).
Proof.
  intros Hq. split.
  - intros Hrc Hreq.
    pose proof (configuration_error_answer env message (or_introl Hrc)) as Hans.
    destruct Hreq as [(Hm & Hp & Hauth) | [(Hm & Hp & Hauth) | (Hm & Hp & Hauth)]];
      unfold serve; cbv zeta; rewrite Hm, Hp, Hauth.
    + rewrite (route_is_suffix pre "generate-summary" Hq) by (cbn; tauto).
      cbn [String.eqb Ascii.eqb Bool.eqb andb negb]. unfold try_catch at 1.
      rewrite configured_or_unchanged, Hrc, Hans. reflexivity.
    + rewrite !(route_is_suffix pre "fetch-summary" Hq) by (cbn; tauto).
      cbn [String.eqb Ascii.eqb Bool.eqb andb negb]. unfold try_catch at 1.
      rewrite configured_or_unchanged, Hrc, Hans. reflexivity.
    + rewrite !(route_is_suffix pre "webhook" Hq) by (cbn; tauto).
      cbn [String.eqb Ascii.eqb Bool.eqb andb negb]. unfold try_catch at 1.
      rewrite configured_or_unchanged, Hrc, Hans. reflexivity.
  - intros [rc Hrc] Hpc Hm Hp Hauth.
    pose proof (configuration_error_answer env message (or_intror Hpc)) as Hans.
    unfold serve. cbv zeta. rewrite Hm, Hp, Hauth.
    rewrite (route_is_suffix pre "generate-summary" Hq) by (cbn; tauto).
    cbn [String.eqb Ascii.eqb Bool.eqb andb negb]. unfold try_catch at 1.
    rewrite !configured_or_unchanged, Hrc, Hpc, Hans. reflexivity.
Qed.

(* ===================================================================== *)
(** ** Content extraction                                                 *)
(* ===================================================================== *)

Lemma truthy_length s : JsString.truthy s = true -> (1 <= String.length s)%nat.
Proof. destruct s; [discriminate|]. cbn. lia. Qed.

Lemma extractContentSafe_cases ec html url snip :
  exists t, extractContentSafe ec html url snip = Ok t
    /\ (t = EmptyString /\ Js.opt_truthy snip = false
        \/ snip = Some t /\ JsString.truthy t = true
        \/ (exists h, html = Some h /\ ec h url = Ok t
                      /\ (forall f, snip = Some f ->
                            (String.length t < 50)%nat ->
                            (String.length f <= String.length t)%nat))).
Proof.
  assert (Hfallback : forall (k : Result string),
            k = (if Js.opt_truthy snip then Ok (Js.str_or snip EmptyString)
                 else Ok EmptyString) ->
            exists t, k = Ok t
              /\ (t = EmptyString /\ Js.opt_truthy snip = false
                  \/ snip = Some t /\ JsString.truthy t = true
                  \/ (exists h, html = Some h /\ ec h url = Ok t
                                /\ (forall f, snip = Some f ->
                                      (String.length t < 50)%nat ->
                                      (String.length f <= String.length t)%nat)))).
  { intros k ->. destruct snip as [[|c f]|]; cbn.
    - eexists. split; [reflexivity|]. left. split; reflexivity.
    - eexists. split; [reflexivity|]. right. left. split; reflexivity.
    - eexists. split; [reflexivity|]. left. split; reflexivity. }
  unfold extractContentSafe. destruct html as [h|]; [|apply Hfallback; reflexivity].
  destruct (negb (JsString.truthy h) || _); [apply Hfallback; reflexivity|].
  destruct (ec h url) as [text|e] eqn:Hec; [|apply Hfallback; reflexivity].
  destruct (negb (JsString.truthy text) || (String.length text <? 50)%nat) eqn:Hthin.
  - destruct snip as [f|].
    + destruct (JsString.truthy f && (String.length text <? String.length f)%nat) eqn:Hlonger.
      * apply andb_true_iff in Hlonger. destruct Hlonger as [Hf _].
        exists f. split; [reflexivity|]. right. left. split; [reflexivity|exact Hf].
      * exists text. split; [reflexivity|]. right. right. exists h.
        split; [reflexivity|]. split; [exact Hec|]. intros f' [= <-] _.
        apply andb_false_iff in Hlonger. destruct Hlonger as [Hf|Hlt].
        -- destruct f; [cbn; lia|discriminate].
        -- apply Nat.ltb_ge in Hlt. exact Hlt.
    + exists text. split; [reflexivity|]. right. right. exists h.
      split; [reflexivity|]. split; [exact Hec|]. intros f' [=].
  - exists text. split; [reflexivity|]. right. right. exists h.
    split; [reflexivity|]. split; [exact Hec|]. intros f' _ Hshort.
    apply orb_false_iff in Hthin. destruct Hthin as [_ Hlen].
    apply Nat.ltb_ge in Hlen. lia.
Qed.

(** X9.  [extractContentSafe] never throws, whatever the extractor does:
    it answers the extracted text, the fallback snippet, or the empty
    string, and the empty string only when no snippet was given or the
    extractor produced it. *)
Theorem extractContentSafe_never_throws ec html url snip :
  exists t, extractContentSafe ec html url snip = Ok t
    /\ (t = EmptyString /\ Js.opt_truthy snip = false
        \/ snip = Some t
        \/ exists h, html = Some h /\ ec h url = Ok t).
Proof.
  destruct (extractContentSafe_cases ec html url snip) as [t [H Hc]].
  exists t. split; [exact H|].
  destruct Hc as [Hc|[[Hc _]|[h [Hh [Hec _]]]]]; [left; exact Hc|right; left; exact Hc|].
  right. right. exists h. split; assumption.
Qed.

(** X10.  A snippet is never traded for less: when a non-empty snippet is
    supplied, the text [extractContentSafe] answers has at least 50
    characters or is at least as long as the snippet. *)
Theorem extractContentSafe_keeps_snippet ec html url f :
  JsString.truthy f = true ->
  exists t, extractContentSafe ec html url (Some f) = Ok t
    /\ (Nat.min 50 (String.length f) <= String.length t)%nat.
Proof.
  intros Hf.
  destruct (extractContentSafe_cases ec html url (Some f)) as [t [H Hc]].
  exists t. split; [exact H|].
  destruct Hc as [[_ Hc]|[[[= ->] _]|[h [_ [_ Hlen]]]]].
  - cbn in Hc. congruence.
  - lia.
  - destruct (Nat.lt_ge_cases (String.length t) 50) as [Hshort|Hlong].
    + specialize (Hlen f eq_refl Hshort). lia.
    + lia.
Qed.

Lemma provider_calls ec cp body w :
  let run := handleGenerateSummary ec cp {| json := Ok body |} w in
  let text :=
    text_for_provider body
      (resolveText ec body (normalizeUrl (Js.str_or (Req.url body) EmptyString))) in
  let headline := Js.str_or (Req.headline body) EmptyString in
  exists evs, log (snd run) = log w ++ evs
    /\ forall t h r, In (Predict t h r) evs ->
          t = text /\ h = headline /\ r = cp text headline /\ blank text = false.
Proof.
  cbv zeta.
  destruct (generate_stages ec cp body w) as
    [(evs & Hlog & Hcache & _) | (w1 & evs & Hlog & Hcache & _ & Hrun)].
  - exists evs. split; [exact Hlog|].
    intros t h r HIn. destruct (cache_traffic_no_predict _ _ _ _ Hcache HIn).
  - rewrite Hrun, lockAndPredict_eq. cbv zeta.
    set (text := text_for_provider _ _).
    set (headline := Js.str_or _ _).
    assert (Hmore : forall more (P : string -> string -> Result string -> Prop),
      (forall t h r, In (Predict t h r) more -> P t h r) ->
      forall t h r, In (Predict t h r) (evs ++ more) -> P t h r).
    { intros more P H t h r HIn. apply in_app_or in HIn. destruct HIn as [HIn|HIn].
      - destruct (cache_traffic_no_predict _ _ _ _ Hcache HIn).
      - apply H; exact HIn. }
    destruct (outcome (lock_cmd (fingerprint ec body)) w1) as [[]|];
      destruct (blank text) eqn:Hblank;
      destruct (cp text headline) as [id|e] eqn:Hcp;
      unfold catch500; norm_log; rewrite Hlog, <- app_assoc;
      (eexists; split; [reflexivity|]); apply Hmore;
      intros t h r HIn; cbn [In] in HIn;
      decompose [or] HIn; try discriminate; try contradiction;
      match goal with
      | H : Predict _ _ _ = Predict _ _ _ |- _ => injection H as <- <- <-
      end;
      repeat split; congruence.
Qed.

(** X11.  In generate-summary a request that carries a non-empty snippet
    never resolves to the empty string, with or without HTML and whatever
    the extractor does, so that the text chosen in step 6 is the resolved
    text; and whenever the provider is called, it is called with that text
    and the headline of the request, and that text is not blank. *)
Theorem resolveText_with_snippet ec cp body w f :
  Req.snippet body = Some f ->
  JsString.truthy f = true ->
  let run := handleGenerateSummary ec cp {| json := Ok body |} w in
  let text := resolveText ec body (normalizeUrl (Js.str_or (Req.url body) EmptyString)) in
  let headline := Js.str_or (Req.headline body) EmptyString in
  (forall nu, JsString.truthy (resolveText ec body nu) = true
              /\ text_for_provider body (resolveText ec body nu) = resolveText ec body nu)
  /\ exists evs, log (snd run) = log w ++ evs
       /\ forall t h r, In (Predict t h r) evs ->
             t = text /\ h = headline /\ r = cp text headline /\ blank text = false.
Proof.
  intros Hs Hf. cbv zeta.
  assert (H : forall nu, JsString.truthy (resolveText ec body nu) = true).
  { intros nu. unfold resolveText. rewrite Hs. cbv zeta.
    destruct (Js.opt_truthy (Req.html body)).
    - destruct (extractContentSafe_cases ec (Req.html body) nu (Some f)) as [t [H Hc]].
      rewrite H.
      destruct Hc as [[_ Hc]|[[[= ->] _]|[h [_ [_ Hlen]]]]].
      + cbn in Hc. congruence.
      + exact Hf.
      + destruct t as [|c t]; [|reflexivity].
        apply truthy_length in Hf. specialize (Hlen f eq_refl). cbn in Hlen. lia.
    - cbn. rewrite Hf. exact Hf. }
  assert (H2 : forall nu, text_for_provider body (resolveText ec body nu)
                          = resolveText ec body nu).
  { intros nu. unfold text_for_provider. rewrite H. reflexivity. }
  split; [intros nu; split; [apply H | apply H2]|].
  destruct (provider_calls ec cp body w) as (evs & Hlog & Hev).
  exists evs. split; [exact Hlog|].
  intros t h r HIn. specialize (Hev t h r HIn). rewrite H2 in Hev. exact Hev.
Qed.

(** X12.  [extractContent] takes the text of a site parser only when it has
    more than 50 characters; a site parser that throws, answers null or
    answers less never stands in the way of the generic extractor, whose
    result (or error) is then the answer. *)
Theorem extractContent_prefers_long_custom_text gsp eac html url :
  (negb (JsString.truthy html) || (String.length (JsString.trim html) =? 0)%nat = true ->
   extractContent gsp eac html url = Ok EmptyString)
  /\ (negb (JsString.truthy html) || (String.length (JsString.trim html) =? 0)%nat = false ->
      (exists parser text,
          gsp url = Some parser /\ parser html = Ok (Some text)
          /\ (50 < String.length text)%nat
          /\ extractContent gsp eac html url = Ok text)
      \/ ((forall parser text,
              gsp url = Some parser -> parser html = Ok (Some text) ->
              (String.length text <= 50)%nat)
          /\ extractContent gsp eac html url = eac html)).
Proof.
  unfold extractContent. split; intros Hblank; rewrite Hblank; [reflexivity|].
  destruct (gsp url) as [parser|]; [|right; split; [intros ? ? [=]|reflexivity]].
  destruct (parser html) as [[text|]|e] eqn:Hp.
  - destruct (JsString.truthy text && (50 <? String.length text)%nat) eqn:Hlong.
    + left. apply andb_true_iff in Hlong. destruct Hlong as [_ Hlong].
      apply Nat.ltb_lt in Hlong. exists parser, text. repeat split; auto.
    + right. split; [|reflexivity]. intros p t [= <-] Ht. rewrite Hp in Ht.
      injection Ht as <-. apply andb_false_iff in Hlong. destruct Hlong as [Ht|Ht].
      * destruct text; [cbn; lia|discriminate].
      * apply Nat.ltb_ge in Ht. exact Ht.
  - right. split; [|reflexivity]. intros p t [= <-] Ht. rewrite Hp in Ht. discriminate.
  - right. split; [|reflexivity]. intros p t [= <-] Ht. rewrite Hp in Ht. discriminate.
Qed.

(* ===================================================================== *)
(** ** Query strings: encodeURIComponent and URLSearchParams             *)
(* ===================================================================== *)

Lemma query_encode_app a b :
  Form.query_encode (a +:+ b) = Form.query_encode a +:+ Form.query_encode b.
Proof.
  induction a as [|c a IH]; [reflexivity|].
  rewrite append_cons. cbn [Form.query_encode]. rewrite IH, string_app_assoc.
  reflexivity.
Qed.

(** Decoding distributes over a well escaped prefix. *)
Lemma percent_decode_app_len n : forall a b,
  (String.length a <= n)%nat -> well_escaped a = true ->
  Form.percent_decode (a +:+ b) = Form.percent_decode a ++ Form.percent_decode b.
Proof.
  induction n as [|n IH]; intros a b Hlen Hwf.
  - destruct a; [reflexivity | cbn in Hlen; lia].
  - destruct a as [|c a]; [reflexivity|].
    rewrite append_cons. cbn [Form.percent_decode well_escaped] in *.
    cbn [String.length] in Hlen.
    destruct (Ascii.eqb c "%").
    + destruct a as [|h1 [|h2 a]]; try discriminate.
      rewrite !append_cons.
      destruct (Json.hex_val h1); [|discriminate].
      destruct (Json.hex_val h2); [|discriminate].
      cbn [String.length] in Hlen.
      rewrite (IH a b) by (assumption || lia). reflexivity.
    + destruct (Ascii.eqb c "+").
      * rewrite (IH a b) by (assumption || lia). reflexivity.
      * rewrite (IH a b) by (assumption || lia). rewrite <- app_assoc. reflexivity.
Qed.

Lemma percent_decode_app a b :
  well_escaped a = true ->
  Form.percent_decode (a +:+ b) = Form.percent_decode a ++ Form.percent_decode b.
Proof. apply (percent_decode_app_len (String.length a)). lia. Qed.

(** One character, encoded by the client and re-encoded by the URL parser,
    is well escaped and decodes to its UTF-8 bytes. *)
Lemma encoded_char_decodes c :
  well_escaped (Form.query_encode (encodeURIComponent_char c)) = true
  /\ Form.percent_decode (Form.query_encode (encodeURIComponent_char c))
     = utf8_encode_char c.
Proof.
  destruct c as [[] [] [] [] [] [] [] []]; split; vm_compute; reflexivity.
Qed.

Lemma percent_decode_encoded_char c r :
  Form.percent_decode (Form.query_encode (encodeURIComponent_char c) +:+ r)
  = utf8_encode_char c ++ Form.percent_decode r.
Proof.
  destruct (encoded_char_decodes c) as [Hwf Hdec].
  rewrite percent_decode_app by exact Hwf. rewrite Hdec. reflexivity.
Qed.

Lemma utf8_char_ok_all c : utf8_char_ok c = true.
Proof. destruct c as [[] [] [] [] [] [] [] []]; vm_compute; reflexivity. Qed.

Lemma utf8_decode_encoded_char c bs :
  Form.utf8_decode (utf8_encode_char c ++ bs)
  = match Form.utf8_decode bs with
    | Some s => Some (String c s)
    | None => None
    end.
Proof.
  pose proof (utf8_char_ok_all c) as H. unfold utf8_char_ok in H.
  destruct (utf8_encode_char c) as [|n [|d [|e l]]]; try discriminate.
  - apply andb_true_iff in H. destruct H as [Hn Hc].
    apply Ascii.eqb_eq in Hc. cbn [app Form.utf8_decode]. rewrite Hn, Hc.
    reflexivity.
  - repeat (apply andb_true_iff in H; let H' := fresh in destruct H as [H H']).
    apply negb_true_iff in H. cbn [app Form.utf8_decode].
    rewrite H. 
    match goal with E : Ascii.eqb _ c = true |- _ => apply Ascii.eqb_eq in E; rewrite E end.
    repeat match goal with E : _ = true |- _ => rewrite E; clear E end.
    reflexivity.
Qed.

Lemma encoded_char_plain c :
  URL.all_chars plain_char (Form.query_encode (encodeURIComponent_char c)) = true.
Proof.
  destruct c as [[] [] [] [] [] [] [] []]; vm_compute; reflexivity.
Qed.

Lemma encoded_plain s :
  URL.all_chars plain_char (Form.query_encode (encodeURIComponent s)) = true.
Proof.
  induction s as [|c s IH]; [reflexivity|].
  cbn [encodeURIComponent]. rewrite query_encode_app, all_chars_app.
  rewrite encoded_char_plain, IH. reflexivity.
Qed.

Lemma decode_encoded s :
  Form.decode (Form.query_encode (encodeURIComponent s)) = Some s.
Proof.
  unfold Form.decode.
  assert (H : Form.percent_decode (Form.query_encode (encodeURIComponent s))
              = TextEncoder_encode s).
  { induction s as [|c s IH]; [reflexivity|].
    cbn [encodeURIComponent TextEncoder_encode].
    rewrite query_encode_app, percent_decode_encoded_char, IH. reflexivity. }
  rewrite H. clear H. induction s as [|c s IH]; [reflexivity|].
  cbn [TextEncoder_encode]. rewrite utf8_decode_encoded_char, IH. reflexivity.
Qed.

Lemma splitAll_plain s :
  URL.all_chars plain_char s = true -> JsString.splitAll "&" s = [s].
Proof.
  induction s as [|c s IH]; [reflexivity|]. cbn [URL.all_chars JsString.splitAll].
  intros H. apply andb_true_iff in H. destruct H as [Hc Hs].
  unfold plain_char in Hc. apply andb_true_iff in Hc. destruct Hc as [Hamp _].
  destruct (Ascii.eqb c "&"); [discriminate|]. rewrite (IH Hs). reflexivity.
Qed.

Lemma splitFirst_plain s : 
  URL.all_chars plain_char s = true -> JsString.splitFirst "=" s = None.
Proof.
  induction s as [|c s IH]; [reflexivity|]. cbn [URL.all_chars JsString.splitFirst].
  intros H. apply andb_true_iff in H. destruct H as [Hc Hs].
  unfold plain_char in Hc. apply andb_true_iff in Hc. destruct Hc as [_ Heq].
  destruct (Ascii.eqb c "="); [discriminate|]. rewrite (IH Hs). reflexivity.
Qed.

(** A query of one pair whose name is plain and whose value was encoded by
    [encodeURIComponent] is read back as that pair. *)
Lemma parse_one_pair name s :
  URL.all_chars plain_char name = true ->
  JsString.truthy name = true ->
  Form.query_encode name = name ->
  Form.decode name = Some name ->
  Form.parse (Form.query_encode (name +:+ "=" +:+ encodeURIComponent s))
  = [(Some name, Some s)].
Proof.
  intros Hplain Htruthy Hqe Hdec.
  rewrite !query_encode_app, Hqe.
  change (Form.query_encode "=") with "=".
  set (E := Form.query_encode (encodeURIComponent s)).
  assert (HE : URL.all_chars plain_char E = true) by apply encoded_plain.
  unfold Form.parse.
  assert (Hsplit : JsString.splitAll "&" (name +:+ "=" +:+ E)
                   = [name +:+ "=" +:+ E]).
  { clear Hqe Hdec Htruthy. induction name as [|c n IH].
    - rewrite append_nil. change ("=" +:+ E) with (String "=" E).
      cbn [JsString.splitAll]. change (Ascii.eqb "=" "&") with false. cbv iota.
      rewrite (splitAll_plain E HE). reflexivity.
    - rewrite append_cons. cbn [JsString.splitAll].
      cbn [URL.all_chars] in Hplain. apply andb_true_iff in Hplain.
      destruct Hplain as [Hc Hn]. unfold plain_char in Hc.
      apply andb_true_iff in Hc. destruct Hc as [Hamp _].
      destruct (Ascii.eqb c "&"); [discriminate|]. rewrite (IH Hn). reflexivity. }
  rewrite Hsplit.
  assert (Hne : JsString.truthy (name +:+ "=" +:+ E) = true).
  { destruct name; [discriminate|reflexivity]. }
  rewrite filter_cons_True by (rewrite Hne; exact I).
  rewrite filter_nil. cbn [map].
  assert (Hpair : URL.parse_pair (name +:+ "=" +:+ E) = (name, E)).
  { unfold URL.parse_pair.
    assert (H : JsString.splitFirst "=" (name +:+ "=" +:+ E) = Some (name, E)).
    { clear Hqe Hdec Htruthy Hsplit Hne. induction name as [|c n IH].
      - reflexivity.
      - rewrite append_cons. cbn [JsString.splitFirst].
        cbn [URL.all_chars] in Hplain. apply andb_true_iff in Hplain.
        destruct Hplain as [Hc Hn]. unfold plain_char in Hc.
        apply andb_true_iff in Hc. destruct Hc as [_ Heq].
        destruct (Ascii.eqb c "="); [discriminate|]. rewrite (IH Hn). reflexivity. }
    rewrite H. reflexivity. }
  rewrite Hpair, Hdec. unfold E. rewrite decode_encoded. reflexivity.
Qed.

Lemma get_one_pair name other s :
  Form.parse (Form.query_encode (name +:+ "=" +:+ encodeURIComponent s))
  = [(Some name, Some s)] ->
  Form.get other (Form.query_encode (name +:+ "=" +:+ encodeURIComponent s))
  = if String.eqb name other then Some (Some s) else None.
Proof.
  intros H. unfold Form.get. rewrite H. cbn [find fst snd].
  destruct (String.eqb name other); reflexivity.
Qed.

(** X13.  The poll of the extension reaches fetch-summary intact: the query
    [fetchSummary] builds carries its argument as the [url] parameter when
    it starts with [http] and as the [hash] parameter otherwise, the other
    parameter being absent, and the server decodes exactly the argument. *)
Theorem fetchSummary_query_round_trip hashOrUrl :
  fetch_params (fetchSummary_queryParam hashOrUrl)
  = if JsString.startsWith "http" hashOrUrl
    then (Some (Some hashOrUrl), None)
    else (None, Some (Some hashOrUrl)).
Proof.
  unfold fetch_params, fetchSummary_queryParam. cbv zeta.
  destruct (JsString.startsWith "http" hashOrUrl); cbn [negb].
  - rewrite !get_one_pair by (apply parse_one_pair; reflexivity). reflexivity.
  - rewrite !get_one_pair by (apply parse_one_pair; reflexivity). reflexivity.
Qed.

(** X14.  The callback address registered with the provider authenticates:
    when [WEBHOOK_SECRET] is set, the address built by
    [createReplicateClient] ends with [?secret=] and the encoded secret, and
    the [secret] parameter the server reads from that query is accepted by
    [verifyWebhookSecret]. *)
Theorem webhook_address_authenticates (env : Env) cfg s :
  env "WEBHOOK_SECRET" = Some s ->
  s <> EmptyString ->
  createReplicateClient env = Ok cfg ->
  webhookUrl cfg
  = stripTrailingSlash (Js.str_or (env "PROJECT_URL") EmptyString)
    +:+ "/functions/v1/nbs-tech/webhook"
    +:+ "?" +:+ ("secret=" +:+ encodeURIComponent s)
  /\ Form.get "secret" (Form.query_encode ("secret=" +:+ encodeURIComponent s))
     = Some (Some s)
  /\ Auth.valid (verifyWebhookSecret env (Some s)) = true.
Proof.
  intros Henv Hs Hcfg.
  assert (Htruthy : JsString.truthy s = true) by (destruct s; [congruence|reflexivity]).
  split; [|split].
  - unfold createReplicateClient in Hcfg. cbv zeta in Hcfg. rewrite Henv in Hcfg.
    destruct (negb (Js.opt_truthy (env "REPLICATE_API_TOKEN"))); [discriminate|].
    destruct (negb (Js.opt_truthy (env "PROJECT_URL"))); [discriminate|].
    destruct (negb (Js.opt_truthy (env "REPLICATE_MODEL_VERSION"))); [discriminate|].
    cbn [Js.opt_truthy Js.str_or] in Hcfg. rewrite Htruthy in Hcfg.
    injection Hcfg as <-. cbn [webhookUrl].
    rewrite !string_app_assoc. reflexivity.
  - change ("secret=" +:+ encodeURIComponent s)
      with ("secret" +:+ "=" +:+ encodeURIComponent s).
    rewrite get_one_pair by (apply parse_one_pair; reflexivity). reflexivity.
  - unfold verifyWebhookSecret. cbv zeta. rewrite Henv.
    cbn [Js.opt_truthy Js.str_or]. rewrite Htruthy. cbn [negb orb].
    rewrite String.eqb_refl. reflexivity.
Qed.

(* ===================================================================== *)
(** ** The shape of a fingerprint                                        *)
(* ===================================================================== *)

Lemma be_bytes_length n x : length (Sha256.be_bytes n x) = n.
Proof.
  unfold Sha256.be_bytes. rewrite length_map, length_rev, length_seq. reflexivity.
Qed.

Lemma be_bytes_range n x :
  List.Forall (fun b => 0 <= b < 256) (Sha256.be_bytes n x).
Proof.
  unfold Sha256.be_bytes. apply List.Forall_forall. intros b Hb.
  apply in_map_iff in Hb. destruct Hb as [i [<- _]].
  apply Z.mod_pos_bound. lia.
Qed.

Lemma compress_length h block :
  length h = 8%nat -> length (Sha256.compress h block) = 8%nat.
Proof.
  intros Hh. unfold Sha256.compress. cbv zeta.
  rewrite length_map, length_combine, Hh. reflexivity.
Qed.

Lemma blocks_length fuel : forall ws h,
  length h = 8%nat -> length (Sha256.blocks fuel ws h) = 8%nat.
Proof.
  induction fuel as [|f IH]; intros ws h Hh; [exact Hh|].
  cbn [Sha256.blocks]. destruct ws; [exact Hh|].
  apply IH, compress_length, Hh.
Qed.

Lemma digest_shape msg :
  length (Sha256.digest msg) = 32%nat
  /\ List.Forall (fun b => 0 <= b < 256) (Sha256.digest msg).
Proof.
  unfold Sha256.digest. cbv zeta.
  set (ws := Sha256.words _ _).
  pose proof (blocks_length (length ws) ws Sha256.H0 eq_refl) as Hlen.
  destruct (Sha256.blocks (length ws) ws Sha256.H0)
    as [|a [|b [|c [|d [|e [|f [|g [|h [|i l]]]]]]]]]; try discriminate.
  split.
  - cbn [flat_map]. rewrite !length_app, !be_bytes_length. reflexivity.
  - cbn [flat_map]. rewrite !List.Forall_app.
    repeat split; try apply be_bytes_range. constructor.
Qed.

Lemma hex_digit_lower n : 0 <= n < 16 -> is_hex_lower (hex_digit n) = true.
Proof.
  intros H.
  assert (Hall : forallb (fun k => is_hex_lower (hex_digit (Z.of_nat k))) (seq 0 16)
                 = true) by (vm_compute; reflexivity).
  rewrite <- (Z2Nat.id n) by lia.
  apply (proj1 (List.forallb_forall _ _) Hall). apply in_seq. lia.
Qed.

Lemma hex_of_bytes_shape bs :
  List.Forall (fun b => 0 <= b < 256) bs ->
  String.length (hex_of_bytes bs) = (2 * length bs)%nat
  /\ URL.all_chars is_hex_lower (hex_of_bytes bs) = true.
Proof.
  unfold hex_of_bytes. induction 1 as [|b l Hb Hl IH]; [split; reflexivity|].
  assert (Hstep : JsString.join EmptyString (map hex_byte (b :: l))
                  = hex_byte b +:+ JsString.join EmptyString (map hex_byte l)).
  { cbn [map JsString.join]. destruct (map hex_byte l).
    - cbn [JsString.join]. rewrite string_app_nil_r. reflexivity.
    - rewrite append_nil. reflexivity. }
  rewrite Hstep. unfold hex_byte at 1 3. rewrite !append_cons, append_nil.
  destruct IH as [IHlen IHhex]. split.
  - cbn [String.length length]. rewrite IHlen. lia.
  - cbn [URL.all_chars]. rewrite IHhex.
    rewrite !hex_digit_lower; [reflexivity| |].
    + apply Z.mod_pos_bound. lia.
    + split; [apply Z.div_pos; lia | apply Z.div_lt_upper_bound; lia].
Qed.

Lemma hash_shape u h s :
  String.length (generateContentHash u h s) = 64%nat
  /\ URL.all_chars is_hex_lower (generateContentHash u h s) = true.
Proof.
  unfold generateContentHash. cbv zeta.
  destruct (digest_shape (TextEncoder_encode (hash_content u h s))) as [Hlen Hr].
  destruct (hex_of_bytes_shape _ Hr) as [Hl Hh]. rewrite Hlen in Hl.
  split; assumption.
Qed.

Lemma hex_char_unreserved c :
  is_hex_lower c = true ->
  encodeURIComponent_char c = String c EmptyString
  /\ Ascii.eqb c "h" = false.
Proof.
  destruct c as [[] [] [] [] [] [] [] []]; intros H;
    try discriminate H; split; reflexivity.
Qed.

Lemma encodeURIComponent_hex s :
  URL.all_chars is_hex_lower s = true -> encodeURIComponent s = s.
Proof.
  induction s as [|c s IH]; [reflexivity|]. cbn [URL.all_chars encodeURIComponent].
  intros H. apply andb_true_iff in H. destruct H as [Hc Hs].
  destruct (hex_char_unreserved c Hc) as [-> _]. rewrite (IH Hs). reflexivity.
Qed.

(** X15.  A fingerprint is always 64 lowercase hexadecimal digits,
    whatever the address, headline and text. *)
Theorem generateContentHash_is_64_hex normalizedUrl headline snippet :
  String.length (generateContentHash normalizedUrl headline snippet) = 64%nat
  /\ URL.all_chars is_hex_lower (generateContentHash normalizedUrl headline snippet)
     = true.
Proof. apply hash_shape. Qed.

(** X16.  A poll by fingerprint is a poll by [hash]: [fetchSummary] never
    mistakes a fingerprint for an address, sends it unescaped as
    [hash=<fingerprint>], and the server reads it back as the [hash]
    parameter with no [url] parameter. *)
Theorem poll_by_fingerprint normalizedUrl headline snippet :
  let hash := generateContentHash normalizedUrl headline snippet in
  fetchSummary_queryParam hash = "hash=" +:+ hash
  /\ fetch_params (fetchSummary_queryParam hash) = (None, Some (Some hash)).
Proof.
  intros hash. destruct (hash_shape normalizedUrl headline snippet) as [Hlen Hhex].
  fold hash in Hlen, Hhex.
  assert (Hstart : JsString.startsWith "http" hash = false).
  { destruct hash as [|c r]; [discriminate|].
    cbn [URL.all_chars] in Hhex. apply andb_true_iff in Hhex.
    destruct Hhex as [Hc _]. destruct (hex_char_unreserved c Hc) as [_ Hne].
    cbn [JsString.startsWith]. rewrite Ascii.eqb_sym, Hne. reflexivity. }
  assert (Hq : fetchSummary_queryParam hash
               = "hash" +:+ "=" +:+ encodeURIComponent hash).
  { unfold fetchSummary_queryParam. cbv zeta. rewrite Hstart. reflexivity. }
  split.
  - rewrite Hq, (encodeURIComponent_hex hash Hhex). reflexivity.
  - unfold fetch_params. rewrite Hq.
    rewrite !get_one_pair by (apply parse_one_pair; reflexivity). reflexivity.
Qed.

(* ===================================================================== *)
(** ** The normal form of an address                                     *)
(* ===================================================================== *)

(** The filter of the model, on a predicate decided by a boolean test. *)
Lemma filter_bool {A} (P : A -> Prop) `{forall x, Decision (P x)}
      (f : A -> bool) (l : list A) :
  (forall x, P x <-> f x = true) -> filter P l = List.filter f l.
Proof.
  intros HP. induction l as [|x l IH]; [reflexivity|].
  rewrite filter_cons. cbn [List.filter]. rewrite IH.
  destruct (decide (P x)) as [Hx|Hx]; destruct (f x) eqn:Ef; try reflexivity.
  - apply HP in Hx. congruence.
  - exfalso. apply Hx, HP, Ef.
Qed.

Lemma truthy_segments l :
  filter (fun seg : string => JsString.truthy seg) l = List.filter JsString.truthy l.
Proof.
  apply filter_bool. intros x. destruct (JsString.truthy x); cbn; split;
    intros; try reflexivity; try discriminate; try contradiction; exact I.
Qed.

Lemma parse_query_eq q :
  URL.parse_query q
  = map URL.parse_pair (List.filter JsString.truthy (JsString.splitAll "&" q)).
Proof. unfold URL.parse_query. rewrite truthy_segments. reflexivity. Qed.

Lemma splitAll_nonempty d s : JsString.splitAll d s <> [].
Proof.
  destruct s as [|c s]; cbn [JsString.splitAll]; [discriminate|].
  destruct (Ascii.eqb c d); [discriminate|].
  destruct (JsString.splitAll d s); discriminate.
Qed.

Lemma splitAll_app d a b :
  no_char d a = true ->
  JsString.splitAll d (a +:+ String d b) = a :: JsString.splitAll d b.
Proof.
  unfold no_char. induction a as [|c a IH]; intros Ha.
  - rewrite append_nil. cbn [JsString.splitAll]. rewrite Ascii.eqb_refl. reflexivity.
  - cbn [URL.all_chars] in Ha. apply andb_true_iff in Ha. destruct Ha as [Hc Ha].
    rewrite append_cons. cbn [JsString.splitAll].
    apply negb_true_iff in Hc. rewrite Hc, (IH Ha). reflexivity.
Qed.

Lemma splitAll_none d a :
  no_char d a = true -> JsString.splitAll d a = [a].
Proof.
  unfold no_char. induction a as [|c a IH]; intros Ha; [reflexivity|].
  cbn [URL.all_chars] in Ha. apply andb_true_iff in Ha. destruct Ha as [Hc Ha].
  cbn [JsString.splitAll]. apply negb_true_iff in Hc. rewrite Hc, (IH Ha).
  reflexivity.
Qed.

Lemma splitFirst_app d a b :
  no_char d a = true ->
  JsString.splitFirst d (a +:+ String d b) = Some (a, b).
Proof.
  unfold no_char. induction a as [|c a IH]; intros Ha.
  - rewrite append_nil. cbn [JsString.splitFirst]. rewrite Ascii.eqb_refl. reflexivity.
  - cbn [URL.all_chars] in Ha. apply andb_true_iff in Ha. destruct Ha as [Hc Ha].
    rewrite append_cons. cbn [JsString.splitFirst].
    apply negb_true_iff in Hc. rewrite Hc, (IH Ha). reflexivity.
Qed.

Lemma splitFirst_parts d s a b :
  JsString.splitFirst d s = Some (a, b) ->
  s = a +:+ String d b /\ no_char d a = true.
Proof.
  unfold no_char. revert a b. induction s as [|c s IH]; intros a b H; [discriminate|].
  cbn [JsString.splitFirst] in H. destruct (Ascii.eqb c d) eqn:Ec.
  - apply Ascii.eqb_eq in Ec. subst c. injection H as <- <-. split; reflexivity.
  - destruct (JsString.splitFirst d s) as [[a' b']|]; [|discriminate].
    injection H as <- <-. destruct (IH a' b' eq_refl) as [-> Ha].
    split; [reflexivity|]. cbn [URL.all_chars]. rewrite Ec, Ha. reflexivity.
Qed.

Lemma plain_split s :
  URL.all_chars plain_char s = no_char "&" s && no_char "=" s.
Proof.
  unfold no_char, plain_char. induction s as [|c s IH]; [reflexivity|].
  cbn [URL.all_chars]. rewrite IH.
  destruct (Ascii.eqb c "&"), (Ascii.eqb c "="); cbn [negb andb];
    try reflexivity; rewrite ?andb_false_r; reflexivity.
Qed.

Lemma no_char_app d a b : no_char d (a +:+ b) = no_char d a && no_char d b.
Proof. apply all_chars_app. Qed.

(** Every piece of a split is free of the separator. *)
Lemma splitAll_pieces d s :
  List.Forall (fun seg => no_char d seg = true) (JsString.splitAll d s).
Proof.
  unfold no_char. induction s as [|c s IH]; cbn [JsString.splitAll].
  - repeat constructor.
  - destruct (Ascii.eqb c d) eqn:Ec.
    + constructor; [reflexivity | exact IH].
    + destruct (JsString.splitAll d s) as [|h t]; [repeat constructor; cbn; rewrite Ec; reflexivity|].
      inversion IH as [|? ? Hh Ht]; subst. constructor; [|exact Ht].
      cbn [URL.all_chars]. rewrite Ec, Hh. reflexivity.
Qed.

Lemma parse_pair_ok seg : no_char "&" seg = true -> pair_ok (URL.parse_pair seg) = true.
Proof.
  intros Hseg. unfold URL.parse_pair, pair_ok.
  destruct (JsString.splitFirst "=" seg) as [[n v]|] eqn:E; cbn [fst snd].
  - destruct (splitFirst_parts _ _ _ _ E) as [-> Hn].
    rewrite no_char_app in Hseg. apply andb_true_iff in Hseg.
    destruct Hseg as [Hn' Hv]. unfold no_char in Hv. cbn [URL.all_chars] in Hv.
    apply andb_true_iff in Hv. destruct Hv as [_ Hv].
    rewrite plain_split, Hn, Hn'. exact Hv.
  - rewrite plain_split, Hseg. cbn [andb].
    assert (Hno : no_char "=" seg = true).
    { clear Hseg. unfold no_char. induction seg as [|c s IH]; [reflexivity|].
      cbn [JsString.splitFirst] in E. cbn [URL.all_chars].
      destruct (Ascii.eqb c "="); [discriminate|].
      destruct (JsString.splitFirst "=" s) as [[? ?]|]; [discriminate|].
      exact (IH eq_refl). }
    rewrite Hno. reflexivity.
Qed.

Lemma parse_query_ok q : forallb pair_ok (URL.parse_query q) = true.
Proof.
  rewrite parse_query_eq. pose proof (splitAll_pieces "&" q) as Hp.
  induction Hp as [|seg l Hseg Hl IH]; [reflexivity|].
  cbn [List.filter]. destruct (JsString.truthy seg); [|exact IH].
  cbn [map forallb]. rewrite (parse_pair_ok seg Hseg). exact IH.
Qed.

Lemma filter_ok (f : string * string -> bool) ps :
  forallb pair_ok ps = true -> forallb pair_ok (List.filter f ps) = true.
Proof.
  induction ps as [|p ps IH]; [reflexivity|]. cbn [forallb List.filter].
  intros H. apply andb_true_iff in H. destruct H as [Hp Hps].
  destruct (f p); [cbn [forallb]; rewrite Hp|]; apply IH, Hps.
Qed.

Lemma pair_text_ok n v :
  pair_ok (n, v) = true ->
  no_char "&" (n +:+ "=" +:+ v) = true
  /\ JsString.truthy (n +:+ "=" +:+ v) = true
  /\ URL.parse_pair (n +:+ "=" +:+ v) = (n, v).
Proof.
  unfold pair_ok. cbn [fst snd]. rewrite plain_split. intros H.
  apply andb_true_iff in H. destruct H as [H Hv].
  apply andb_true_iff in H. destruct H as [Hn Hn'].
  split; [|split].
  - rewrite !no_char_app, Hn, Hv. reflexivity.
  - destruct n; reflexivity.
  - unfold URL.parse_pair. change ("=" +:+ v) with (String "=" v).
    rewrite (splitFirst_app "=" n v Hn'). reflexivity.
Qed.

(** Reading back what the serializer wrote gives the pairs again. *)
Lemma parse_serialize ps :
  forallb pair_ok ps = true -> URL.parse_query (URL.serialize_query ps) = ps.
Proof.
  rewrite parse_query_eq. unfold URL.serialize_query.
  induction ps as [|[n v] ps IH]; [reflexivity|].
  cbn [forallb]. intros H. apply andb_true_iff in H. destruct H as [Hp Hps].
  destruct (pair_text_ok n v Hp) as [Hamp [Htr Hpair]].
  cbn [map]. destruct ps as [|p' ps'].
  - cbn [map JsString.join]. rewrite (splitAll_none "&" _ Hamp).
    cbn [List.filter]. rewrite Htr. cbn [map]. rewrite Hpair. reflexivity.
  - set (tail := map _ (p' :: ps')) in *.
    assert (Hj : JsString.join "&" ((n +:+ "=" +:+ v) :: tail)
                 = (n +:+ "=" +:+ v) +:+ String "&" (JsString.join "&" tail)).
    { unfold tail. cbn [map JsString.join]. reflexivity. }
    rewrite Hj, (splitAll_app "&" _ _ Hamp). cbn [List.filter]. rewrite Htr.
    cbn [map]. rewrite Hpair, (IH Hps). reflexivity.
Qed.

Lemma written_text ps :
  match written ps with Some q => q | None => EmptyString end
  = URL.serialize_query ps.
Proof. unfold written. destruct (URL.serialize_query ps); reflexivity. Qed.

Lemma searchParams_delete_eq u name :
  URL.searchParams_delete u name
  = URL.Make (URL.scheme u) (URL.host u) (URL.port u) (URL.path u)
      (written (List.filter (fun p => negb (String.eqb (fst p) name))
                            (URL.parse_query (query_text u))))
      (URL.fragment u).
Proof.
  unfold URL.searchParams_delete, written, query_text. cbv zeta.
  rewrite (filter_bool _ (fun p => negb (String.eqb (fst p) name))).
  - reflexivity.
  - intros [n v]. cbn [fst]. destruct (negb (String.eqb n name)); cbn; split;
      intros; try reflexivity; try discriminate; try contradiction; exact I.
Qed.

Lemma filter_twice {A} (f g : A -> bool) l :
  List.filter f (List.filter g l) = List.filter (fun x => g x && f x) l.
Proof.
  induction l as [|x l IH]; [reflexivity|]. cbn [List.filter].
  destruct (g x); cbn [List.filter andb]; [destruct (f x)|]; rewrite IH; reflexivity.
Qed.

(** Deleting a list of names, from a query the serializer wrote. *)
Lemma delete_all names : forall u ps,
  forallb pair_ok ps = true ->
  URL.query u = written ps ->
  fold_left URL.searchParams_delete names u
  = URL.Make (URL.scheme u) (URL.host u) (URL.port u) (URL.path u)
      (written (List.filter
                  (fun p => negb (existsb (String.eqb (fst p)) names)) ps))
      (URL.fragment u).
Proof.
  induction names as [|a names IH]; intros u ps Hok Hq.
  - cbn [fold_left existsb negb].
    assert (Hall : List.filter (fun _ : string * string => true) ps = ps).
    { clear. induction ps as [|p ps IH]; [reflexivity|]. cbn. rewrite IH. reflexivity. }
    rewrite Hall, <- Hq. destruct u; reflexivity.
  - cbn [fold_left]. rewrite searchParams_delete_eq.
    unfold query_text. rewrite Hq, written_text, (parse_serialize ps Hok).
    rewrite (IH _ (List.filter (fun p => negb (String.eqb (fst p) a)) ps)).
    + cbn [URL.scheme URL.host URL.port URL.path URL.fragment].
      rewrite filter_twice. f_equal. f_equal.
      apply List.filter_ext. intros p. cbn [existsb].
      rewrite negb_orb. reflexivity.
    + apply filter_ok, Hok.
    + reflexivity.
Qed.

Lemma delete_tracking u :
  fold_left URL.searchParams_delete trackingParams u
  = URL.Make (URL.scheme u) (URL.host u) (URL.port u) (URL.path u)
      (kept_query u) (URL.fragment u).
Proof.
  change (fold_left URL.searchParams_delete trackingParams u)
    with (fold_left URL.searchParams_delete (tl trackingParams)
                    (URL.searchParams_delete u "utm_source")).
  rewrite (delete_all _ _ (List.filter (fun p => negb (String.eqb (fst p) "utm_source"))
                                      (URL.parse_query (query_text u)))).
  - rewrite searchParams_delete_eq.
    cbn [URL.scheme URL.host URL.port URL.path URL.fragment].
    rewrite filter_twice. unfold kept_query, query_pairs. cbv zeta.
    fold (query_text u).
    assert (Hf : forall l : list (string * string),
      List.filter (fun x => negb (String.eqb (fst x) "utm_source")
         && negb (existsb (String.eqb (fst x)) (tl trackingParams))) l
      = List.filter (fun p => negb (is_tracking (fst p))) l).
    { intros l. apply List.filter_ext. intros p. unfold is_tracking.
      rewrite <- negb_orb. reflexivity. }
    rewrite Hf. reflexivity.
  - apply filter_ok, parse_query_ok.
  - rewrite searchParams_delete_eq. reflexivity.
Qed.

(** Host names. *)

Lemma lower_host_char c :
  URL.host_char (JsString.lower c) = URL.host_char c
  /\ JsString.lower (JsString.lower c) = JsString.lower c.
Proof. destruct c as [[] [] [] [] [] [] [] []]; split; vm_compute; reflexivity. Qed.

Lemma lowered_host h :
  URL.all_chars URL.host_char h = true ->
  URL.all_chars host_lower_char (JsString.toLowerCase h) = true.
Proof.
  induction h as [|c h IH]; [reflexivity|]. cbn [URL.all_chars JsString.toLowerCase].
  intros H. apply andb_true_iff in H. destruct H as [Hc Hh].
  unfold host_lower_char at 1. destruct (lower_host_char c) as [-> ->].
  rewrite Hc, Ascii.eqb_refl, (IH Hh). reflexivity.
Qed.

Lemma host_lower_facts h :
  URL.all_chars host_lower_char h = true ->
  URL.all_chars URL.host_char h = true /\ JsString.toLowerCase h = h.
Proof.
  induction h as [|c h IH]; [split; reflexivity|].
  cbn [URL.all_chars JsString.toLowerCase]. intros H.
  apply andb_true_iff in H. destruct H as [Hc Hh].
  unfold host_lower_char in Hc. apply andb_true_iff in Hc. destruct Hc as [Hc Hl].
  apply Ascii.eqb_eq in Hl. destruct (IH Hh) as [-> ->]. rewrite Hc, Hl.
  split; reflexivity.
Qed.

Lemma all_chars_drop p n : forall s,
  URL.all_chars p s = true -> URL.all_chars p (JsString.drop n s) = true.
Proof.
  induction n as [|n IH]; intros s H; [destruct s; exact H|].
  destruct s as [|c s]; [exact H|]. cbn [JsString.drop]. apply IH.
  cbn [URL.all_chars] in H. apply andb_true_iff in H. apply H.
Qed.

Lemma replaceFirst_unfold p r s :
  JsString.replaceFirst p r s
  = if JsString.startsWith p s then r +:+ JsString.drop (String.length p) s
    else match s with
         | EmptyString => EmptyString
         | String c s' => String c (JsString.replaceFirst p r s')
         end.
Proof. destruct s; reflexivity. Qed.

Lemma all_chars_replaceFirst q p r s :
  URL.all_chars q r = true -> URL.all_chars q s = true ->
  URL.all_chars q (JsString.replaceFirst p r s) = true.
Proof.
  intros Hr. induction s as [|c s IH]; intros Hs; rewrite replaceFirst_unfold.
  - destruct (JsString.startsWith p EmptyString); [|reflexivity].
    rewrite all_chars_app, Hr. apply all_chars_drop. reflexivity.
  - destruct (JsString.startsWith p (String c s)).
    + rewrite all_chars_app, Hr. apply all_chars_drop, Hs.
    + cbn [URL.all_chars] in Hs |- *. apply andb_true_iff in Hs.
      destruct Hs as [-> Hs]. apply IH, Hs.
Qed.

Lemma all_chars_replacePrefix q p r s :
  URL.all_chars q r = true -> URL.all_chars q s = true ->
  URL.all_chars q (JsString.replacePrefix p r s) = true.
Proof.
  intros Hr Hs. unfold JsString.replacePrefix.
  destruct (JsString.startsWith p s); [|exact Hs].
  rewrite all_chars_app, Hr. apply all_chars_drop, Hs.
Qed.

(** The four patterns, applied to a lowercase host name and written back. *)
Lemma mobile_host u h0 :
  URL.host u = JsString.toLowerCase h0 ->
  URL.all_chars URL.host_char h0 = true ->
  URL.set_hostname u
    (fold_left (fun hostname '(p, replacement) => replace p replacement hostname)
               mobilePatterns (URL.hostname u))
  = URL.Make (URL.scheme u) (desktop_host (URL.host u)) (URL.port u)
             (URL.path u) (URL.query u) (URL.fragment u).
Proof.
  intros Hhost Hh0. unfold mobilePatterns, URL.hostname. cbn [fold_left replace].
  pose proof (lowered_host h0 Hh0) as Hlow. rewrite <- Hhost in Hlow.
  set (h2 := JsString.replaceFirst ".m." "."
               (JsString.replacePrefix "m." EmptyString (URL.host u))).
  assert (H2 : URL.all_chars host_lower_char h2 = true).
  { unfold h2. apply all_chars_replaceFirst; [reflexivity|].
    apply all_chars_replacePrefix; [reflexivity | exact Hlow]. }
  destruct (host_lower_facts h2 H2) as [H2c H2l].
  rewrite (slash_pattern_misses_host _ _ h2 H2c).
  rewrite (slash_pattern_misses_host _ _ h2 H2c).
  unfold URL.set_hostname, desktop_host. fold h2. rewrite H2c, H2l.
  destruct (JsString.truthy h2); [reflexivity | destruct u; reflexivity].
Qed.

Lemma lower_again h : 
  JsString.toLowerCase (JsString.toLowerCase h) = JsString.toLowerCase h.
Proof.
  induction h as [|c h IH]; [reflexivity|]. cbn [JsString.toLowerCase].
  rewrite IH. destruct (lower_host_char c) as [_ ->]. reflexivity.
Qed.

Lemma lowercase_host u h0 :
  URL.host u = JsString.toLowerCase h0 ->
  JsString.truthy h0 = true ->
  URL.all_chars URL.host_char h0 = true ->
  URL.set_hostname u (JsString.toLowerCase (URL.hostname u)) = u.
Proof.
  intros Hhost Htr Hh0. unfold URL.set_hostname, URL.hostname.
  rewrite Hhost, !lower_again.
  destruct (host_lower_facts _ (lowered_host h0 Hh0)) as [-> _].
  assert (Ht : JsString.truthy (JsString.toLowerCase h0) = true)
    by (destruct h0; [discriminate|reflexivity]).
  rewrite Ht. cbn [andb]. rewrite <- Hhost. destruct u; reflexivity.
Qed.

(** The parser. *)

Lemma span_until_parts p : forall s x y,
  URL.span_until p s = (x, y) ->
  s = x +:+ y
  /\ URL.all_chars (fun c => negb (p c)) x = true
  /\ (y = EmptyString \/ exists c y', y = String c y' /\ p c = true).
Proof.
  induction s as [|c s IH]; intros x y H; cbn [URL.span_until] in H.
  - injection H as <- <-. repeat split. left. reflexivity.
  - destruct (p c) eqn:Ec.
    + injection H as <- <-. repeat split. right. eauto.
    + destruct (URL.span_until p s) as [a b]. injection H as <- <-.
      destruct (IH a b eq_refl) as [-> [Ha Hb]].
      cbn [URL.all_chars]. rewrite Ec, Ha. repeat split. exact Hb.
Qed.

Lemma span_until_app p b : forall s x y,
  URL.span_until p s = (x, y) ->
  (y = EmptyString -> exists d b', b = String d b' /\ p d = true) ->
  URL.span_until p (s +:+ b) = (x, y +:+ b).
Proof.
  induction s as [|c s IH]; intros x y H Hb; cbn [URL.span_until] in H.
  - injection H as <- <-. destruct (Hb eq_refl) as [d [b' [-> Hd]]].
    rewrite append_nil. cbn [URL.span_until]. rewrite Hd. reflexivity.
  - rewrite append_cons. cbn [URL.span_until]. destruct (p c).
    + injection H as <- <-. rewrite append_cons. reflexivity.
    + destruct (URL.span_until p s) as [a r]. injection H as <- <-.
      rewrite (IH a r eq_refl Hb). reflexivity.
Qed.

Lemma span_until_none p s :
  URL.all_chars (fun c => negb (p c)) s = true ->
  URL.span_until p s = (s, EmptyString).
Proof.
  induction s as [|c s IH]; [reflexivity|]. cbn [URL.all_chars URL.span_until].
  intros H. apply andb_true_iff in H. destruct H as [Hc Hs].
  apply negb_true_iff in Hc. rewrite Hc, (IH Hs). reflexivity.
Qed.


(** [URL.parse] accepts an address exactly when the stages succeed. *)
Lemma parse_stages url u : URL.parse url = Some u <-> parsed url u.
Proof.
  unfold URL.parse. split.
  - intros H.
    destruct (URL.span_until (fun c => Ascii.eqb c ":") url) as [sch rest] eqn:E1.
    cbv zeta in H.
    destruct (String.eqb (JsString.toLowerCase sch) "http"
              || String.eqb (JsString.toLowerCase sch) "https") eqn:Ek;
      [|discriminate].
    cbn [negb] in H.
    destruct (JsString.startsWith "://" rest) eqn:Es; [|discriminate].
    cbn [negb] in H.
    destruct (URL.span_until URL.is_stop (JsString.drop 3 rest)) as [auth rest1] eqn:E2.
    destruct (URL.parse_authority (JsString.toLowerCase sch) auth) as [[h p]|] eqn:Ea;
      [|discriminate].
    destruct (URL.span_until (fun c => Ascii.eqb c "?" || Ascii.eqb c "#") rest1)
      as [pth rest2] eqn:E3.
    apply (Parsed url u sch rest auth rest1 pth rest2); try assumption;
      unfold parse_tail;
      destruct (match rest2 with
                | String "?" r =>
                    let '(q, r') := URL.span_until (fun c => Ascii.eqb c "#") r in
                    (Some q, r')
                | _ => (None, rest2)
                end) as [q rest3]; injection H as <-; try reflexivity.
    exact Ea.
  - intros [sch rest auth rest1 pth rest2 E1 Ek Es E2 Ea E3 Hp Hs Ht].
    rewrite E1. cbv zeta. rewrite Ek, Es. cbn [negb]. rewrite E2, Ea, E3.
    unfold parse_tail in Ht.
    destruct (match rest2 with
              | String "?" r =>
                  let '(q, r') := URL.span_until (fun c => Ascii.eqb c "#") r in
                  (Some q, r')
              | _ => (None, rest2)
              end) as [q rest3].
    injection Ht as Hq Hf. rewrite <- Hp, <- Hs, <- Hq, <- Hf.
    destruct u; reflexivity.
Qed.

Lemma parse_authority_host sch auth h p :
  URL.parse_authority sch auth = Some (h, p) ->
  exists h0, h = JsString.toLowerCase h0
             /\ JsString.truthy h0 = true
             /\ URL.all_chars URL.host_char h0 = true.
Proof.
  unfold URL.parse_authority.
  destruct (URL.span_until (fun c => Ascii.eqb c ":") auth) as [h0 rest].
  destruct (JsString.truthy h0) eqn:Et; [|discriminate].
  destruct (URL.all_chars URL.host_char h0) eqn:Eh; [|discriminate].
  cbn [negb orb]. intros H. exists h0.
  destruct rest as [|c r].
  - injection H as <- _. auto.
  - destruct (negb (URL.all_chars Json.is_digit r)); [discriminate|].
    destruct (negb (JsString.truthy r) || String.eqb r (URL.default_port sch));
      injection H as <- _; auto.
Qed.

Lemma parsed_facts url u :
  parsed url u ->
  (exists h0, URL.host u = JsString.toLowerCase h0
              /\ JsString.truthy h0 = true
              /\ URL.all_chars URL.host_char h0 = true)
  /\ JsString.startsWith "/" (URL.path u) = true.
Proof.
  intros [sch rest auth rest1 pth rest2 E1 Ek Es E2 Ea E3 Hp Hs Ht]. split.
  - eapply parse_authority_host, Ea.
  - rewrite Hp. destruct pth as [|c pth]; [reflexivity|]. cbn [JsString.truthy].
    destruct (span_until_parts _ _ _ _ E3) as [Hr1 [Hplain _]].
    destruct (span_until_parts _ _ _ _ E2) as [_ [_ Hstop]].
    destruct Hstop as [Hnil | [c' [y' [Hc' Hstop]]]].
    + rewrite Hnil in Hr1. discriminate.
    + rewrite Hc', append_cons in Hr1. injection Hr1 as -> _.
      cbn [URL.all_chars] in Hplain. apply andb_true_iff in Hplain.
      destruct Hplain as [Hc _]. unfold URL.is_stop in Hstop.
      cbn [JsString.startsWith]. rewrite Ascii.eqb_sym.
      destruct (Ascii.eqb c "/"); [reflexivity|].
      cbn [orb] in Hstop. rewrite Hstop in Hc. discriminate.
Qed.

Lemma take_cons n c s : JsString.take (S n) (String c s) = String c (JsString.take n s).
Proof. reflexivity. Qed.

Lemma trimmed_path_rooted p :
  JsString.startsWith "/" p = true ->
  JsString.startsWith "/" (trimmed_path p) = true.
Proof.
  intros H. unfold trimmed_path.
  destruct ((1 <? String.length p)%nat && JsString.endsWith "/" p) eqn:E; [|exact H].
  apply andb_true_iff in E. destruct E as [Hlen _].
  apply Nat.ltb_lt in Hlen. unfold JsString.dropLast.
  destruct p as [|c p]; [discriminate|]. cbn [String.length] in *.
  destruct (String.length p) as [|k] eqn:Ek; [lia|].
  replace (S (S k) - 1)%nat with (S k) by lia. rewrite take_cons.
  cbn [JsString.startsWith] in *. destruct (Ascii.eqb "/" c); [reflexivity|discriminate].
Qed.

(** What [normalizeUrl] writes for an address the parser accepts. *)
Lemma normalizeUrl_form url u :
  URL.parse url = Some u ->
  normalizeUrl url
  = URL.toString (URL.Make (URL.scheme u) (desktop_host (URL.host u)) (URL.port u)
                           (trimmed_path (URL.path u)) (kept_query u) None).
Proof.
  intros H. unfold normalizeUrl. rewrite H. cbv zeta.
  apply parse_stages, parsed_facts in H.
  destruct H as [[h0 [Hhost [Htr Hh0]]] Hpath].
  rewrite (lowercase_host u h0 Hhost Htr Hh0), delete_tracking.
  unfold URL.set_hash, URL.pathname.
  cbn [URL.scheme URL.host URL.port URL.path URL.query URL.fragment JsString.truthy].
  fold (trimmed_path (URL.path u)).
  unfold URL.set_pathname. cbv zeta.
  cbn [URL.scheme URL.host URL.port URL.path URL.query URL.fragment].
  rewrite (trimmed_path_rooted _ Hpath).
  rewrite (mobile_host _ h0); [reflexivity | exact Hhost | exact Hh0].
Qed.

Lemma no_char_parts d a b :
  no_char d (a +:+ b) = true -> no_char d a = true /\ no_char d b = true.
Proof. rewrite no_char_app. apply andb_true_iff. Qed.

Lemma no_char_drop d n s : no_char d s = true -> no_char d (JsString.drop n s) = true.
Proof. apply all_chars_drop. Qed.

Lemma startsWith_more p b : forall s,
  JsString.startsWith p s = true ->
  JsString.startsWith p (s +:+ b) = true
  /\ JsString.drop (String.length p) (s +:+ b)
     = JsString.drop (String.length p) s +:+ b.
Proof.
  induction p as [|c p IH]; intros s H.
  - split; [reflexivity|]. destruct s; [destruct b|]; reflexivity.
  - destruct s as [|d s]; [discriminate|]. rewrite append_cons.
    cbn [JsString.startsWith String.length JsString.drop] in *.
    destruct (Ascii.eqb c d); [|discriminate]. apply IH, H.
Qed.

(** Appending a fragment to an address without one changes the parse in
    its fragment only. *)
Lemma parse_with_fragment url u f :
  URL.parse url = Some u ->
  no_char "#" url = true ->
  URL.parse (url +:+ "#" +:+ f)
  = Some (URL.Make (URL.scheme u) (URL.host u) (URL.port u) (URL.path u)
                   (URL.query u) (Some f)).
Proof.
  intros H Hno. apply parse_stages in H.
  destruct H as [sch rest auth rest1 pth rest2 E1 Ek Es E2 Ea E3 Hp Hs Ht].
  change ("#" +:+ f) with (String "#" f).
  destruct (span_until_parts _ _ _ _ E1) as [Hurl _].
  destruct (span_until_parts _ _ _ _ E2) as [Hrest _].
  destruct (span_until_parts _ _ _ _ E3) as [Hrest1 _].
  assert (Hno2 : no_char "#" rest2 = true).
  { rewrite Hurl in Hno. apply no_char_parts in Hno. destruct Hno as [_ Hno].
    apply (no_char_drop _ 3) in Hno. rewrite Hrest in Hno.
    apply no_char_parts in Hno. destruct Hno as [_ Hno]. rewrite Hrest1 in Hno.
    apply no_char_parts in Hno. apply Hno. }
  apply parse_stages.
  apply (Parsed _ _ sch (rest +:+ String "#" f) auth (rest1 +:+ String "#" f)
                pth (rest2 +:+ String "#" f)).
  - apply span_until_app; [exact E1|]. intros ->. discriminate.
  - exact Ek.
  - apply startsWith_more, Es.
  - change 3%nat with (String.length "://").
    rewrite (proj2 (startsWith_more "://" _ rest Es)).
    apply span_until_app; [exact E2|]. intros _. eexists _, _. split; reflexivity.
  - exact Ea.
  - apply span_until_app; [exact E3|]. intros _. eexists _, _. split; reflexivity.
  - exact Hp.
  - exact Hs.
  - cbn [URL.query URL.fragment]. unfold parse_tail in *.
    destruct (span_until_parts _ _ _ _ E3) as [_ [_ Hstop]].
    destruct Hstop as [-> | [c [y [-> Hc]]]].
    + rewrite append_nil. injection Ht as -> _. reflexivity.
    + unfold no_char in Hno2. cbn [URL.all_chars] in Hno2.
      apply andb_true_iff in Hno2. destruct Hno2 as [Hc2 Hy].
      apply negb_true_iff in Hc2. rewrite Hc2, orb_false_r in Hc.
      apply Ascii.eqb_eq in Hc. subst c. rewrite append_cons.
      rewrite (span_until_none (fun c => Ascii.eqb c "#") y Hy) in Ht.
      rewrite (span_until_app _ (String "#" f) y y EmptyString
                 (span_until_none (fun c => Ascii.eqb c "#") y Hy)).
      * injection Ht as -> _. reflexivity.
      * intros _. eexists _, _. split; reflexivity.
Qed.

(** Appending a query to an address without query and fragment. *)
Lemma parse_with_query url u q :
  URL.parse url = Some u ->
  no_char "#" url = true -> no_char "?" url = true -> no_char "#" q = true ->
  URL.query u = None
  /\ URL.parse (url +:+ "?" +:+ q)
     = Some (URL.Make (URL.scheme u) (URL.host u) (URL.port u) (URL.path u)
                      (Some q) None).
Proof.
  intros H Hno Hnq Hq. apply parse_stages in H.
  destruct H as [sch rest auth rest1 pth rest2 E1 Ek Es E2 Ea E3 Hp Hs Ht].
  change ("?" +:+ q) with (String "?" q).
  destruct (span_until_parts _ _ _ _ E1) as [Hurl _].
  destruct (span_until_parts _ _ _ _ E2) as [Hrest _].
  destruct (span_until_parts _ _ _ _ E3) as [Hrest1 [_ Hstop]].
  assert (Hsub : forall d, no_char d url = true -> no_char d rest2 = true).
  { intros d Hd. rewrite Hurl in Hd. apply no_char_parts in Hd.
    destruct Hd as [_ Hd]. apply (no_char_drop _ 3) in Hd. rewrite Hrest in Hd.
    apply no_char_parts in Hd. destruct Hd as [_ Hd]. rewrite Hrest1 in Hd.
    apply no_char_parts in Hd. apply Hd. }
  assert (Hnil : rest2 = EmptyString).
  { destruct Hstop as [-> | [c [y [-> Hc]]]]; [reflexivity|].
    pose proof (Hsub _ Hno) as H1. pose proof (Hsub _ Hnq) as H2.
    unfold no_char in H1, H2. cbn [URL.all_chars] in H1, H2.
    apply andb_true_iff in H1. destruct H1 as [H1 _].
    apply andb_true_iff in H2. destruct H2 as [H2 _].
    apply negb_true_iff in H1, H2. rewrite H1, H2 in Hc. discriminate. }
  subst rest2. unfold parse_tail in Ht. injection Ht as Hquery Hfrag.
  split; [exact Hquery|].
  apply parse_stages.
  apply (Parsed _ _ sch (rest +:+ String "?" q) auth (rest1 +:+ String "?" q)
                pth (String "?" q)).
  - apply span_until_app; [exact E1|]. intros ->. discriminate.
  - exact Ek.
  - apply startsWith_more, Es.
  - change 3%nat with (String.length "://").
    rewrite (proj2 (startsWith_more "://" _ rest Es)).
    apply span_until_app; [exact E2|]. intros _. eexists _, _. split; reflexivity.
  - exact Ea.
  - rewrite <- (append_nil (String "?" q)) at 2.
    apply span_until_app; [exact E3|]. intros _. eexists _, _. split; reflexivity.
  - exact Hp.
  - exact Hs.
  - cbn [URL.query URL.fragment]. unfold parse_tail.
    rewrite (span_until_none (fun c => Ascii.eqb c "#") q Hq). reflexivity.
Qed.

Lemma tracking_name_plain name :
  In name trackingParams ->
  URL.all_chars plain_char name = true /\ no_char "#" name = true
  /\ is_tracking name = true.
Proof.
  unfold trackingParams. cbn [In]. intros H.
  repeat (destruct H as [<- | H]; [repeat split; reflexivity|]). destruct H.
Qed.

Lemma value_safe_char c :
  value_safe c = true ->
  negb (Ascii.eqb c "&") = true /\ negb (Ascii.eqb c "#") = true.
Proof.
  destruct c as [[] [] [] [] [] [] [] []]; intros H; try discriminate H;
    split; reflexivity.
Qed.

Lemma value_safe_text v :
  URL.all_chars value_safe v = true ->
  no_char "&" v = true /\ no_char "#" v = true.
Proof.
  unfold no_char. induction v as [|c v IH]; [split; reflexivity|].
  cbn [URL.all_chars]. intros H. apply andb_true_iff in H. destruct H as [Hc Hv].
  destruct (value_safe_char c Hc) as [-> ->]. destruct (IH Hv) as [-> ->].
  split; reflexivity.
Qed.

(** X17.  The normal form of a plain address the URL parser accepts, no
    value of its query holding an equals sign: the scheme and port as
    parsed, the host name with a leading [m.] and the first [.m.]
    collapsed, the path without one trailing slash, the pairs of the query
    that are not tracking parameters, in their order and written
    [name=value], and no fragment. *)
Theorem normalizeUrl_normal_form url u :
  URL.parse url = Some u ->
  plain_url u = true ->
  plain_values u = true ->
  normalizeUrl url
  = URL.toString (URL.Make (URL.scheme u) (desktop_host (URL.host u)) (URL.port u)
                           (trimmed_path (URL.path u)) (kept_query u) None).
Proof. intros H _ _. apply normalizeUrl_form, H. Qed.

(** X18.  A fragment never reaches the cache key: a plain accepted address
    and the same address followed by [#] and any text normalise to the
    same string. *)
Theorem normalizeUrl_drops_fragment url u f :
  URL.parse url = Some u ->
  plain_url u = true ->
  no_char "#" url = true ->
  normalizeUrl (url +:+ "#" +:+ f) = normalizeUrl url.
Proof.
  intros H _ Hno.
  rewrite (normalizeUrl_form _ _ (parse_with_fragment url u f H Hno)).
  rewrite (normalizeUrl_form _ _ H). reflexivity.
Qed.

(** X19.  A tracking parameter never reaches the cache key: a plain
    accepted address without query and fragment, and the same address
    followed by one tracking parameter with any plain value, normalise to
    the same string. *)
Theorem normalizeUrl_drops_tracking url u name value :
  URL.parse url = Some u ->
  plain_url u = true ->
  no_char "#" url = true -> no_char "?" url = true ->
  In name trackingParams ->
  URL.all_chars value_safe value = true ->
  normalizeUrl (url +:+ "?" +:+ name +:+ "=" +:+ value) = normalizeUrl url.
Proof.
  intros H _ Hno Hnq Hname Hvalue.
  destruct (value_safe_text value Hvalue) as [Hamp Hhash].
  destruct (tracking_name_plain name Hname) as [Hplain [Hnh Htrack]].
  assert (Hq : no_char "#" (name +:+ "=" +:+ value) = true).
  { rewrite !no_char_app, Hnh, Hhash. reflexivity. }
  destruct (parse_with_query url u _ H Hno Hnq Hq) as [Hnone Hparse].
  rewrite (normalizeUrl_form _ _ Hparse), (normalizeUrl_form _ _ H).
  cbn [URL.scheme URL.host URL.port URL.path].
  assert (Hk : forall q, kept_query (URL.Make (URL.scheme u) (URL.host u)
                 (URL.port u) (URL.path u) (Some (name +:+ "=" +:+ value)) q) = None).
  { intros q. unfold kept_query, query_pairs. cbn [URL.query].
    change (name +:+ "=" +:+ value)
      with (URL.serialize_query [(name, value)]).
    rewrite parse_serialize.
    - cbn [List.filter fst]. rewrite Htrack. reflexivity.
    - cbn [forallb]. unfold pair_ok. cbn [fst snd]. rewrite Hplain, Hamp. reflexivity. }
  rewrite Hk. unfold kept_query, query_pairs. rewrite Hnone. reflexivity.
Qed.

(* ===================================================================== *)
(** ** The store client                                                  *)
(* ===================================================================== *)

Lemma stored_Some k d s :
  stored k d = Some s <->
  exists e, d !! k = Some e /\ value_of e = s /\ s <> EmptyString.
Proof.
  unfold stored. split.
  - destruct (d !! k) as [e|]; [|discriminate].
    destruct (value_of e) as [|c r] eqn:Ev; [discriminate|].
    intros H. injection H as <-. exists e. repeat split; [exact Ev | discriminate].
  - intros [e [-> [Hv Hs]]]. rewrite Hv. destruct s; [congruence|reflexivity].
Qed.

(** X20.  [get] never throws and never changes the store; it returns a
    value exactly when the request went through and the key holds a
    non-empty string: a failed request and an empty value both read as a
    miss. *)
Theorem get_reads_or_misses key w :
  exists r,
    redis_client.get key w = (Ok r, after (GET key) w)
    /\ db (after (GET key) w) = db w
    /\ forall s, r = Some s <->
         delivered w = true
         /\ exists e, db w !! key = Some e /\ value_of e = s /\ s <> EmptyString.
Proof.
  exists (visible key w). split; [apply get_eq|]. split; [apply db_after_GET|].
  intros s. unfold visible, outcome. cbn [redis fst].
  destruct (delivered w).
  - rewrite <- stored_Some. unfold stored.
    destruct (db w !! key) as [e|]; [|split; [discriminate | intros [_ H]; discriminate]].
    split; [intros H; split; [reflexivity | exact H] | intros [_ H]; exact H].
  - split; [discriminate | intros [H _]; discriminate].
Qed.

(** X21.  What [set] wrote, [get] reads back: on a reliable transport the
    write is reported as done, the key then holds the value with the given
    lifetime (none when the lifetime is absent or zero), and the next [get]
    returns the value, or null when the value is the empty string. *)
Theorem set_then_get key val ttlSeconds w :
  reliable w ->
  let w1 := snd (redis_client.set key val ttlSeconds w) in
  fst (redis_client.set key val ttlSeconds w) = Ok true
  /\ db w1 !! key
     = Some {| value_of := val;
               ttl_of := match ttlSeconds with
                         | Some t => if t =? 0 then None else Some t
                         | None => None
                         end |}
  /\ (forall k, k <> key -> db w1 !! k = db w !! k)
  /\ fst (redis_client.get key w1)
     = Ok (if JsString.truthy val then Some val else None).
Proof.
  intros Hrel. cbv zeta.
  set (ex := match ttlSeconds with
             | Some t => if t =? 0 then None else Some t
             | None => None
             end).
  assert (Hrun : redis_client.set key val ttlSeconds w
                 = (Ok true, after (SET key val ex) w)).
  { unfold redis_client.set, try_catch, bind, ret, ex.
    destruct ttlSeconds as [t|]; [destruct (t =? 0)|];
      rewrite executeCommand_eq, reliable_outcome by exact Hrel; reflexivity. }
  rewrite Hrun. cbn [fst snd].
  assert (Hdb : db (after (SET key val ex) w)
                = <[key := {| value_of := val; ttl_of := ex |}]> (db w)).
  { rewrite reliable_db_after by exact Hrel. reflexivity. }
  split; [reflexivity|]. split; [|split].
  - rewrite Hdb. apply lookup_insert_eq.
  - intros k Hk. rewrite Hdb. apply lookup_insert_ne. congruence.
  - rewrite get_eq. cbn [fst]. f_equal.
    rewrite visible_reliable by (apply reliable_after; exact Hrel).
    unfold stored. rewrite Hdb, lookup_insert_eq. reflexivity.
Qed.

(** X22.  [setnx] is a lock: on a reliable transport it reports success
    exactly when the key was absent and never overwrites a value that is
    there; a second [setnx] on the key is refused, whatever it tries to
    write; and after [del] the key can be taken again. *)
Theorem setnx_is_exclusive key val ttlSeconds val' ttlSeconds' w :
  reliable w ->
  let w1 := snd (redis_client.setnx key val ttlSeconds w) in
  fst (redis_client.setnx key val ttlSeconds w)
  = Ok (match db w !! key with None => true | Some _ => false end)
  /\ (forall e, db w !! key = Some e -> db w1 = db w)
  /\ fst (redis_client.setnx key val' ttlSeconds' w1) = Ok false
  /\ fst (redis_client.setnx key val' ttlSeconds'
            (snd (redis_client.del key w1))) = Ok true.
Proof.
  intros Hrel. cbv zeta. rewrite !setnx_eq. cbn [fst snd].
  pose proof (reliable_after (SET_NX key val ttlSeconds) w Hrel) as Hrel1.
  assert (Hdb1 : db (after (SET_NX key val ttlSeconds) w)
                 = match db w !! key with
                   | Some _ => db w
                   | None => <[key := {| value_of := val; ttl_of := Some ttlSeconds |}]> (db w)
                   end).
  { rewrite reliable_db_after by exact Hrel. cbn [redis].
    destruct (db w !! key); reflexivity. }
  assert (Hthere : db (after (SET_NX key val ttlSeconds) w) !! key <> None).
  { rewrite Hdb1. destruct (db w !! key) eqn:E; [congruence|].
    rewrite lookup_insert_eq. discriminate. }
  split; [|split; [|split]].
  - rewrite reliable_outcome by exact Hrel. cbn [redis].
    destruct (db w !! key); reflexivity.
  - intros e He. rewrite Hdb1, He. reflexivity.
  - rewrite reliable_outcome by exact Hrel1.
    cbn [redis]. destruct (db (after (SET_NX key val ttlSeconds) w) !! key);
      [reflexivity | congruence].
  - rewrite del_eq. cbn [snd].
    rewrite reliable_outcome by (apply reliable_after; exact Hrel1).
    rewrite reliable_db_after by exact Hrel1. cbn [redis snd].
    rewrite lookup_delete_eq. reflexivity.
Qed.

(* ===================================================================== *)
(** ** Runs of the handlers, stage by stage                              *)
(* ===================================================================== *)

Lemma handleFetchSummary_by_hash hash u w :
  JsString.truthy hash = true ->
  handleFetchSummary (Fetch.Make u (Some hash)) w = fetch_by_hash hash w.
Proof.
  intros Hh. unfold handleFetchSummary, fetch_by_hash, complete_of, answer.
  cbn [Fetch.urlParam Fetch.hashParam Js.opt_truthy]. rewrite Hh.
  rewrite andb_false_r. cbv beta zeta.
  unfold JSON_parse, error_response, pending_response, unknown_response.
  unfold bind, try_catch, ret, throw. cbn [negb]. rewrite Hh. cbn [negb].
  rewrite get_eq. cbv beta iota.
  destruct (visible ("article:" +:+ hash) w) as [cached|].
  - destruct (Json.parse cached) as [v|]; [|reflexivity]. cbv beta iota.
    rewrite complete_response_eq.
    destruct (Js.prop v "summary"); [|reflexivity].
    destruct (Js.prop v "headline"); [|reflexivity].
    destruct (Js.prop v "generatedAt"); reflexivity.
  - cbv beta iota. rewrite get_eq. cbv beta iota.
    destruct (visible ("lock:" +:+ hash) _); reflexivity.
Qed.

Lemma handleFetchSummary_by_url url w :
  JsString.truthy url = true ->
  handleFetchSummary (Fetch.Make (Some url) None) w
  = let key := "url:" +:+ normalizeUrl url in
    match visible key w with
    | Some hash => fetch_by_hash hash (after (GET key) w)
    | None => (Ok (json_response 200 (VObj [("status", VStr "unknown")])),
               after (GET key) w)
    end.
Proof.
  intros Hu. unfold handleFetchSummary, fetch_by_hash, complete_of, answer.
  cbn [Fetch.urlParam Fetch.hashParam Js.opt_truthy Js.str_or]. rewrite Hu.
  cbn [negb andb]. cbv beta zeta.
  unfold JSON_parse, error_response, pending_response, unknown_response.
  unfold bind, try_catch, ret, throw.
  rewrite get_eq. cbv beta iota.
  destruct (visible ("url:" +:+ normalizeUrl url) w) as [hash|] eqn:Ev;
    [|reflexivity].
  assert (Hh : JsString.truthy hash = true).
  { unfold visible in Ev. destruct (outcome _ w) as [[| |s|]|]; try discriminate.
    destruct (JsString.truthy s) eqn:Es; [|discriminate]. injection Ev as <-. exact Es. }
  rewrite Hh. cbn [negb]. rewrite get_eq. cbv beta iota.
  destruct (visible ("article:" +:+ hash) _) as [cached|].
  - destruct (Json.parse cached) as [v|]; [|reflexivity]. cbv beta iota.
    rewrite complete_response_eq.
    destruct (Js.prop v "summary"); [|reflexivity].
    destruct (Js.prop v "headline"); [|reflexivity].
    destruct (Js.prop v "generatedAt"); reflexivity.
  - cbv beta iota. rewrite get_eq. cbv beta iota.
    destruct (visible ("lock:" +:+ hash) _); reflexivity.
Qed.

Lemma key_neq c1 s1 a c2 s2 b :
  c1 <> c2 -> String c1 s1 +:+ a <> String c2 s2 +:+ b.
Proof. intros Hc H. rewrite !append_cons in H. injection H as H _. contradiction. Qed.

Lemma status_complete cached hash resp :
  answer (complete_of cached hash) = Ok resp -> status resp = 200 \/ status resp = 500.
Proof.
  unfold answer, complete_of.
  destruct (Json.parse cached) as [v|];
    [destruct (Js.prop v "summary"), (Js.prop v "headline"), (Js.prop v "generatedAt")|];
    intros H; apply Ok_inj in H; subst resp; (now left) || (now right).
Qed.

Lemma reliable_GET k w : reliable w -> reliable (after (GET k) w).
Proof. apply reliable_after. Qed.

(** On a reliable transport the cache lookups either answer the request or
    hand it to the lock stage, the store untouched. *)
Lemma by_hash_paths ec cp body w' :
  reliable w' ->
  let hash := fingerprint ec body in
  let nu := normalizeUrl (Js.str_or (Req.url body) EmptyString) in
  let w3 := after (GET ("article:" +:+ hash)) w' in
  (stored ("article:" +:+ hash) (db w') = None
   /\ generate_by_hash ec cp body w'
      = catch500 (lockAndPredict cp body nu hash (resolveText ec body nu) w3))
  \/ (stored ("article:" +:+ hash) (db w') <> None
      /\ exists resp w4 evs,
           generate_by_hash ec cp body w' = (Ok resp, w4)
           /\ (status resp = 200 \/ status resp = 500)
           /\ log w4 = log w' ++ evs /\ Forall cache_traffic evs).
Proof.
  intros Hrel. cbv zeta. unfold generate_by_hash. cbv zeta.
  rewrite (visible_reliable _ _ Hrel).
  destruct (stored _ (db w')) as [cached|] eqn:Es.
  - right. split; [discriminate|].
    destruct (Json.parse cached) as [v|] eqn:Ep.
    + destruct (answer (complete_of cached (fingerprint ec body))) as [resp|e] eqn:Ea.
      * exists resp. eexists. eexists. split; [reflexivity|].
        split; [apply (status_complete _ _ _ Ea)|].
        split; [norm_log; reflexivity | repeat constructor].
      * unfold answer in Ea. destruct (complete_of _ _); discriminate.
    + eexists. eexists. eexists. split; [reflexivity|].
      split; [right; reflexivity|].
      split; [norm_log; reflexivity | repeat constructor].
  - left. split; reflexivity.
Qed.

Lemma generate_paths ec cp body w :
  reliable w ->
  let hash := fingerprint ec body in
  let nu := normalizeUrl (Js.str_or (Req.url body) EmptyString) in
  (misses ec body (db w)
   /\ exists w3 evs,
        generate_run ec cp body w
        = catch500 (lockAndPredict cp body nu hash (resolveText ec body nu) w3)
        /\ db w3 = db w /\ reliable w3 /\ clock w3 = clock w
        /\ log w3 = log w ++ evs /\ Forall cache_traffic evs)
  \/ (~ misses ec body (db w)
      /\ exists resp w4 evs,
           generate_run ec cp body w = (Ok resp, w4)
           /\ (status resp = 200 \/ status resp = 500)
           /\ log w4 = log w ++ evs /\ Forall cache_traffic evs).
Proof.
  intros Hrel. cbv zeta. unfold generate_run, misses. cbv zeta.
  rewrite (visible_reliable _ _ Hrel).
  destruct (stored (url_key body) (db w)) as [eh|] eqn:Eu.
  - rewrite (visible_reliable _ _ (reliable_GET _ _ Hrel)), db_after_GET.
    destruct (stored ("article:" +:+ eh) (db w)) as [cached|] eqn:Ea.
    + right. split; [intros [_ H]; discriminate|].
      destruct (answer (complete_of cached eh)) as [resp|e] eqn:Er.
      * exists resp. eexists. eexists. split; [reflexivity|].
        split; [apply (status_complete _ _ _ Er)|].
        split; [norm_log; reflexivity | repeat constructor].
      * unfold answer in Er. destruct (complete_of _ _); discriminate.
    + destruct (by_hash_paths ec cp body _
                  (reliable_GET ("article:" +:+ eh) _ (reliable_GET (url_key body) _ Hrel)))
        as [[Hs Hrun] | [Hs (resp & w4 & evs & Hrun & Hst & Hlog & Hev)]];
        rewrite !db_after_GET in Hs.
      * left. split; [split; [exact Hs | reflexivity]|].
        eexists. eexists. split; [exact Hrun|].
        split; [rewrite !db_after_GET; reflexivity|].
        split; [repeat apply reliable_after; exact Hrel|].
        split; [reflexivity|].
        split; [norm_log; reflexivity | repeat constructor].
      * right. split; [intros [H _]; contradiction|].
        exists resp, w4. eexists. split; [exact Hrun|]. split; [exact Hst|].
        split; [rewrite Hlog; norm_log; rewrite <- ?app_assoc; reflexivity|].
        repeat constructor. exact Hev.
  - destruct (by_hash_paths ec cp body _ (reliable_GET (url_key body) _ Hrel))
      as [[Hs Hrun] | [Hs (resp & w4 & evs & Hrun & Hst & Hlog & Hev)]];
      rewrite !db_after_GET in Hs.
    + left. split; [split; [exact Hs | exact I]|].
      eexists. eexists. split; [exact Hrun|].
      split; [rewrite !db_after_GET; reflexivity|].
      split; [repeat apply reliable_after; exact Hrel|].
      split; [reflexivity|].
      split; [norm_log; reflexivity | repeat constructor].
    + right. split; [intros [H _]; contradiction|].
      exists resp, w4. eexists. split; [exact Hrun|]. split; [exact Hst|].
      split; [rewrite Hlog; norm_log; rewrite <- ?app_assoc; reflexivity|].
      repeat constructor. exact Hev.
Qed.

Lemma generate_needs_url ec cp body w :
  Js.opt_truthy (Req.url body) = false ->
  handleGenerateSummary ec cp {| json := Ok body |} w
  = (Ok (json_response 400 (VObj [("error", VStr "URL is required")])), w).
Proof.
  intros H. unfold handleGenerateSummary. cbn [json].
  rewrite bind_lift_Ok, H. reflexivity.
Qed.

Lemma stored_insert_ne k k' e (d : gmap string Entry) :
  k <> k' -> stored k (<[k' := e]> d) = stored k d.
Proof. intros H. unfold stored. rewrite lookup_insert_ne by congruence. reflexivity. Qed.

Lemma misses_frame ec body (d : gmap string Entry) hash id e1 e2 :
  misses ec body d ->
  misses ec body (<["prediction:" +:+ id := e1]> (<["lock:" +:+ hash := e2]> d)).
Proof.
  unfold misses, url_key.
  assert (Hs : forall c s x, c <> "p"%char -> c <> "l"%char ->
            stored (String c s +:+ x)
              (<["prediction:" +:+ id := e1]> (<["lock:" +:+ hash := e2]> d))
            = stored (String c s +:+ x) d).
  { intros c s x Hp Hl. rewrite !stored_insert_ne; [reflexivity| |];
      apply key_neq; assumption. }
  intros [Ha Hu]. rewrite !Hs by discriminate. split; [exact Ha|].
  destruct (stored ("url:" +:+ _) d) as [eh|]; [|exact I].
  rewrite Hs by discriminate. exact Hu.
Qed.

(** An accepted job: the run, and the store it leaves. *)
Lemma generate_accepted ec cp body w resp :
  reliable w ->
  fst (generate_run ec cp body w) = Ok resp ->
  status resp = 202 ->
  let hash := fingerprint ec body in
  exists id w1,
    generate_run ec cp body w = (Ok (processing_response hash id), w1)
    /\ resp = processing_response hash id
    /\ reliable w1
    /\ db w1 = <["prediction:" +:+ id := correlation_entry body hash]>
                 (<["lock:" +:+ hash := lock_entry]> (db w))
    /\ misses ec body (db w)
    /\ clock w1 = clock w
    /\ cp (text_for_provider body
             (resolveText ec body (normalizeUrl (Js.str_or (Req.url body) EmptyString))))
          (Js.str_or (Req.headline body) EmptyString) = Ok id.
Proof.
  intros Hrel Hrun Hst. cbv zeta.
  destruct (generate_paths ec cp body w Hrel)
    as [[Hmiss (w3 & evs & Hrun1 & Hdb3 & Hrel3 & Hclock3 & Hlog3 & Hev3)]
       | [_ (r & w4 & evs & Hrun1 & Hs & _)]].
  2:{ rewrite Hrun1 in Hrun. cbn [fst] in Hrun. apply Ok_inj in Hrun. subst r.
      rewrite Hst in Hs. destruct Hs; discriminate. }
  rewrite Hrun1 in Hrun |- *. clear Hrun1.
  rewrite lockAndPredict_eq in Hrun |- *. cbv zeta in Hrun |- *.
  assert (Hout : outcome (lock_cmd (fingerprint ec body)) w3
                 = Some (match db w !! ("lock:" +:+ fingerprint ec body) with
                         | Some _ => Nil
                         | None => OK
                         end)).
  { rewrite (reliable_outcome _ _ Hrel3). unfold lock_cmd. cbn [redis].
    rewrite Hdb3. destruct (db w !! _); reflexivity. }
  rewrite Hout in Hrun |- *.
  destruct (db w !! ("lock:" +:+ fingerprint ec body)) as [e|] eqn:Elock.
  { cbn [catch500 fst] in Hrun. apply Ok_inj in Hrun. subst resp. discriminate Hst. }
  destruct (blank _) eqn:Eb.
  { cbn [catch500 fst] in Hrun. apply Ok_inj in Hrun. subst resp. discriminate Hst. }
  destruct (cp _ _) as [id|e] eqn:Ecp.
  2:{ cbn [catch500 fst] in Hrun. apply Ok_inj in Hrun. subst resp. discriminate Hst. }
  cbn [catch500 fst snd] in Hrun |- *. apply Ok_inj in Hrun. subst resp.
  exists id. eexists. split; [reflexivity|]. split; [reflexivity|].
  split; [apply reliable_after, reliable_emit, reliable_after, Hrel3|].
  split; [|split; [exact Hmiss | split; [exact Hclock3 | first [exact Ecp | reflexivity]]]].
  rewrite reliable_db_after by (apply reliable_emit, reliable_after, Hrel3).
  unfold correlation_cmd. cbn [redis snd]. rewrite db_emit.
  rewrite reliable_db_after by exact Hrel3. unfold lock_cmd. cbn [redis].
  rewrite Hdb3, Elock. reflexivity.
Qed.

(** X23.  Two identical requests in a row start one job.  On a reliable
    transport, when generate-summary answers 202 the answer is [processing]
    with the fingerprint and the job id, and the store has gained exactly
    the lock (lifetime 60) and the correlation entry of the job (lifetime
    3600); the same request sent again is then answered [pending] with the
    same fingerprint, without any call to the provider and without any
    change of the store. *)
Theorem generate_twice_starts_one_job ec cp body w resp :
  reliable w ->
  fst (handleGenerateSummary ec cp {| json := Ok body |} w) = Ok resp ->
  status resp = 202 ->
  let hash := fingerprint ec body in
  let w1 := snd (handleGenerateSummary ec cp {| json := Ok body |} w) in
  let again := handleGenerateSummary ec cp {| json := Ok body |} w1 in
  exists id,
    resp = processing_response hash id
    /\ db w1 = <["prediction:" +:+ id := correlation_entry body hash]>
                 (<["lock:" +:+ hash := lock_entry]> (db w))
    /\ fst again = Ok (pending_response hash)
    /\ db (snd again) = db w1
    /\ exists evs, log (snd again) = log w1 ++ evs /\ never_predicts evs.
Proof.
  intros Hrel Hrun Hst. cbv zeta.
  assert (Hurl : Js.opt_truthy (Req.url body) = true).
  { destruct (Js.opt_truthy (Req.url body)) eqn:E; [reflexivity|]. exfalso.
    rewrite (generate_needs_url _ _ _ _ E) in Hrun. cbn [fst] in Hrun.
    apply Ok_inj in Hrun. subst resp. discriminate Hst. }
  rewrite (handleGenerateSummary_eq _ _ _ w Hurl) in *.
  destruct (generate_accepted ec cp body w resp Hrel Hrun Hst)
    as (id & w1 & Hrun1 & -> & Hrel1 & Hdb1 & Hmiss & _ & _).
  rewrite Hrun1. cbn [snd].
  rewrite (handleGenerateSummary_eq _ _ _ w1 Hurl).
  exists id. split; [reflexivity|]. split; [exact Hdb1|].
  destruct (generate_paths ec cp body w1 Hrel1)
    as [[_ (w3' & evs' & Hrun2 & Hdb3' & Hrel3' & _ & Hlog3' & Hev3')]
       | [Hno _]].
  2:{ exfalso. apply Hno. rewrite Hdb1. apply misses_frame, Hmiss. }
  rewrite Hrun2, lockAndPredict_eq. cbv zeta.
  assert (Hlock : db w3' !! ("lock:" +:+ fingerprint ec body) = Some lock_entry).
  { rewrite Hdb3', Hdb1.
    rewrite lookup_insert_ne by (apply key_neq; discriminate).
    apply lookup_insert_eq. }
  assert (Hout : outcome (lock_cmd (fingerprint ec body)) w3' = Some Nil).
  { rewrite (reliable_outcome _ _ Hrel3'). unfold lock_cmd. cbn [redis].
    rewrite Hlock. reflexivity. }
  rewrite Hout. cbn [fst catch500 snd].
  split; [reflexivity|]. split.
  - rewrite reliable_db_after by exact Hrel3'. unfold lock_cmd. cbn [redis].
    rewrite Hlock. exact Hdb3'.
  - eexists. split; [rewrite log_after, Hlog3', <- app_assoc; reflexivity|].
    intros t h r HIn. apply in_app_or in HIn. destruct HIn as [HIn|[HIn|[]]].
    + exact (cache_traffic_no_predict _ _ _ _ Hev3' HIn).
    + discriminate HIn.
Qed.

(** X24.  A refusal by the provider leaves no trace.  On a reliable
    transport, when a run of generate-summary contains a provider call that
    failed with [e], the handler answers 500 with [e], the store ends as it
    started (the lock it took is deleted again), and the request can be
    sent again: the lock is free. *)
Theorem generate_provider_failure_leaves_no_trace ec cp body w e :
  reliable w ->
  let run := handleGenerateSummary ec cp {| json := Ok body |} w in
  (exists evs text headline,
      log (snd run) = log w ++ evs /\ In (Predict text headline (Throw e)) evs) ->
  fst run = Ok (error_response e)
  /\ db (snd run) = db w
  /\ db (snd run) !! ("lock:" +:+ fingerprint ec body) = None.
Proof.
  intros Hrel. cbv zeta. intros (evs & text & headline & Hlog & HIn).
  assert (Hurl : Js.opt_truthy (Req.url body) = true).
  { destruct (Js.opt_truthy (Req.url body)) eqn:E; [reflexivity|]. exfalso.
    rewrite (generate_needs_url _ _ _ _ E) in Hlog. cbn [snd] in Hlog.
    rewrite <- (app_nil_r (log w)) in Hlog at 1.
    apply app_inv_head in Hlog. subst evs. destruct HIn. }
  rewrite !(handleGenerateSummary_eq _ _ _ _ Hurl) in *.
  destruct (generate_paths ec cp body w Hrel)
    as [[Hmiss (w3 & evs0 & Hrun & Hdb3 & Hrel3 & _ & Hlog3 & Hev3)]
       | [_ (r & w4 & evs0 & Hrun & _ & Hlog4 & Hev4)]].
  2:{ exfalso. rewrite Hrun in Hlog. cbn [snd] in Hlog. rewrite Hlog4 in Hlog.
      apply app_inv_head in Hlog. subst evs.
      exact (cache_traffic_no_predict _ _ _ _ Hev4 HIn). }
  rewrite Hrun in Hlog |- *. clear Hrun.
  rewrite lockAndPredict_eq in Hlog |- *. cbv zeta in Hlog |- *.
  assert (Hout : outcome (lock_cmd (fingerprint ec body)) w3
                 = Some (match db w !! ("lock:" +:+ fingerprint ec body) with
                         | Some _ => Nil
                         | None => OK
                         end)).
  { rewrite (reliable_outcome _ _ Hrel3). unfold lock_cmd. cbn [redis].
    rewrite Hdb3. destruct (db w !! _); reflexivity. }
  rewrite Hout in Hlog |- *.
  assert (Hno : forall more,
    log w ++ evs = (log w ++ evs0) ++ more ->
    ~ In (Predict text headline (Throw e)) more -> False).
  { intros more H Hmore. rewrite <- app_assoc in H. apply app_inv_head in H.
    subst evs. apply in_app_or in HIn. destruct HIn as [HIn|HIn];
      [exact (cache_traffic_no_predict _ _ _ _ Hev3 HIn) | exact (Hmore HIn)]. }
  destruct (db w !! ("lock:" +:+ fingerprint ec body)) as [e0|] eqn:Elock.
  { exfalso. cbn [catch500 snd] in Hlog. rewrite log_after, Hlog3 in Hlog.
    symmetry in Hlog. apply (Hno _ Hlog). intros [H|[]]. discriminate H. }
  destruct (blank _) eqn:Eb.
  { exfalso. cbn [catch500 snd] in Hlog. rewrite !log_after, Hlog3 in Hlog.
    rewrite <- (app_assoc _ [_] [_]) in Hlog. symmetry in Hlog.
    apply (Hno _ Hlog). intros [H|[H|[]]]; discriminate H. }
  destruct (cp _ _) as [id|e'] eqn:Ecp.
  { exfalso. cbn [catch500 snd] in Hlog.
    rewrite log_after, log_emit, log_after, Hlog3 in Hlog.
    rewrite <- !(app_assoc (log w ++ evs0)) in Hlog. symmetry in Hlog.
    apply (Hno _ Hlog). cbn [app]. intros [H|[H|[H|[]]]]; discriminate H. }
  cbn [catch500 fst snd] in Hlog |- *.
  assert (He : e' = e).
  { rewrite log_after, log_emit, log_after, Hlog3 in Hlog.
    rewrite <- !(app_assoc (log w ++ evs0)), <- app_assoc in Hlog.
    apply app_inv_head in Hlog. subst evs. cbn [app] in HIn.
    apply in_app_or in HIn. destruct HIn as [HIn|HIn];
      [destruct (cache_traffic_no_predict _ _ _ _ Hev3 HIn)|].
    destruct HIn as [H|[H|[H|[]]]]; try discriminate H.
    injection H as _ _ H. exact H. }
  subst e'. split; [reflexivity|].
  assert (Hdb : db (after (DEL ("lock:" +:+ fingerprint ec body))
                      (emit (Predict (text_for_provider body
                                        (resolveText ec body
                                           (normalizeUrl (Js.str_or (Req.url body) EmptyString))))
                                     (Js.str_or (Req.headline body) EmptyString) (Throw e))
                            (after (lock_cmd (fingerprint ec body)) w3)))
                = db w).
  { rewrite reliable_db_after by (apply reliable_emit, reliable_after, Hrel3).
    cbn [redis snd]. rewrite db_emit.
    rewrite reliable_db_after by exact Hrel3. unfold lock_cmd. cbn [redis].
    rewrite Hdb3, Elock. cbn [snd]. apply delete_insert_id. exact Elock. }
  split; [exact Hdb|]. rewrite Hdb. exact Elock.
Qed.

Lemma truthy_hash ec body : JsString.truthy (fingerprint ec body) = true.
Proof.
  unfold fingerprint. cbv zeta.
  match goal with |- JsString.truthy ?h = true =>
    pose proof (proj1 (hash_shape _ _ _ : String.length h = 64%nat /\ _)) as H;
    destruct h; [discriminate H | reflexivity]
  end.
Qed.

(** X25.  A hit by fingerprint repairs the address index.  On a reliable
    transport, when the address of the request is not mapped to a cached
    entry but the fingerprint of the request is, generate-summary answers
    with that entry, writes [url:<normalized address>] to the fingerprint
    with a lifetime of 604800 seconds and nothing else, and a poll of
    fetch-summary by the same address is then answered with the same
    entry. *)
Theorem generate_hit_repairs_address_index ec cp body url w cached resp :
  reliable w ->
  Req.url body = Some url ->
  JsString.truthy url = true ->
  (forall existingHash,
      stored (url_key body) (db w) = Some existingHash ->
      stored ("article:" +:+ existingHash) (db w) = None) ->
  stored ("article:" +:+ fingerprint ec body) (db w) = Some cached ->
  complete_of cached (fingerprint ec body) = Ok resp ->
  let run := handleGenerateSummary ec cp {| json := Ok body |} w in
  fst run = Ok resp
  /\ db (snd run)
     = <[url_key body := {| value_of := fingerprint ec body; ttl_of := Some 604800 |}]>
         (db w)
  /\ fst (handleFetchSummary (Fetch.Make (Some url) None) (snd run)) = Ok resp.
Proof.
  intros Hrel Hu Htr Hstale Hart Hcomplete. cbv zeta.
  assert (Hurl : Js.opt_truthy (Req.url body) = true) by (rewrite Hu; exact Htr).
  rewrite (handleGenerateSummary_eq _ _ _ _ Hurl).
  assert (Hparse : exists v, Json.parse cached = Some v).
  { unfold complete_of in Hcomplete. destruct (Json.parse cached); [eauto|discriminate]. }
  destruct Hparse as [v Hparse].
  assert (Htail : forall w', reliable w' -> db w' = db w ->
            generate_by_hash ec cp body w'
            = (Ok resp, after (SET (url_key body) (fingerprint ec body) (Some 604800))
                              (after (GET ("article:" +:+ fingerprint ec body)) w'))).
  { intros w' Hrel' Hdb'. unfold generate_by_hash. cbv zeta.
    rewrite (visible_reliable _ _ Hrel'), Hdb', Hart, Hparse, Hcomplete. reflexivity. }
  assert (Hrun : exists w',
            reliable w' /\ db w' = db w
            /\ generate_run ec cp body w
               = (Ok resp, after (SET (url_key body) (fingerprint ec body) (Some 604800))
                                 (after (GET ("article:" +:+ fingerprint ec body)) w'))).
  { unfold generate_run. cbv zeta. rewrite (visible_reliable _ _ Hrel).
    destruct (stored (url_key body) (db w)) as [eh|] eqn:Eu.
    - rewrite (visible_reliable _ _ (reliable_GET _ _ Hrel)), db_after_GET.
      rewrite (Hstale eh eq_refl).
      eexists. split; [|split; [|apply Htail]];
        try (repeat apply reliable_after; exact Hrel);
        rewrite !db_after_GET; reflexivity.
    - eexists. split; [|split; [|apply Htail]];
        try (repeat apply reliable_after; exact Hrel);
        rewrite !db_after_GET; reflexivity. }
  destruct Hrun as (w' & Hrel' & Hdb' & ->). cbn [fst snd].
  set (w2 := after (SET _ _ _) _).
  assert (Hrel2 : reliable w2) by (unfold w2; repeat apply reliable_after; exact Hrel').
  assert (Hdb2 : db w2 = <[url_key body := {| value_of := fingerprint ec body;
                                              ttl_of := Some 604800 |}]> (db w)).
  { unfold w2. rewrite reliable_db_after by (apply reliable_after; exact Hrel').
    cbn [redis snd]. rewrite db_after_GET, Hdb'. reflexivity. }
  split; [reflexivity|]. split; [exact Hdb2|].
  rewrite (handleFetchSummary_by_url _ _ Htr). cbv zeta.
  assert (Hkey : "url:" +:+ normalizeUrl url = url_key body).
  { unfold url_key. rewrite Hu. cbn [Js.str_or]. rewrite Htr. reflexivity. }
  rewrite Hkey, (visible_reliable _ _ Hrel2), Hdb2.
  unfold stored at 1. rewrite lookup_insert_eq. cbn [value_of].
  rewrite truthy_hash. unfold fetch_by_hash. cbv zeta.
  rewrite (visible_reliable _ _ (reliable_GET _ _ Hrel2)), db_after_GET, Hdb2.
  unfold url_key.
  rewrite stored_insert_ne by (apply key_neq; discriminate).
  rewrite Hart, Hcomplete. reflexivity.
Qed.

(** X26.  A callback that reports progress changes nothing: for the
    statuses [starting], [processing] and [canceled] the handler sends the
    one read of the correlation entry, leaves the store as it is, and
    answers 200 (the plain acknowledgement when the entry is found and
    well formed). *)
Theorem webhook_progress_is_noop payload w :
  Payload.status payload <> succeeded ->
  Payload.status payload <> failed ->
  let run := handleWebhook {| json := Ok payload |} w in
  db (snd run) = db w
  /\ (exists r, log (snd run) = log w ++ [Sent (GET (prediction_key payload)) r])
  /\ (forall str c,
        visible (prediction_key payload) w = Some str ->
        correlation_of str = Ok c ->
        fst run = Ok received_ack).
Proof.
  intros Hs Hf. cbv zeta. rewrite handleWebhook_eq. cbv zeta.
  assert (E1 : status_eqb (Payload.status payload) succeeded = false)
    by (destruct (Payload.status payload); try reflexivity; congruence).
  assert (E2 : status_eqb (Payload.status payload) failed = false)
    by (destruct (Payload.status payload); try reflexivity; congruence).
  rewrite E1, E2. cbn [andb].
  destruct (visible _ w) as [str|];
    [destruct (correlation_of str) as [[[h hl] nu]|e] eqn:Ec|];
    cbn [fst snd]; (split; [apply db_after_GET|]); (split; [eexists; reflexivity|]);
    intros str' c H1 H2; try discriminate; try reflexivity.
  injection H1 as <-. rewrite Ec in H2. discriminate.
Qed.

(* ===================================================================== *)
(** ** What JSON.stringify writes, JSON.parse reads                      *)
(* ===================================================================== *)

Lemma parse_chars_escape_char c r :
  Json.parse_chars (Json.escape_char c +:+ r)
  = match Json.parse_chars r with
    | Some (t, r') => Some (String c t, r')
    | None => None
    end.
Proof.
  destruct c as [[] [] [] [] [] [] [] []];
    unfold Json.escape_char; simpl; reflexivity.
Qed.

Lemma parse_chars_escape s rest :
  Json.parse_chars (Json.escape s +:+ String Json.dquote rest) = Some (s, rest).
Proof.
  induction s as [|c s IH]; [reflexivity|].
  cbn [Json.escape]. rewrite string_app_assoc, parse_chars_escape_char, IH.
  reflexivity.
Qed.

Lemma quote_app s rest : Json.quote s +:+ rest = quoted s rest.
Proof.
  unfold Json.quote, quoted. rewrite append_cons, string_app_assoc. reflexivity.
Qed.

Lemma parse_value_quoted f s rest :
  Json.parse_value (S f) (quoted s rest) = Some (VStr s, rest).
Proof.
  unfold quoted. simpl. rewrite parse_chars_escape. reflexivity.
Qed.

Lemma parse_object f k rest :
  Json.parse_value (S f) (String "{" (quoted k rest))
  = match Json.parse_members f (quoted k rest) with
    | Some (fs, r) => Some (VObj fs, r)
    | None => None
    end.
Proof. unfold quoted. simpl. reflexivity. Qed.

Lemma parse_member_more f k v rest :
  Json.parse_members (S (S f)) (quoted k (String ":" (quoted v (String "," rest))))
  = match Json.parse_members (S f) rest with
    | Some (fs, r) => Some ((k, VStr v) :: fs, r)
    | None => None
    end.
Proof.
  unfold quoted. simpl. rewrite parse_chars_escape. simpl.
  rewrite parse_chars_escape. simpl. reflexivity.
Qed.

Lemma parse_member_last f k v rest :
  Json.parse_members (S (S f)) (quoted k (String ":" (quoted v (String "}" rest))))
  = Some ([(k, VStr v)], rest).
Proof.
  unfold quoted. simpl. rewrite parse_chars_escape. simpl.
  rewrite parse_chars_escape. simpl. reflexivity.
Qed.

(** Numbers. *)

Lemma pretty_N_char_digit m :
  (m < 10)%N ->
  Json.is_digit (pretty_N_char m) = true
  /\ JsString.code (pretty_N_char m) - 48 = Z.of_N m.
Proof.
  intros H.
  assert (Hm : (m = 0 \/ m = 1 \/ m = 2 \/ m = 3 \/ m = 4 \/ m = 5 \/ m = 6
                \/ m = 7 \/ m = 8 \/ m = 9)%N) by lia.
  repeat (destruct Hm as [-> | Hm]; [split; reflexivity|]). subst m.
  split; reflexivity.
Qed.

Lemma parse_digits_step acc c s :
  Json.is_digit c = true ->
  Json.parse_digits acc (String c s)
  = Json.parse_digits (acc * 10 + (JsString.code c - 48)) s.
Proof. intros H. cbn [Json.parse_digits]. rewrite H. reflexivity. Qed.

Lemma parse_digits_go x : forall s,
  Json.parse_digits 0 (pretty_N_go x s) = Json.parse_digits (Z.of_N x) s.
Proof.
  induction (N.lt_wf_0 x) as [x _ IH]. intros s.
  destruct (N.eq_dec x 0%N) as [->|Hx]; [rewrite pretty_N_go_0; reflexivity|].
  rewrite pretty_N_go_step by lia.
  rewrite IH by (apply N.div_lt; lia).
  destruct (pretty_N_char_digit (x mod 10)%N) as [Hd Hc]; [apply N.mod_lt; lia|].
  rewrite (parse_digits_step _ _ _ Hd), Hc. f_equal.
  rewrite (N.div_mod x 10%N) at 3 by lia. lia.
Qed.

Lemma pretty_N_go_app x : forall s rest,
  pretty_N_go x s +:+ rest = pretty_N_go x (s +:+ rest).
Proof.
  induction (N.lt_wf_0 x) as [x _ IH]. intros s rest.
  destruct (N.eq_dec x 0%N) as [->|Hx]; [rewrite !pretty_N_go_0; reflexivity|].
  rewrite (pretty_N_go_step x s), (pretty_N_go_step x (s +:+ rest)) by lia.
  rewrite IH by (apply N.div_lt; lia). reflexivity.
Qed.

(** The first digit of a positive number is not a zero. *)
Lemma pretty_N_go_head x : forall s,
  (0 < x)%N ->
  exists m t, (0 < m < 10)%N /\ pretty_N_go x s = String (pretty_N_char m) t.
Proof.
  induction (N.lt_wf_0 x) as [x _ IH]. intros s Hx.
  rewrite pretty_N_go_step by exact Hx.
  destruct (N.eq_dec (x / 10)%N 0%N) as [E|E].
  - rewrite E, pretty_N_go_0. exists (x mod 10)%N, s. split; [|reflexivity].
    pose proof (N.div_mod x 10%N ltac:(discriminate)) as Hdm.
    pose proof (N.mod_lt x 10%N ltac:(discriminate)) as Hlt.
    rewrite E in Hdm. generalize dependent (x mod 10)%N. intros m. lia.
  - apply IH; [apply N.div_lt; [exact Hx | reflexivity] | apply N.neq_0_lt_0, E].
Qed.

Lemma parse_digits_end n rest :
  ends_number rest = true -> Json.parse_digits n rest = (n, rest).
Proof.
  destruct rest as [|d r]; [reflexivity|]. cbn [ends_number Json.parse_digits].
  intros H. apply negb_true_iff in H.
  destruct (Json.is_digit d); [discriminate|]. reflexivity.
Qed.

Lemma parse_int_positive p rest :
  ends_number rest = true ->
  Json.parse_int (pretty (Npos p) +:+ rest) = Some (Zpos p, rest)
  /\ exists m t, (0 < m < 10)%N
                 /\ pretty (Npos p) +:+ rest = String (pretty_N_char m) t.
Proof.
  intros Hend. unfold pretty, pretty_N.
  destruct (decide (N.pos p = 0%N)) as [E|_]; [discriminate E|].
  rewrite pretty_N_go_app, append_nil.
  pose proof (parse_digits_go (N.pos p) rest) as Hgo.
  destruct (pretty_N_go_head (N.pos p) rest ltac:(lia)) as (m & t & Hm & E).
  split; [|exists m, t; split; [exact Hm | exact E]].
  rewrite E in Hgo |- *. rewrite (parse_digits_end _ _ Hend) in Hgo.
  assert (Hcases : (m = 1 \/ m = 2 \/ m = 3 \/ m = 4 \/ m = 5 \/ m = 6
                    \/ m = 7 \/ m = 8 \/ m = 9)%N) by lia.
  unfold Json.parse_int.
  assert (Hfinal : match rest with
                   | String d _ =>
                       if Json.is_digit d || (JsString.code d =? 46)
                          || (JsString.code d =? 101) || (JsString.code d =? 69)
                       then None
                       else Some (Z.pos p, rest)
                   | EmptyString => Some (Z.pos p, rest)
                   end = Some (Z.pos p, rest)).
  { destruct rest as [|d r]; [reflexivity|]. cbn [ends_number] in Hend.
    apply negb_true_iff in Hend. rewrite Hend. reflexivity. }
  repeat (destruct Hcases as [-> | Hcases]; [|]); subst;
    cbn [pretty_N_char] in Hgo |- *; cbv beta iota;
    match goal with
    | |- (if Json.is_digit ?c then _ else _) = _ =>
        change (Json.is_digit c) with true;
        change (JsString.code c =? 48) with false
    end;
    cbv iota; rewrite Hgo; exact Hfinal.
Qed.

Lemma parse_value_digit f m t :
  (m < 10)%N ->
  Json.parse_value (S f) (String (pretty_N_char m) t)
  = match Json.parse_int (String (pretty_N_char m) t) with
    | Some (n, r) => Some (VNum n, r)
    | None => None
    end.
Proof.
  intros Hm.
  assert (Hcases : (m = 0 \/ m = 1 \/ m = 2 \/ m = 3 \/ m = 4 \/ m = 5 \/ m = 6
                    \/ m = 7 \/ m = 8 \/ m = 9)%N) by lia.
  repeat (destruct Hcases as [-> | Hcases]; [|]); subst; reflexivity.
Qed.

(** A non-negative integer, as [JSON.stringify] prints it, reads back. *)
Lemma parse_value_number f n rest :
  0 <= n -> ends_number rest = true ->
  Json.parse_value (S f) (pretty n +:+ rest) = Some (VNum n, rest).
Proof.
  intros Hn Hend. destruct n as [|p|p]; [| |lia].
  - change (pretty 0%Z) with "0". rewrite append_cons, append_nil.
    pose proof (parse_value_digit f 0 rest ltac:(lia)) as H0.
    cbn [pretty_N_char] in H0. rewrite H0. clear H0.
    unfold Json.parse_int. cbv beta iota.
    change (Json.is_digit "0") with true. cbv iota.
    change (JsString.code "0" =? 48) with true. cbv iota.
    destruct rest as [|d r]; [reflexivity|]. cbn [ends_number] in Hend.
    apply negb_true_iff in Hend. rewrite Hend. reflexivity.
  - change (pretty (Z.pos p)) with (pretty (N.pos p)).
    destruct (parse_int_positive p rest Hend) as [Hint (m & t & Hm & E)].
    rewrite E in Hint |- *. rewrite parse_value_digit by lia. rewrite Hint.
    reflexivity.
Qed.

Lemma parse_member_number f k n rest :
  0 <= n ->
  Json.parse_members (S (S f))
    (quoted k (String ":" (pretty n +:+ String "}" rest)))
  = Some ([(k, VNum n)], rest).
Proof.
  intros Hn.
  pose proof (parse_value_number f n (String "}" rest) Hn eq_refl) as Hv.
  revert Hv. generalize (pretty n +:+ String "}" rest). intros text Hv.
  unfold quoted.
  change (Json.parse_members (S (S f)) (String Json.dquote ?x))
    with (match Json.parse_chars x with
          | Some (k, rest1) =>
              match Json.skip_ws rest1 with
              | String ":" rest2 =>
                  match Json.parse_value (S f) rest2 with
                  | Some (v, rest3) =>
                      match Json.skip_ws rest3 with
                      | String "," rest4 =>
                          match Json.parse_members (S f) rest4 with
                          | Some (fs, r) => Some ((k, v) :: fs, r)
                          | None => None
                          end
                      | String "}" rest4 => Some ([(k, v)], rest4)
                      | _ => None
                      end
                  | None => None
                  end
              | _ => None
              end
          | None => None
          end).
  rewrite parse_chars_escape.
  change (Json.skip_ws (String ":" text)) with (String ":" text). cbv iota.
  rewrite Hv. reflexivity.
Qed.

Lemma fuel_enough s c1 c2 :
  exists k, (2 * String.length (String c1 (String c2 s)) + 2)%nat
            = S (S (S (S (S (S k))))).
Proof. exists (2 * String.length s)%nat. cbn [String.length]. lia. Qed.

Lemma stringify_correlation hash hl nu :
  Json.stringify
    (VObj [ ("hash", VStr hash); ("headline", VStr hl); ("normalizedUrl", VStr nu) ])
  = String "{"
      (quoted "hash" (String ":" (quoted hash (String ","
        (quoted "headline" (String ":" (quoted hl (String ","
          (quoted "normalizedUrl" (String ":" (quoted nu (String "}" EmptyString)))))))))))).
Proof.
  cbn [Json.stringify JsString.join].
  rewrite !string_app_assoc, !quote_app, !append_cons, !append_nil.
  rewrite ?quote_app. reflexivity.
Qed.

Lemma parse_correlation hash hl nu :
  Json.parse
    (Json.stringify
       (VObj [ ("hash", VStr hash); ("headline", VStr hl); ("normalizedUrl", VStr nu) ]))
  = Some (VObj [ ("hash", VStr hash); ("headline", VStr hl);
                 ("normalizedUrl", VStr nu) ]).
Proof.
  rewrite stringify_correlation. unfold Json.parse.
  unfold quoted at 1.
  destruct (fuel_enough
              (Json.escape "hash" +:+ String Json.dquote (String ":" (quoted hash (String ","
                (quoted "headline" (String ":" (quoted hl (String ","
                  (quoted "normalizedUrl" (String ":" (quoted nu (String "}" EmptyString))))))))))))
              "{" Json.dquote) as [k ->].
  fold (quoted "hash" (String ":" (quoted hash (String ","
          (quoted "headline" (String ":" (quoted hl (String ","
            (quoted "normalizedUrl" (String ":" (quoted nu (String "}" EmptyString)))))))))))).
  rewrite parse_object, parse_member_more, parse_member_more, parse_member_last.
  reflexivity.
Qed.

Lemma correlation_round_trip hash hl nu :
  correlation_of
    (Json.stringify
       (VObj [ ("hash", VStr hash); ("headline", VStr hl); ("normalizedUrl", VStr nu) ]))
  = Ok (VStr hash, VStr hl, VStr nu).
Proof. unfold correlation_of. rewrite parse_correlation. reflexivity. Qed.

Lemma stringify_article s hl m now :
  Json.stringify
    (VObj [ ("summary", VStr s); ("headline", VStr hl); ("model", VStr m);
            ("generatedAt", VNum now) ])
  = String "{"
      (quoted "summary" (String ":" (quoted s (String ","
        (quoted "headline" (String ":" (quoted hl (String ","
          (quoted "model" (String ":" (quoted m (String ","
            (quoted "generatedAt" (String ":" (pretty now +:+ String "}" EmptyString))))))))))))))).
Proof.
  cbn [Json.stringify JsString.join].
  rewrite !string_app_assoc, !quote_app, !append_cons, !append_nil.
  rewrite ?quote_app. reflexivity.
Qed.

Lemma parse_article s hl m now :
  0 <= now ->
  Json.parse
    (Json.stringify
       (VObj [ ("summary", VStr s); ("headline", VStr hl); ("model", VStr m);
               ("generatedAt", VNum now) ]))
  = Some (VObj [ ("summary", VStr s); ("headline", VStr hl); ("model", VStr m);
                 ("generatedAt", VNum now) ]).
Proof.
  intros Hnow. rewrite stringify_article. unfold Json.parse.
  unfold quoted at 1.
  match goal with
  | |- context [String.length (String ?c1 (String ?c2 ?x))] =>
      destruct (fuel_enough x c1 c2) as [k ->]
  end.
  fold (quoted "summary" (String ":" (quoted s (String ","
        (quoted "headline" (String ":" (quoted hl (String ","
          (quoted "model" (String ":" (quoted m (String ","
            (quoted "generatedAt" (String ":" (pretty now +:+ String "}" EmptyString))))))))))))))).
  rewrite parse_object, parse_member_more, parse_member_more, parse_member_more.
  rewrite parse_member_number by exact Hnow. reflexivity.
Qed.

Lemma truthy_stringify_object fields :
  JsString.truthy (Json.stringify (VObj fields)) = true.
Proof. cbn [Json.stringify]. rewrite append_cons. reflexivity. Qed.

Lemma stored_insert_eq k e (d : gmap string Entry) :
  JsString.truthy (value_of e) = true ->
  stored k (<[k := e]> d) = Some (value_of e).
Proof. intros H. unfold stored. rewrite lookup_insert_eq, H. reflexivity. Qed.

Lemma stored_delete_ne k k' (d : gmap string Entry) :
  k <> k' -> stored k (delete k' d) = stored k d.
Proof. intros H. unfold stored. rewrite lookup_delete_ne by congruence. reflexivity. Qed.

Lemma headline_or (headline : option string) :
  Js.or (VStr (Js.str_or headline EmptyString)) (VStr "Article Summary")
  = VStr (Js.str_or headline "Article Summary").
Proof. destruct headline as [[|c h]|]; reflexivity. Qed.


(* ===================================================================== *)
(** ** The site parser registry                                          *)
(* ===================================================================== *)

Lemma lower_app a b :
  JsString.toLowerCase (a +:+ b) = JsString.toLowerCase a +:+ JsString.toLowerCase b.
Proof.
  induction a as [|c a IH]; [reflexivity|]. rewrite append_cons.
  cbn [JsString.toLowerCase]. rewrite IH, append_cons. reflexivity.
Qed.

Lemma lower_length s : String.length (JsString.toLowerCase s) = String.length s.
Proof. induction s as [|c s IH]; [reflexivity|]. cbn. rewrite IH. reflexivity. Qed.

Lemma lower_drop n : forall s,
  JsString.toLowerCase (JsString.drop n s) = JsString.drop n (JsString.toLowerCase s).
Proof.
  induction n as [|n IH]; intros [|c s]; try reflexivity. cbn [JsString.drop JsString.toLowerCase].
  apply IH.
Qed.

Lemma startsWith_cat a b : forall s,
  JsString.startsWith (a +:+ b) s
  = JsString.startsWith a s && JsString.startsWith b (JsString.drop (String.length a) s).
Proof.
  induction a as [|c a IH]; intros s.
  - rewrite append_nil. destruct s; reflexivity.
  - rewrite append_cons. destruct s as [|d s]; [reflexivity|].
    cbn [JsString.startsWith String.length JsString.drop].
    destruct (Ascii.eqb c d); [apply IH | reflexivity].
Qed.

Lemma drop_drop n : forall m s,
  JsString.drop m (JsString.drop n s) = JsString.drop (n + m) s.
Proof.
  induction n as [|n IH]; intros m s.
  - destruct s; reflexivity.
  - destruct s as [|c s]; [destruct m; reflexivity|]. apply IH.
Qed.

Lemma append_length a b : String.length (a +:+ b) = (String.length a + String.length b)%nat.
Proof. induction a as [|c a IH]; [reflexivity|]. rewrite append_cons. cbn. rewrite IH. reflexivity. Qed.

Lemma lit_matches_cat a b s :
  lit_matches (a +:+ b) s
  = lit_matches a s && lit_matches b (JsString.drop (String.length a) s).
Proof.
  unfold lit_matches. rewrite lower_app, startsWith_cat, lower_length, lower_drop.
  reflexivity.
Qed.

(** A way of matching a pattern is a string of its language found at the
    start of the subject. *)
Lemma residuals_language r : forall s x,
  In x (residuals r s)
  <-> exists p, In p (language r) /\ lit_matches p s = true
                /\ x = JsString.drop (String.length p) s.
Proof.
  induction r as [p|r IH|a IHa b IHb|a IHa b IHb]; intros s x; cbn [residuals language].
  - split.
    + destruct (lit_matches p s) eqn:E; [|intros []]. intros [<-|[]].
      exists p. split; [left; reflexivity|]. split; [exact E | reflexivity].
    + intros (q & [<-|[]] & Hm & ->). rewrite Hm. left. reflexivity.
  - rewrite in_app_iff, IH. split.
    + intros [(p & Hp & Hm & Hx) | [<-|[]]].
      * exists p. split; [apply in_app_iff; left; exact Hp|]. split; assumption.
      * exists EmptyString. split; [apply in_app_iff; right; left; reflexivity|].
        split; [reflexivity | destruct s; reflexivity].
    + intros (p & Hp & Hm & Hx). apply in_app_iff in Hp. destruct Hp as [Hp|[<-|[]]].
      * left. exists p. split; [exact Hp|]. split; assumption.
      * right. left. subst x. destruct s; reflexivity.
  - rewrite !in_app_iff, IHa, IHb. split.
    + intros [(p & Hp & H) | (p & Hp & H)]; exists p;
        (split; [apply in_app_iff; tauto | exact H]).
    + intros (p & Hp & H). apply in_app_iff in Hp.
      destruct Hp as [Hp|Hp]; [left|right]; exists p; split; assumption.
  - rewrite in_flat_map. split.
    + intros (y & Hy & Hx). apply IHa in Hy. destruct Hy as (p & Hp & Hm & ->).
      apply IHb in Hx. destruct Hx as (q & Hq & Hm' & ->).
      exists (p +:+ q). split; [|split].
      * apply in_flat_map. exists p. split; [exact Hp|]. apply in_map, Hq.
      * rewrite lit_matches_cat, Hm, Hm'. reflexivity.
      * rewrite drop_drop, append_length. reflexivity.
    + intros (pq & Hpq & Hm & ->). apply in_flat_map in Hpq.
      destruct Hpq as (p & Hp & Hpq). apply in_map_iff in Hpq.
      destruct Hpq as (q & <- & Hq).
      rewrite lit_matches_cat in Hm. apply andb_true_iff in Hm. destruct Hm as [Hm Hm'].
      exists (JsString.drop (String.length p) s). split.
      * apply IHa. exists p. split; [exact Hp|]. split; [exact Hm | reflexivity].
      * apply IHb. exists q. split; [exact Hq|]. split; [exact Hm'|].
        rewrite drop_drop, append_length. reflexivity.
Qed.

Lemma test_language r s :
  test r s = existsb (fun p => lit_matches p s) (language r).
Proof.
  unfold test. destruct (existsb _ (language r)) eqn:E.
  - apply existsb_exists in E. destruct E as (p & Hp & Hm).
    assert (H : In (JsString.drop (String.length p) s) (residuals r s)).
    { apply residuals_language. exists p. split; [exact Hp|]. split; [exact Hm|reflexivity]. }
    destruct (residuals r s); [destruct H | reflexivity].
  - destruct (residuals r s) as [|x l] eqn:Er; [reflexivity|]. exfalso.
    assert (H : In x (residuals r s)) by (rewrite Er; left; reflexivity).
    apply residuals_language in H. destruct H as (p & Hp & Hm & _).
    assert (H : existsb (fun p => lit_matches p s) (language r) = true).
    { apply existsb_exists. exists p. split; assumption. }
    rewrite H in E. discriminate.
Qed.

(** X28.  Which site parser a URL gets.  [getSiteParser] looks only at the
    start of the URL, letters compared without case: the Sky News parser
    for the eight prefixes http(s)://[www.][news.]sky.com, else the BBC
    parser for the eight prefixes http(s)://[www.]bbc.com or bbc.co.uk,
    else none; nothing has to follow the prefix, so a host that merely
    begins with [sky.com] gets the Sky News parser; and for a URL with
    none of the prefixes [extractContent] is the generic extractor on
    every HTML that is not blank. *)
Theorem getSiteParser_by_prefix url :
  getSiteParser url
  = (if starts_with_any sky_prefixes url then Some SkyNews
     else if starts_with_any bbc_prefixes url then Some BBC
     else None)
  /\ (forall rest, getSiteParser ("https://sky.com" +:+ rest) = Some SkyNews)
  /\ (forall parseSkyNews parseBBC extractArticleContent html,
        starts_with_any sky_prefixes url = false ->
        starts_with_any bbc_prefixes url = false ->
        negb (JsString.truthy html)
        || (String.length (JsString.trim html) =? 0)%nat = false ->
        extractContent_registry parseSkyNews parseBBC extractArticleContent html url
        = extractArticleContent html).
Proof.
  assert (Hsite : forall u,
            getSiteParser u
            = (if starts_with_any sky_prefixes u then Some SkyNews
               else if starts_with_any bbc_prefixes u then Some BBC
               else None)).
  { intros u. unfold getSiteParser, siteParsers. cbn [find fst snd].
    rewrite !test_language.
    change (language sky_pattern) with sky_prefixes.
    change (language bbc_pattern) with bbc_prefixes.
    unfold starts_with_any, lit_matches, sky_prefixes, bbc_prefixes.
    cbn [existsb JsString.toLowerCase JsString.lower].
    destruct (_ || _); [reflexivity|]. destruct (_ || _); reflexivity. }
  split; [apply Hsite|]. split.
  - intros rest. rewrite Hsite. unfold starts_with_any, sky_prefixes.
    cbn [existsb]. rewrite lower_app.
    change (JsString.toLowerCase "https://sky.com") with "https://sky.com".
    rewrite (startsWith_app "https://sky.com"). rewrite !orb_true_r. reflexivity.
  - intros ps pb eac html Hs Hb Hblank. unfold extractContent_registry, extractContent.
    rewrite Hblank, Hsite, Hs, Hb. reflexivity.
Qed.

(* ===================================================================== *)
(** ** The further theorems at work                                      *)
(* ===================================================================== *)

(** The callback address of the deployment, query included. *)
Lemma extractRoute_sound_witness :
  extractRoute "/functions/v1/nbs-tech/webhook?secret=x" = Some "webhook"
  /\ In "webhook" routes
  /\ includes "/webhook" "/functions/v1/nbs-tech/webhook?secret=x" = true.
Proof.
  assert (H : extractRoute "/functions/v1/nbs-tech/webhook?secret=x" = Some "webhook")
    by reflexivity.
  split; [exact H|]. exact (extractRoute_sound _ _ H).
Defined.

(** A path with a trailing slash names no route. *)
Lemma extractRoute_pathname_witness :
  no_question "/generate-summary/"
  /\ extractRoute "/generate-summary/" = None
  /\ ~ (exists pre, "/generate-summary/" = pre +:+ "/" +:+ "generate-summary").
Proof.
  assert (Hq : no_question "/generate-summary/") by reflexivity.
  split; [exact Hq|]. split; [reflexivity|]. intros Hpre.
  assert (HIn : In "generate-summary" routes) by (left; reflexivity).
  pose proof (proj2 (extractRoute_pathname "/generate-summary/" "generate-summary" Hq)
                (conj HIn Hpre)) as H.
  discriminate H.
Defined.

Lemma extractRoute_with_query_witness :
  no_question "/functions/v1/nbs-tech"
  /\ extractRoute ("/functions/v1/nbs-tech" +:+ "/" +:+ "fetch-summary"
                   +:+ "?" +:+ "hash=/webhook")
     = Some "fetch-summary".
Proof.
  assert (Hq : no_question "/functions/v1/nbs-tech") by reflexivity.
  split; [exact Hq|].
  apply (extractRoute_with_query _ _ _ Hq). right. left. reflexivity.
Defined.

(** A poll on a deployment without any variable set. *)
Lemma serve_reports_missing_configuration_witness :
  createRedisClient bare_env
  = Throw "REDIS_REST_URL and REDIS_REST_TOKEN must be set"
  /\ serve bare_env demo_extract demo_provider demo_iso poll_request completed_world
     = (Ok (json_response 500
              (VObj [("error",
                      VStr ("Configuration error: "
                            +:+ "REDIS_REST_URL and REDIS_REST_TOKEN must be set"))])),
        completed_world).
Proof.
  assert (Hrc : createRedisClient bare_env
                = Throw "REDIS_REST_URL and REDIS_REST_TOKEN must be set")
    by reflexivity.
  split; [exact Hrc|].
  apply (proj1 (serve_reports_missing_configuration bare_env demo_extract
                  demo_provider demo_iso poll_request completed_world
                  "/functions/v1/nbs-tech" _ eq_refl) Hrc).
  right. left. repeat split; reflexivity.
Defined.

(** The same poll on the configured deployment reaches fetch-summary. *)
Lemma serve_dispatches_witness :
  createRedisClient demo_env = Ok demo_redis_config
  /\ serve demo_env demo_extract demo_provider demo_iso poll_request completed_world
     = handleFetchSummary (Fetch.Make None (Some demo_hash)) completed_world.
Proof.
  assert (Hrc : createRedisClient demo_env = Ok demo_redis_config)
    by (vm_compute; reflexivity).
  split; [exact Hrc|].
  destruct (serve_dispatches demo_env demo_extract demo_provider demo_iso
              poll_request completed_world demo_redis_config
              "/functions/v1/nbs-tech" Hrc eq_refl) as (_ & Hfetch & _).
  apply Hfetch; reflexivity.
Defined.

(** An extraction of four characters and a snippet of sixteen. *)
Lemma extractContentSafe_keeps_snippet_witness :
  JsString.truthy "A longer snippet" = true
  /\ exists t,
       extractContentSafe thin_extract (Some "<p>tiny</p>") "https://example.com/a"
         (Some "A longer snippet") = Ok t
       /\ (Nat.min 50 (String.length "A longer snippet") <= String.length t)%nat.
Proof.
  assert (Hf : JsString.truthy "A longer snippet" = true) by reflexivity.
  split; [exact Hf|].
  exact (extractContentSafe_keeps_snippet thin_extract (Some "<p>tiny</p>")
           "https://example.com/a" "A longer snippet" Hf).
Defined.

Lemma resolveText_with_snippet_witness :
  Req.snippet demo_body = Some "S"
  /\ JsString.truthy (resolveText thin_extract demo_body "https://example.com/a") = true
  /\ exists evs,
       log (snd (handleGenerateSummary thin_extract demo_provider
                   {| json := Ok demo_body |} fresh_world)) = log fresh_world ++ evs
       /\ forall t h r, In (Predict t h r) evs -> t = "S" /\ h = "H".
Proof.
  assert (Hs : Req.snippet demo_body = Some "S") by reflexivity.
  split; [exact Hs|].
  destruct (resolveText_with_snippet thin_extract demo_provider demo_body
              fresh_world "S" Hs eq_refl) as [Htext (evs & Hlog & Hev)].
  split; [exact (proj1 (Htext "https://example.com/a"))|].
  exists evs. split; [exact Hlog|].
  intros t h r HIn. destruct (Hev t h r HIn) as (Ht & Hh & _).
  split; [exact Ht | exact Hh].
Defined.

(** A secret with a space and an ampersand. *)
Lemma webhook_address_authenticates_witness :
  createReplicateClient demo_env = Ok demo_replicate_config
  /\ Form.get "secret"
       (Form.query_encode ("secret=" +:+ encodeURIComponent "s3cret & more"))
     = Some (Some "s3cret & more")
  /\ Auth.valid (verifyWebhookSecret demo_env (Some "s3cret & more")) = true.
Proof.
  assert (Hcfg : createReplicateClient demo_env = Ok demo_replicate_config)
    by (vm_compute; reflexivity).
  assert (Hs : "s3cret & more" <> EmptyString) by discriminate.
  split; [exact Hcfg|].
  exact (proj2 (webhook_address_authenticates demo_env demo_replicate_config
                  "s3cret & more" eq_refl Hs Hcfg)).
Defined.

Lemma normalizeUrl_normal_form_witness :
  URL.parse busy_url = Some busy_url_record
  /\ plain_url busy_url_record = true
  /\ plain_values busy_url_record = true
  /\ normalizeUrl busy_url = "https://example.com:8443/News?id=7".
Proof.
  assert (Hp : URL.parse busy_url = Some busy_url_record) by (vm_compute; reflexivity).
  assert (Hplain : plain_url busy_url_record = true) by (vm_compute; reflexivity).
  assert (Hvalues : plain_values busy_url_record = true) by (vm_compute; reflexivity).
  split; [exact Hp|]. split; [exact Hplain|]. split; [exact Hvalues|].
  rewrite (normalizeUrl_normal_form busy_url busy_url_record Hp Hplain Hvalues).
  vm_compute. reflexivity.
Defined.

Lemma normalizeUrl_drops_fragment_witness :
  URL.parse "https://example.com/a?b=1" = Some queried_story
  /\ plain_url queried_story = true
  /\ normalizeUrl ("https://example.com/a?b=1" +:+ "#" +:+ "section 2")
     = normalizeUrl "https://example.com/a?b=1".
Proof.
  assert (Hp : URL.parse "https://example.com/a?b=1" = Some queried_story)
    by (vm_compute; reflexivity).
  assert (Hplain : plain_url queried_story = true) by (vm_compute; reflexivity).
  split; [exact Hp|]. split; [exact Hplain|].
  exact (normalizeUrl_drops_fragment _ _ "section 2" Hp Hplain eq_refl).
Defined.

Lemma normalizeUrl_drops_tracking_witness :
  URL.parse "https://example.com/a" = Some plain_story
  /\ In "fbclid" trackingParams
  /\ normalizeUrl ("https://example.com/a" +:+ "?" +:+ "fbclid" +:+ "=" +:+ "IwAR0=x")
     = normalizeUrl "https://example.com/a".
Proof.
  assert (Hp : URL.parse "https://example.com/a" = Some plain_story)
    by (vm_compute; reflexivity).
  assert (HIn : In "fbclid" trackingParams) by (do 5 right; left; reflexivity).
  split; [exact Hp|]. split; [exact HIn|].
  exact (normalizeUrl_drops_tracking _ _ "fbclid" "IwAR0=x" Hp eq_refl eq_refl eq_refl
           HIn eq_refl).
Defined.

(** An empty value written without lifetime reads back as a miss. *)
Lemma set_then_get_witness :
  reliable fresh_world
  /\ fst (redis_client.set "k" EmptyString (Some 0) fresh_world) = Ok true
  /\ db (snd (redis_client.set "k" EmptyString (Some 0) fresh_world)) !! "k"
     = Some {| value_of := EmptyString; ttl_of := None |}
  /\ fst (redis_client.get "k"
            (snd (redis_client.set "k" EmptyString (Some 0) fresh_world)))
     = Ok None.
Proof.
  assert (Hrel : reliable fresh_world) by reflexivity.
  destruct (set_then_get "k" EmptyString (Some 0) fresh_world Hrel)
    as (Hset & Hdb & _ & Hget).
  split; [exact Hrel|]. split; [exact Hset|]. split; [exact Hdb | exact Hget].
Defined.

(** The lock of the example, taken while the job is in flight. *)
Lemma setnx_is_exclusive_witness :
  reliable in_flight_world
  /\ fst (redis_client.setnx ("lock:" +:+ demo_hash) "1" 60 in_flight_world) = Ok false
  /\ db (snd (redis_client.setnx ("lock:" +:+ demo_hash) "1" 60 in_flight_world))
     = db in_flight_world.
Proof.
  assert (Hrel : reliable in_flight_world) by reflexivity.
  destruct (setnx_is_exclusive ("lock:" +:+ demo_hash) "1" 60 "2" 30
              in_flight_world Hrel) as (Hnx & Hkeep & _).
  assert (Hthere : db in_flight_world !! ("lock:" +:+ demo_hash)
                   = Some {| value_of := "1"; ttl_of := Some 60 |})
    by (vm_compute; reflexivity).
  split; [exact Hrel|]. split.
  - rewrite Hnx, Hthere. reflexivity.
  - exact (Hkeep _ Hthere).
Defined.

(** The request of the example, sent twice to an empty store. *)
Lemma generate_twice_starts_one_job_witness :
  reliable fresh_world
  /\ fst (handleGenerateSummary demo_extract demo_provider {| json := Ok demo_body |}
            fresh_world)
     = Ok (processing_response demo_hash "job1")
  /\ fst (handleGenerateSummary demo_extract demo_provider {| json := Ok demo_body |}
            (snd (handleGenerateSummary demo_extract demo_provider
                    {| json := Ok demo_body |} fresh_world)))
     = Ok (pending_response (fingerprint demo_extract demo_body)).
Proof.
  assert (Hrel : reliable fresh_world) by reflexivity.
  assert (Hrun : fst (handleGenerateSummary demo_extract demo_provider
                        {| json := Ok demo_body |} fresh_world)
                 = Ok (processing_response demo_hash "job1"))
    by (vm_compute; reflexivity).
  assert (Hst : status (processing_response demo_hash "job1") = 202) by reflexivity.
  destruct (generate_twice_starts_one_job demo_extract demo_provider demo_body
              fresh_world _ Hrel Hrun Hst) as (id & _ & _ & Hagain & _).
  split; [exact Hrel|]. split; [exact Hrun | exact Hagain].
Defined.

(** The same request when the provider refuses it. *)
Lemma generate_provider_failure_witness :
  reliable fresh_world
  /\ fst (handleGenerateSummary demo_extract failing_provider
            {| json := Ok demo_body |} fresh_world)
     = Ok (error_response "quota exceeded")
  /\ db (snd (handleGenerateSummary demo_extract failing_provider
                {| json := Ok demo_body |} fresh_world))
     = db fresh_world.
Proof.
  assert (Hrel : reliable fresh_world) by reflexivity.
  assert (Hev : exists evs text headline,
             log (snd (handleGenerateSummary demo_extract failing_provider
                         {| json := Ok demo_body |} fresh_world))
             = log fresh_world ++ evs
             /\ In (Predict text headline (Throw "quota exceeded")) evs).
  { exists (log (snd (handleGenerateSummary demo_extract failing_provider
                        {| json := Ok demo_body |} fresh_world))), "S", "H".
    split; [reflexivity|]. vm_compute. do 3 right. left. reflexivity. }
  destruct (generate_provider_failure_leaves_no_trace demo_extract failing_provider
              demo_body fresh_world "quota exceeded" Hrel Hev) as (Hans & Hdb & _).
  split; [exact Hrel|]. split; [exact Hans | exact Hdb].
Defined.

(** The request of the example when its summary is cached under the
    fingerprint only. *)
Lemma generate_hit_repairs_address_index_witness :
  stored ("article:" +:+ fingerprint demo_extract demo_body) (db cached_world)
  = Some demo_article
  /\ complete_of demo_article (fingerprint demo_extract demo_body) = Ok demo_complete
  /\ fst (handleGenerateSummary demo_extract demo_provider {| json := Ok demo_body |}
            cached_world)
     = Ok demo_complete
  /\ fst (handleFetchSummary
            (Fetch.Make (Some "https://m.example.com/a?utm_source=x") None)
            (snd (handleGenerateSummary demo_extract demo_provider
                    {| json := Ok demo_body |} cached_world)))
     = Ok demo_complete.
Proof.
  assert (Hrel : reliable cached_world) by reflexivity.
  assert (Hstale : forall existingHash,
             stored (url_key demo_body) (db cached_world) = Some existingHash ->
             stored ("article:" +:+ existingHash) (db cached_world) = None).
  { intros eh H. vm_compute in H. discriminate H. }
  assert (Hart : stored ("article:" +:+ fingerprint demo_extract demo_body)
                   (db cached_world) = Some demo_article)
    by (vm_compute; reflexivity).
  assert (Hc : complete_of demo_article (fingerprint demo_extract demo_body)
               = Ok demo_complete) by (vm_compute; reflexivity).
  destruct (generate_hit_repairs_address_index demo_extract demo_provider demo_body
              "https://m.example.com/a?utm_source=x" cached_world demo_article
              demo_complete Hrel eq_refl eq_refl Hstale Hart Hc)
    as (Hans & _ & Hpoll).
  split; [exact Hart|]. split; [exact Hc|]. split; [exact Hans | exact Hpoll].
Defined.

(** A progress report for the job in flight. *)
Lemma webhook_progress_is_noop_witness :
  Payload.status progress_payload <> succeeded
  /\ Payload.status progress_payload <> failed
  /\ db (snd (handleWebhook {| json := Ok progress_payload |} in_flight_world))
     = db in_flight_world
  /\ fst (handleWebhook {| json := Ok progress_payload |} in_flight_world)
     = Ok received_ack.
Proof.
  assert (Hs : Payload.status progress_payload <> succeeded) by discriminate.
  assert (Hf : Payload.status progress_payload <> failed) by discriminate.
  destruct (webhook_progress_is_noop progress_payload in_flight_world Hs Hf)
    as (Hdb & _ & Hack).
  split; [exact Hs|]. split; [exact Hf|]. split; [exact Hdb|].
  apply (Hack demo_correlation (VStr demo_hash, VStr "H", VStr "https://example.com/a"));
    vm_compute; reflexivity.
Defined.

